(** * GeneratedTestHarness: the NNAPI 1.3 VTS execution-and-verification engine

    A shallow embedding of
    [neuralnetworks/1.3/vts/functional/GeneratedTestHarness.cpp]:
    the model translator [createModel], the request mutation helper
    [makeOutputInsufficientSize], the evaluator [EvaluatePreparedModel], the
    scenario matrix, the coupled evaluation and the entry point [Execute],
    followed by the properties proved about them.

    Conventions of the embedding
    - [uint32_t] and [size_t] values are integers of [Z]; every conversion and
      every accumulation of the source is written with its wrap-around
      ([uint32], [size_t]).  [size_t] is taken as 64 bits wide.
    - a [std::vector] / [hidl_vec] is a list; a subscript is a lookup, and a
      subscript out of range, undefined in C++, yields [Undefined].
    - gtest assertions are recorded in an event log: [ASSERT_*] logs a fatal
      failure and leaves the enclosing function, [EXPECT_*] logs a non-fatal
      failure and goes on, [GTEST_SKIP] logs a skip and leaves the function.
    - what is defined outside the file (the device, the HIDL runtime, the
      helpers of TestHarness.h) is a variable of the section that uses it; a
      helper on whose result a property rests is given a definition, marked
      as such in its comment. *)

From Stdlib Require Import ZArith List Lia Strings.Byte.
From stdpp Require Import base numbers list.

Local Open Scope Z_scope.

(** ** Machine integers *)

(** [static_cast<uint32_t>(z)]. *)
Definition uint32 (z : Z) : Z := z mod 2 ^ 32.

(** Arithmetic on [size_t]. *)
Definition size_t (z : Z) : Z := z mod 2 ^ 64.

Definition UINT32_MAX : Z := 2 ^ 32 - 1.
Definition UINT64_MAX : Z := 2 ^ 64 - 1.

(** ** Outcomes of code that may abort or leave defined behaviour *)

Inductive Outcome (A : Type) : Type :=
  | Ok (a : A)
  | Aborted      (* CHECK / LOG(FATAL): the process is aborted *)
  | Undefined.   (* access outside a buffer or a vector *)
Arguments Ok {A} a.
Arguments Aborted {A}.
Arguments Undefined {A}.

Definition obind {A B} (m : Outcome A) (f : A -> Outcome B) : Outcome B :=
  match m with
  | Ok a => f a
  | Aborted => Aborted
  | Undefined => Undefined
  end.

Notation "'let*' x ':=' m 'in' k" := (obind m (fun x => k))
  (at level 10, x name, m at level 100, k at level 200).

(** ** The test-side data model ([test_helper], TestHarness.h) *)

(** [TestBuffer]: the bytes of an operand; [size()] is their number. *)
Definition TestBuffer := list byte.

Definition size (b : TestBuffer) : Z := Z.of_nat (length b).

Inductive TestOperandLifeTime :=
  | TEMPORARY_VARIABLE
  | SUBGRAPH_INPUT
  | SUBGRAPH_OUTPUT
  | CONSTANT_COPY
  | CONSTANT_REFERENCE
  | NO_VALUE.

Global Instance TestOperandLifeTime_eq_dec : EqDecision TestOperandLifeTime.
Proof. solve_decision. Defined.

(** Operand and operation types are carried by their numeric code: the
    translator only converts them with [static_cast], which keeps the code. *)
Definition TestOperandType := Z.
Definition TENSOR_QUANT8_SYMM_PER_CHANNEL : TestOperandType := 11.

Module SymmPerChannelQuantParams.
Record t := mk { scales : list Z; channelDim : Z }.
End SymmPerChannelQuantParams.

Module TestOperand.
Record t := mk {
    type : TestOperandType;
    dimensions : list Z;
    numberOfConsumers : Z;
    scale : Z;                 (* a float, held by its bit pattern: only copied *)
    zeroPoint : Z;
    lifetime : TestOperandLifeTime;
    channelQuant : SymmPerChannelQuantParams.t;
    data : TestBuffer
}.
End TestOperand.

Module TestOperation.
Record t := mk { type : Z; inputs : list Z; outputs : list Z }.
End TestOperation.

Module TestModel.
Record t := mk {
    operands : list TestOperand.t;
    operations : list TestOperation.t;
    inputIndexes : list Z;
    outputIndexes : list Z;
    isRelaxed : bool;
    expectFailure : bool
}.
End TestModel.

(** ** The wire-level model (HIDL types of V1_0 .. V1_3) *)

Module DataLocation.
Record t := mk { poolIndex : Z; offset : Z; length : Z }.
(** [DataLocation loc = {}] *)
Definition zero : t := mk 0 0 0.
End DataLocation.

Inductive ExtraParams :=
  | none
  | channelQuant (p : SymmPerChannelQuantParams.t).

Module Operand.
Record t := mk {
    type : Z;
    dimensions : list Z;
    numberOfConsumers : Z;
    scale : Z;
    zeroPoint : Z;
    lifetime : TestOperandLifeTime;
    location : DataLocation.t;
    extraParams : ExtraParams
}.
End Operand.

Module Operation.
Record t := mk { type : Z; inputs : list Z; outputs : list Z }.
End Operation.

(** A [hidl_memory] is seen through its mapping: the bytes it holds; its
    [size()] is their number. *)
Definition hidl_memory := list byte.

Module Model.
Record t := mk {
    operands : list Operand.t;
    operations : list Operation.t;
    inputIndexes : list Z;
    outputIndexes : list Z;
    operandValues : list byte;
    pools : list hidl_memory;
    relaxComputationFloat32toFloat16 : bool
}.
End Model.

(** ** Model translator: [createModel] (lines 102-188) *)

Section Translator.

(** [TestBuffer::kAlignment], a constant of TestHarness.h. *)
Variable kAlignment : Z.

(** Modelled from the spec: [TestBuffer::alignedSize] is declared in
    TestHarness.h, outside this file; it is "the operand's size rounded up to
    an alignment boundary". *)
Definition alignedSize (b : TestBuffer) : Z :=
  (size b + kAlignment - 1) / kAlignment * kAlignment.

(** The two running totals of the first loop. *)
Record Cursors := mkCursors { constCopySize : Z; constRefSize : Z }.

(** Lines 109-120: the location of one operand and the advanced totals. *)
Definition locateOperand (op : TestOperand.t) (c : Cursors) : DataLocation.t * Cursors :=
  match TestOperand.lifetime op with
  | CONSTANT_COPY =>
      (DataLocation.mk 0 (uint32 (constCopySize c)) (uint32 (size (TestOperand.data op))),
       mkCursors (size_t (constCopySize c + alignedSize (TestOperand.data op)))
                 (constRefSize c))
  | CONSTANT_REFERENCE =>
      (DataLocation.mk 0 (uint32 (constRefSize c)) (uint32 (size (TestOperand.data op))),
       mkCursors (constCopySize c)
                 (size_t (constRefSize c + alignedSize (TestOperand.data op))))
  | _ => (DataLocation.zero, c)
  end.

(** Lines 122-135: the wire operand built from a test operand and its location. *)
Definition translateOperand (op : TestOperand.t) (loc : DataLocation.t) : Operand.t :=
  Operand.mk
    (TestOperand.type op)
    (TestOperand.dimensions op)
    (TestOperand.numberOfConsumers op)
    (TestOperand.scale op)
    (TestOperand.zeroPoint op)
    (TestOperand.lifetime op)
    loc
    (if decide (TestOperand.type op = TENSOR_QUANT8_SYMM_PER_CHANNEL)
     then channelQuant
            (SymmPerChannelQuantParams.mk
               (SymmPerChannelQuantParams.scales (TestOperand.channelQuant op))
               (SymmPerChannelQuantParams.channelDim (TestOperand.channelQuant op)))
     else none).

(** Lines 106-136: the first loop, in index order. *)
Fixpoint createOperands (ops : list TestOperand.t) (c : Cursors) : list Operand.t * Cursors :=
  match ops with
  | [] => ([], c)
  | op :: rest =>
      let (loc, c1) := locateOperand op c in
      let (out, c2) := createOperands rest c1 in
      (translateOperand op loc :: out, c2)
  end.

(** Lines 139-145. *)
Definition translateOperation (op : TestOperation.t) : Operation.t :=
  Operation.mk (TestOperation.type op) (TestOperation.inputs op) (TestOperation.outputs op).

(** [std::copy(begin, end, dst + off)] with [src] the bytes of [begin, end):
    writing outside [dst] is undefined. *)
Definition std_copy (src dst : list byte) (off : Z) : Outcome (list byte) :=
  if decide (0 <= off /\ off + size src <= size dst) then
    Ok (take (Z.to_nat off) dst ++ src ++ drop (Z.to_nat off + length src) dst)
  else Undefined.

(** Lines 149-156 and 171-178: the data of every operand of lifetime [lt] is
    copied into [buf] at the offset stored in the wire operand of the same
    index. *)
Fixpoint copyConstants (lt : TestOperandLifeTime) (tops : list TestOperand.t)
    (ops : list Operand.t) (buf : list byte) : Outcome (list byte) :=
  match tops, ops with
  | top :: tops', op :: ops' =>
      if decide (TestOperand.lifetime top = lt) then
        let* buf' := std_copy (TestOperand.data top) buf
                       (DataLocation.offset (Operand.location op)) in
        copyConstants lt tops' ops' buf'
      else copyConstants lt tops' ops' buf
  | _, _ => Ok buf
  end.

(** [createModel].  [allocateSharedMemory n] is the memory handed out by
    [nn::allocateSharedMemory(n)], seen through [mapMemory] (the mapping of a
    memory of non-zero size is taken to succeed); an allocation that failed
    has size 0.  [hidl_vec<uint8_t>(n)] is [n] zero bytes. *)
Definition createModel (allocateSharedMemory : Z -> hidl_memory)
    (testModel : TestModel.t) : Outcome Model.t :=
  let (operands, c) := createOperands (TestModel.operands testModel) (mkCursors 0 0) in
  let operations := map translateOperation (TestModel.operations testModel) in
  let* operandValues :=
    copyConstants CONSTANT_COPY (TestModel.operands testModel) operands
      (replicate (Z.to_nat (constCopySize c)) x00) in
  let* pools :=
    (if decide (constRefSize c > 0) then
       let pool := allocateSharedMemory (constRefSize c) in
       if decide (size pool = 0) then Aborted
       else
         let* mapped :=
           copyConstants CONSTANT_REFERENCE (TestModel.operands testModel) operands pool in
         Ok [mapped]
     else Ok []) in
  Ok (Model.mk operands operations
        (TestModel.inputIndexes testModel)
        (TestModel.outputIndexes testModel)
        operandValues pools
        (TestModel.isRelaxed testModel)).

End Translator.

(** ** Requests, execution results and test configurations *)

Module RequestArgument.
Record t := mk { hasNoValue : bool; location : DataLocation.t; dimensions : list Z }.
End RequestArgument.

Module Request.
Record t := mk {
    inputs : list RequestArgument.t;
    outputs : list RequestArgument.t;
    pools : list hidl_memory
}.
End Request.

Module OutputShape.
Record t := mk { dimensions : list Z; isSufficient : bool }.
End OutputShape.

Module Timing.
Record t := mk { timeOnDevice : Z; timeInDriver : Z }.
End Timing.

Inductive ErrorStatus :=
  | NONE
  | DEVICE_UNAVAILABLE
  | GENERAL_FAILURE
  | OUTPUT_INSUFFICIENT_SIZE
  | INVALID_ARGUMENT.

Inductive MeasureTiming := NO | YES.

Inductive Executor := ASYNC | SYNC | BURST.

Inductive OutputType := FULLY_SPECIFIED | UNSPECIFIED | INSUFFICIENT.

Inductive TestKind := GENERAL | DYNAMIC_SHAPE | QUANTIZATION_COUPLING.

Global Instance ErrorStatus_eq_dec : EqDecision ErrorStatus.
Proof. solve_decision. Defined.
Global Instance MeasureTiming_eq_dec : EqDecision MeasureTiming.
Proof. solve_decision. Defined.
Global Instance Executor_eq_dec : EqDecision Executor.
Proof. solve_decision. Defined.
Global Instance OutputType_eq_dec : EqDecision OutputType.
Proof. solve_decision. Defined.
Global Instance TestKind_eq_dec : EqDecision TestKind.
Proof. solve_decision. Defined.

Module TestConfig.
Record t := mk {
    executor : Executor;
    measureTiming : MeasureTiming;
    outputType : OutputType;
    reportSkipping : bool
}.
(** The three-argument constructor: [reportSkipping(true)]. *)
Definition mk3 (executor : Executor) (measureTiming : MeasureTiming)
    (outputType : OutputType) : t :=
  mk executor measureTiming outputType true.
End TestConfig.

(** What one execution hands back: status, output shapes, timing. *)
Module Execution.
Record t := mk {
    status : ErrorStatus;
    outputShapes : list OutputShape.t;
    timing : Timing.t
}.
End Execution.

(** [Return<T>]: the value of a HIDL call whose transport succeeded
    ([isOk()]), or a transport error. *)
Inductive Return (A : Type) : Type :=
  | ReturnOk (a : A)
  | TransportError.
Arguments ReturnOk {A} a.
Arguments TransportError {A}.

Global Instance Return_eq_dec {A} `{EqDecision A} : EqDecision (Return A).
Proof. solve_decision. Defined.

Definition isOk {A} (r : Return A) : bool :=
  match r with ReturnOk _ => true | TransportError => false end.

(** [execute_1_3]: the launch status, and what the callback is notified with. *)
Module AsyncExecution.
Record t := mk { launch : Return ErrorStatus; notified : Execution.t }.
End AsyncExecution.

(** [executeSynchronously_1_3]: the callback runs with the result, or the
    transport fails and the callback does not run; the caller's [timing] then
    keeps the indeterminate content of an uninitialised local, [stale]. *)
Inductive SyncExecution :=
  | SyncAnswered (r : Execution.t)
  | SyncTransportError (stale : Timing.t).

(** [ExecutionBurstController::compute]: result code, shapes, timing. *)
Module BurstExecution.
Record t := mk { n : Z; outputShapes : list OutputShape.t; timing : Timing.t }.
End BurstExecution.

(** A prepared model, by what the harness observes of it.  Within one test
    every call has its own arguments (executor, request, timing flag), so a
    function of the arguments describes any backend.  [burst] is the
    controller of [ExecutionBurstController::create], [None] for [nullptr]. *)
Module IPreparedModel.
Record t := mk {
    execute_1_3 : Request.t -> MeasureTiming -> AsyncExecution.t;
    executeSynchronously_1_3 : Request.t -> MeasureTiming -> SyncExecution;
    burst : option (Request.t -> MeasureTiming -> BurstExecution.t)
}.
End IPreparedModel.

(** ** The event log of a test body *)

(** The assertion sites of the file. *)
Inductive Site :=
  | LengthGreaterThanOne          (* 197 *)
  | LaunchIsOk                    (* 264 *)
  | LaunchStatusNone              (* 265 *)
  | SyncReturnIsOk                (* 281 *)
  | BurstControllerNotNull        (* 292 *)
  | TimeOnDeviceUnknown           (* 326 *)
  | TimeInDriverUnknown           (* 327 *)
  | TimeOnDeviceLeInDriver        (* 330 *)
  | StatusNone                    (* 338, 345 *)
  | ShapesEmptyOrMatchOutputs     (* 339 *)
  | ShapesMatchOutputs            (* 346, 350 *)
  | StatusOutputInsufficientSize  (* 349 *)
  | Output0NotSufficient          (* 351 *)
  | OutputSufficient (i : nat)    (* 357 *)
  | OutputDimensions (i : nat)    (* 360 *)
  | SkippedAlike                  (* 421 *)
  | HasQuant8CoupledOperands      (* 455 *)
  | CoupledNotPrepared            (* 464 *)
  | CoupledPrepared.              (* 475 *)

(** Calls to collaborators that live outside the file. *)
Inductive External :=
  | createRequest_
  | execute_1_3_
  | executeSynchronously_1_3_
  | CreateBurst_
  | compute_
  | getOutputBuffers_
  | checkResults_
  | createPreparedModel_.

Inductive Message := CannotExecute | CannotPrepare.

Inductive Event :=
  | FatalFailure (s : Site)     (* a failed ASSERT_* *)
  | NonFatalFailure (s : Site)  (* a failed EXPECT_* *)
  | Skip                        (* GTEST_SKIP() *)
  | LogInfo (m : Message)       (* LOG(INFO) *)
  | Cout (m : Message)          (* std::cout *)
  | Called (f : External).

Global Instance Site_eq_dec : EqDecision Site.
Proof. solve_decision. Defined.
Global Instance External_eq_dec : EqDecision External.
Proof. solve_decision. Defined.
Global Instance Message_eq_dec : EqDecision Message.
Proof. solve_decision. Defined.
Global Instance Event_eq_dec : EqDecision Event.
Proof. solve_decision. Defined.

Definition isFatal (e : Event) : bool :=
  match e with FatalFailure _ => true | _ => false end.

Definition isFailure (e : Event) : bool :=
  match e with FatalFailure _ | NonFatalFailure _ => true | _ => false end.

(** ** Test bodies

    A body runs on a state [S] (what it may mutate through a pointer) and
    yields the events it logged, the final state, and whether control goes on
    ([Next]) or the function has returned ([Returned]). *)

Inductive Flow (A : Type) : Type :=
  | Next (a : A)
  | Returned.
Arguments Next {A} a.
Arguments Returned {A}.

Definition Body (S A : Type) : Type := S -> Outcome (list Event * S * Flow A).

Definition ret {S A} (a : A) : Body S A := fun s => Ok ([], s, Next a).

Definition bind {S A B} (m : Body S A) (f : A -> Body S B) : Body S B :=
  fun s =>
    match m s with
    | Ok (l1, s1, Next a) =>
        match f a s1 with
        | Ok (l2, s2, r) => Ok (l1 ++ l2, s2, r)
        | Aborted => Aborted
        | Undefined => Undefined
        end
    | Ok (l1, s1, Returned) => Ok (l1, s1, Returned)
    | Aborted => Aborted
    | Undefined => Undefined
    end.

Notation "x <- m ;; k" := (bind m (fun x => k))
  (at level 100, m at next level, right associativity).
Notation "m ;; k" := (bind m (fun _ => k))
  (at level 100, right associativity).

Definition emit {S} (e : Event) : Body S unit := fun s => Ok ([e], s, Next tt).
Definition return_ {S A} : Body S A := fun s => Ok ([], s, Returned).
Definition lift {S A} (o : Outcome A) : Body S A :=
  fun s => match o with
           | Ok a => Ok ([], s, Next a)
           | Aborted => Aborted
           | Undefined => Undefined
           end.
Definition get {S} : Body S S := fun s => Ok ([], s, Next s).
Definition put {S} (s : S) : Body S unit := fun _ => Ok ([], s, Next tt).

Definition ASSERT {S} (site : Site) (b : bool) : Body S unit :=
  if b then ret tt else fun s => Ok ([FatalFailure site], s, Returned).
Definition EXPECT {S} (site : Site) (b : bool) : Body S unit :=
  if b then ret tt else emit (NonFatalFailure site).
Definition GTEST_SKIP {S A} : Body S A := fun s => Ok ([Skip], s, Returned).

(** A call of a [void] function that works on a state of its own (a local of
    the caller passed by pointer): the caller goes on after the callee has
    returned, with the callee's final state. *)
Definition call {S S'} (callee : Body S' unit) (s' : S') : Body S S' :=
  fun s =>
    match callee s' with
    | Ok (l, s'', _) => Ok (l, s, Next s'')
    | Aborted => Aborted
    | Undefined => Undefined
    end.

(** A range-based [for] over a vector. *)
Fixpoint for_each {S A} (l : list A) (body : A -> Body S unit) : Body S unit :=
  match l with
  | [] => ret tt
  | x :: l' => body x ;; for_each l' body
  end.

(** [p == nullptr] for a strong pointer. *)
Definition isNull {A} (p : option A) : bool :=
  match p with None => true | Some _ => false end.

(** [v[i]] for an unsigned index. *)
Definition at_ {A} (v : list A) (i : Z) : Outcome A :=
  if decide (0 <= i) then
    match v !! Z.to_nat i with
    | Some a => Ok a
    | None => Undefined
    end
  else Undefined.

(** ** The harness *)

Section Harness.

Variable kAlignment : Z.

(** [nn::allocateSharedMemory] followed by [mapMemory]. *)
Variable allocateSharedMemory : Z -> hidl_memory.

(** [nn::convertResultCodeToErrorStatus]. *)
Variable convertResultCodeToErrorStatus : Z -> ErrorStatus.

(** [TestModel::hasQuant8CoupledOperands] and
    [convertQuant8AsymmOperandsToSigned], of TestHarness.h. *)
Variable hasQuant8CoupledOperands : TestModel.t -> bool.
Variable convertQuant8AsymmOperandsToSigned : TestModel.t -> TestModel.t.

(** The device, and [createPreparedModel(device, model, &preparedModel,
    reportSkipping)] of VtsHalNeuralnetworks.cpp: a black box that logs what it
    logs and leaves a prepared model or [nullptr] ([None]). *)
Variable IDevice : Type.
Variable createPreparedModel :
  IDevice -> Model.t -> bool -> list Event * option IPreparedModel.t.

(** *** Request builder *)

(** One pool entry per operand index, packed one after the other.  The
    offset and the length of a [DataLocation] are [uint32_t] fields and the
    running total is a [size_t]: they are narrowed as [createModel] narrows
    them for the constants (lines 111-114). *)
Fixpoint requestArguments (testModel : TestModel.t) (poolIndex : Z) (indexes : list Z)
    (cursor : Z) : Outcome (list RequestArgument.t) :=
  match indexes with
  | [] => Ok []
  | i :: rest =>
      let* op := at_ (TestModel.operands testModel) i in
      let* args := requestArguments testModel poolIndex rest
                     (size_t (cursor + alignedSize kAlignment (TestOperand.data op))) in
      Ok (RequestArgument.mk false
            (DataLocation.mk poolIndex (uint32 cursor)
               (uint32 (size (TestOperand.data op)))) []
          :: args)
  end.

(** Modelled from the spec: [createRequest] is defined in the VTS utility
    library, not in this file.  A request has "one memory pool entry per
    input/output describing (poolIndex, byteOffset, byteLength)", the byte
    length of an entry being the declared byte size of its operand as far as
    the 32-bit field holds it.  The memory pools themselves, which the code of
    this file never reads, are left out. *)
Definition createRequest (testModel : TestModel.t) : Outcome Request.t :=
  let* inputs := requestArguments testModel 0 (TestModel.inputIndexes testModel) 0 in
  let* outputs := requestArguments testModel 1 (TestModel.outputIndexes testModel) 0 in
  Ok (Request.mk inputs outputs []).

(** Lines 190-193. *)
Definition isOutputSizeGreaterThanOne (testModel : TestModel.t) (index : Z) : Outcome bool :=
  let* operandIndex := at_ (TestModel.outputIndexes testModel) index in
  let* operand := at_ (TestModel.operands testModel) operandIndex in
  Ok (bool_decide (size (TestOperand.data operand) > 1)).

Definition setLength (arg : RequestArgument.t) (length : Z) : RequestArgument.t :=
  RequestArgument.mk
    (RequestArgument.hasNoValue arg)
    (DataLocation.mk
       (DataLocation.poolIndex (RequestArgument.location arg))
       (DataLocation.offset (RequestArgument.location arg))
       length)
    (RequestArgument.dimensions arg).

(** Lines 195-199; the state is the request behind the pointer. *)
Definition makeOutputInsufficientSize (outputIndex : Z) : Body Request.t unit :=
  request <- get ;;
  output <- lift (at_ (Request.outputs request) outputIndex) ;;
  let length := DataLocation.length (RequestArgument.location output) in
  ASSERT LengthGreaterThanOne (bool_decide (length > 1)) ;;
  put (Request.mk
         (Request.inputs request)
         (<[Z.to_nat outputIndex := setLength output (uint32 (length - 1))]>
            (Request.outputs request))
         (Request.pools request)).

(** Lines 201-206. *)
Fixpoint blankDimensions (indexes : list Z) (operands : list Operand.t)
    : Outcome (list Operand.t) :=
  match indexes with
  | [] => Ok operands
  | i :: rest =>
      let* op := at_ operands i in
      blankDimensions rest
        (<[Z.to_nat i :=
             Operand.mk (Operand.type op)
               (map (fun _ => 0) (Operand.dimensions op))
               (Operand.numberOfConsumers op) (Operand.scale op)
               (Operand.zeroPoint op) (Operand.lifetime op)
               (Operand.location op) (Operand.extraParams op)]> operands)
  end.

Definition makeOutputDimensionsUnspecified (model : Model.t) : Outcome Model.t :=
  let* operands := blankDimensions (Model.outputIndexes model) (Model.operands model) in
  Ok (Model.mk operands (Model.operations model) (Model.inputIndexes model)
        (Model.outputIndexes model) (Model.operandValues model) (Model.pools model)
        (Model.relaxComputationFloat32toFloat16 model)).

(** *** Execution drivers *)

(** Lines 213-230, the synchronous overload of [ExecutePreparedModel]: the
    returned status is always [isOk()]; [*outputShapes] and [*timing] are
    written by the callback only. *)
Definition ExecutePreparedModel (preparedModel : IPreparedModel.t) (request : Request.t)
    (measure : MeasureTiming) : Return ErrorStatus * list OutputShape.t * Timing.t :=
  match IPreparedModel.executeSynchronously_1_3 preparedModel request measure with
  | SyncAnswered r =>
      (ReturnOk (Execution.status r), Execution.outputShapes r, Execution.timing r)
  | SyncTransportError stale => (ReturnOk GENERAL_FAILURE, [], stale)
  end.

(** Lines 253-308: the [switch] over the executor. *)
Definition runExecutor {S} (preparedModel : IPreparedModel.t) (request : Request.t)
    (testConfig : TestConfig.t) : Body S Execution.t :=
  match TestConfig.executor testConfig with
  | ASYNC =>
      emit (Called execute_1_3_) ;;
      let r := IPreparedModel.execute_1_3 preparedModel request
                 (TestConfig.measureTiming testConfig) in
      ASSERT LaunchIsOk (isOk (AsyncExecution.launch r)) ;;
      EXPECT LaunchStatusNone
        (bool_decide (AsyncExecution.launch r = ReturnOk NONE)) ;;
      ret (AsyncExecution.notified r)
  | SYNC =>
      emit (Called executeSynchronously_1_3_) ;;
      let '(executionReturnStatus, outputShapes, timing) :=
        ExecutePreparedModel preparedModel request
          (TestConfig.measureTiming testConfig) in
      ASSERT SyncReturnIsOk (isOk executionReturnStatus) ;;
      match executionReturnStatus with
      | ReturnOk executionStatus => ret (Execution.mk executionStatus outputShapes timing)
      | TransportError => return_
      end
  | BURST =>
      emit (Called CreateBurst_) ;;
      match IPreparedModel.burst preparedModel with
      | None => ASSERT BurstControllerNotNull false ;; return_
      | Some controller =>
          emit (Called compute_) ;;
          let r := controller request (TestConfig.measureTiming testConfig) in
          ret (Execution.mk
                 (convertResultCodeToErrorStatus (BurstExecution.n r))
                 (BurstExecution.outputShapes r)
                 (BurstExecution.timing r))
      end
  end.

(** *** Evaluator: [EvaluatePreparedModel] (lines 237-368)

    The state is the [bool] behind [skipped], [None] when the pointer is
    [nullptr]. *)

Definition setSkipped (b : bool) : Body (option bool) unit :=
  fun skipped =>
    match skipped with
    | Some _ => Ok ([], Some b, Next tt)
    | None => Ok ([], None, Next tt)
    end.

(** Lines 242-251: the early return on a small output 0, the request and its
    shrinking. *)
Definition buildRequest {S} (testModel : TestModel.t) (testConfig : TestConfig.t)
    : Body S Request.t :=
  tooSmall <-
    (if decide (TestConfig.outputType testConfig = INSUFFICIENT) then
       greater <- lift (isOutputSizeGreaterThanOne testModel 0) ;;
       ret (negb greater)
     else ret false) ;;
  (if tooSmall : bool then return_ else ret tt) ;;
  emit (Called createRequest_) ;;
  request <- lift (createRequest testModel) ;;
  if decide (TestConfig.outputType testConfig = INSUFFICIENT) then
    call (makeOutputInsufficientSize 0) request
  else ret request.

(** Lines 310-324. *)
Definition skipUnsupported (testConfig : TestConfig.t) (executionStatus : ErrorStatus)
    : Body (option bool) unit :=
  if bool_decide (TestConfig.outputType testConfig <> FULLY_SPECIFIED)
     && bool_decide (executionStatus = GENERAL_FAILURE) then
    setSkipped true ;;
    (if negb (TestConfig.reportSkipping testConfig) then return_ else ret tt) ;;
    emit (LogInfo CannotExecute) ;;
    emit (Cout CannotExecute) ;;
    GTEST_SKIP
  else ret tt.

(** Lines 325-332. *)
Definition checkTiming {S} (testConfig : TestConfig.t) (timing : Timing.t) : Body S unit :=
  if decide (TestConfig.measureTiming testConfig = NO) then
    EXPECT TimeOnDeviceUnknown (bool_decide (UINT64_MAX = Timing.timeOnDevice timing)) ;;
    EXPECT TimeInDriverUnknown (bool_decide (UINT64_MAX = Timing.timeInDriver timing))
  else
    if bool_decide (Timing.timeOnDevice timing <> UINT64_MAX)
       && bool_decide (Timing.timeInDriver timing <> UINT64_MAX) then
      EXPECT TimeOnDeviceLeInDriver
        (bool_decide (Timing.timeOnDevice timing <= Timing.timeInDriver timing))
    else ret tt.

(** Lines 334-353. *)
Definition checkOutputType {S} (testModel : TestModel.t) (testConfig : TestConfig.t)
    (executionStatus : ErrorStatus) (outputShapes : list OutputShape.t) : Body S unit :=
  match TestConfig.outputType testConfig with
  | FULLY_SPECIFIED =>
      ASSERT StatusNone (bool_decide (NONE = executionStatus)) ;;
      ASSERT ShapesEmptyOrMatchOutputs
        (bool_decide (length outputShapes = 0%nat)
         || bool_decide (length outputShapes = length (TestModel.outputIndexes testModel)))
  | UNSPECIFIED =>
      ASSERT StatusNone (bool_decide (NONE = executionStatus)) ;;
      ASSERT ShapesMatchOutputs
        (bool_decide (length outputShapes = length (TestModel.outputIndexes testModel)))
  | INSUFFICIENT =>
      ASSERT StatusOutputInsufficientSize
        (bool_decide (OUTPUT_INSUFFICIENT_SIZE = executionStatus)) ;;
      ASSERT ShapesMatchOutputs
        (bool_decide (length outputShapes = length (TestModel.outputIndexes testModel))) ;;
      shape0 <- lift (at_ outputShapes 0) ;;
      ASSERT Output0NotSufficient (negb (OutputShape.isSufficient shape0)) ;;
      return_
  end.

(** Lines 356-361, from index [i] on. *)
Fixpoint checkOutputShapes {St} (testModel : TestModel.t) (i : nat)
    (outputShapes : list OutputShape.t) : Body St unit :=
  match outputShapes with
  | [] => ret tt
  | shape :: rest =>
      EXPECT (OutputSufficient i) (OutputShape.isSufficient shape) ;;
      operandIndex <- lift (at_ (TestModel.outputIndexes testModel) (Z.of_nat i)) ;;
      operand <- lift (at_ (TestModel.operands testModel) operandIndex) ;;
      EXPECT (OutputDimensions i)
        (bool_decide (TestOperand.dimensions operand = OutputShape.dimensions shape)) ;;
      checkOutputShapes testModel (S i) rest
  end.

(** Lines 239-308: up to the end of the execution. *)
Definition runRequest (preparedModel : IPreparedModel.t) (testModel : TestModel.t)
    (testConfig : TestConfig.t) : Body (option bool) (Request.t * Execution.t) :=
  setSkipped false ;;
  request <- buildRequest testModel testConfig ;;
  execution <- runExecutor preparedModel request testConfig ;;
  ret (request, execution).

(** Lines 325-367: the checks on an execution that was not skipped. *)
Definition checkExecution {S} (testModel : TestModel.t) (testConfig : TestConfig.t)
    (execution : Execution.t) : Body S unit :=
  checkTiming testConfig (Execution.timing execution) ;;
  checkOutputType testModel testConfig
    (Execution.status execution) (Execution.outputShapes execution) ;;
  checkOutputShapes testModel 0 (Execution.outputShapes execution) ;;
  emit (Called getOutputBuffers_) ;;
  emit (Called checkResults_).

Definition EvaluatePreparedModel (preparedModel : IPreparedModel.t)
    (testModel : TestModel.t) (testConfig : TestConfig.t) : Body (option bool) unit :=
  executed <- runRequest preparedModel testModel testConfig ;;
  let execution := snd executed in
  skipUnsupported testConfig (Execution.status execution) ;;
  checkExecution testModel testConfig execution.

(** *** Scenario matrix: [EvaluatePreparedModel(..., TestKind)] (lines 370-401) *)

Definition EvaluatePreparedModel_TestKind (preparedModel : IPreparedModel.t)
    (testModel : TestModel.t) (testKind : TestKind) : Body unit unit :=
  lists <-
    lift (match testKind with
          | GENERAL => Ok ([FULLY_SPECIFIED], [NO; YES], [ASYNC; SYNC; BURST])
          | DYNAMIC_SHAPE => Ok ([UNSPECIFIED; INSUFFICIENT], [NO; YES], [ASYNC; SYNC; BURST])
          | QUANTIZATION_COUPLING => Aborted   (* LOG(FATAL) *)
          end) ;;
  let '(outputTypesList, measureTimingList, executorList) := lists in
  for_each outputTypesList (fun outputType =>
    for_each measureTimingList (fun measureTiming =>
      for_each executorList (fun executor =>
        let testConfig := TestConfig.mk3 executor measureTiming outputType in
        call (EvaluatePreparedModel preparedModel testModel testConfig) None ;;
        ret tt))).

(** *** Coupled evaluation: [EvaluatePreparedCoupledModels] (lines 403-434) *)

(** One turn of the innermost loop (lines 414-430). *)
Definition evaluateCoupledPair (preparedModel : IPreparedModel.t) (testModel : TestModel.t)
    (preparedCoupledModel : IPreparedModel.t) (coupledModel : TestModel.t)
    (testConfig : TestConfig.t) : Body unit unit :=
  baseSkipped <-
    call (EvaluatePreparedModel preparedModel testModel testConfig) (Some false) ;;
  coupledSkipped <-
    call (EvaluatePreparedModel preparedCoupledModel coupledModel testConfig) (Some false) ;;
  ASSERT SkippedAlike (bool_decide (baseSkipped = coupledSkipped)) ;;
  if bool_decide (baseSkipped = Some true) then
    emit (LogInfo CannotExecute) ;;
    emit (Cout CannotExecute) ;;
    GTEST_SKIP
  else ret tt.

Definition EvaluatePreparedCoupledModels (preparedModel : IPreparedModel.t)
    (testModel : TestModel.t) (preparedCoupledModel : IPreparedModel.t)
    (coupledModel : TestModel.t) : Body unit unit :=
  let outputTypesList := [FULLY_SPECIFIED] in
  let measureTimingList := [NO; YES] in
  let executorList := [ASYNC; SYNC; BURST] in
  for_each outputTypesList (fun outputType =>
    for_each measureTimingList (fun measureTiming =>
      for_each executorList (fun executor =>
        let testConfig := TestConfig.mk executor measureTiming outputType false in
        evaluateCoupledPair preparedModel testModel preparedCoupledModel coupledModel
          testConfig))).

(** *** Entry point: [Execute] (lines 436-480) *)

Definition prepare (device : IDevice) (model : Model.t) (reportSkipping : bool)
    : Body unit (option IPreparedModel.t) :=
  emit (Called createPreparedModel_) ;;
  let '(logged, preparedModel) := createPreparedModel device model reportSkipping in
  for_each logged emit ;;
  ret preparedModel.

Definition Execute (device : IDevice) (testModel : TestModel.t) (testKind : TestKind)
    : Body unit unit :=
  model <- lift (createModel kAlignment allocateSharedMemory testModel) ;;
  model <- (if decide (testKind = DYNAMIC_SHAPE)
            then lift (makeOutputDimensionsUnspecified model)
            else ret model) ;;
  match testKind with
  | GENERAL =>
      preparedModel <- prepare device model true ;;
      match preparedModel with
      | None => return_
      | Some preparedModel =>
          call (EvaluatePreparedModel_TestKind preparedModel testModel GENERAL) tt
      end
  | DYNAMIC_SHAPE =>
      preparedModel <- prepare device model true ;;
      match preparedModel with
      | None => return_
      | Some preparedModel =>
          call (EvaluatePreparedModel_TestKind preparedModel testModel DYNAMIC_SHAPE) tt
      end
  | QUANTIZATION_COUPLING =>
      ASSERT HasQuant8CoupledOperands (hasQuant8CoupledOperands testModel) ;;
      preparedModel <- prepare device model false ;;
      let signedQuantizedModel := convertQuant8AsymmOperandsToSigned testModel in
      coupledModel <- lift (createModel kAlignment allocateSharedMemory signedQuantizedModel) ;;
      preparedCoupledModel <- prepare device coupledModel false ;;
      (if isNull preparedModel then
         ASSERT CoupledNotPrepared (isNull preparedCoupledModel) ;;
         emit (LogInfo CannotPrepare) ;;
         emit (Cout CannotPrepare) ;;
         GTEST_SKIP
       else ret tt) ;;
      ASSERT CoupledPrepared (negb (isNull preparedCoupledModel)) ;;
      match preparedModel, preparedCoupledModel with
      | Some preparedModel, Some preparedCoupledModel =>
          call (EvaluatePreparedCoupledModels preparedModel testModel
                  preparedCoupledModel signedQuantizedModel) tt
      | _, _ => lift Undefined   (* not reached: both handles are non-null here *)
      end
  end.

(** *** Test suites (lines 505-525) *)

(** The filter of [INSTANTIATE_GENERATED_TEST(QuantizationCouplingTest, ...)]. *)
Definition QuantizationCouplingTest_filter (testModel : TestModel.t) : bool :=
  hasQuant8CoupledOperands testModel
  && bool_decide (length (TestModel.operations testModel) = 1%nat).

Definition GeneratedTest_filter (testModel : TestModel.t) : bool :=
  negb (TestModel.expectFailure testModel).

(** Modelled from the spec: [INSTANTIATE_GENERATED_TEST] and
    [TestModelManager::getTestModels] are declared outside this file.  The
    corpus is an "ordered sequence of (name, AbstractModel) pairs with a
    filter predicate"; a suite has one test per device and per model of the
    corpus that passes its filter. *)
Definition getNamedModels {Name} (corpus : list (Name * TestModel.t))
    (filter : TestModel.t -> bool) : list (Name * TestModel.t) :=
  List.filter (fun namedModel => filter (snd namedModel)) corpus.

Definition instantiate {Name} (devices : list IDevice) (corpus : list (Name * TestModel.t))
    (filter : TestModel.t -> bool) : list (IDevice * (Name * TestModel.t)) :=
  list_prod devices (getNamedModels corpus filter).

(** [TEST_P(QuantizationCouplingTest, Test)], run on every instance. *)
Definition QuantizationCouplingTest {Name} (devices : list IDevice)
    (corpus : list (Name * TestModel.t))
    : list (IDevice * (Name * TestModel.t) * Outcome (list Event * unit * Flow unit)) :=
  map (fun param => (param, Execute (fst param) (snd (snd param)) QUANTIZATION_COUPLING tt))
      (instantiate devices corpus QuantizationCouplingTest_filter).

End Harness.

(** ** Notions used to state the properties *)

(** The sum of the aligned sizes of the operands of lifetime [lt], as an
    integer (no wrap-around): where the running total of [createModel] stands
    after these operands when nothing overflowed. *)
Fixpoint alignedTotal (kAlignment : Z) (lt : TestOperandLifeTime)
    (ops : list TestOperand.t) : Z :=
  match ops with
  | [] => 0
  | op :: rest =>
      (if decide (TestOperand.lifetime op = lt)
       then alignedSize kAlignment (TestOperand.data op) else 0)
      + alignedTotal kAlignment lt rest
  end.

(** The two lifetimes of constant data. *)
Definition isConstant (lt : TestOperandLifeTime) : bool :=
  match lt with
  | CONSTANT_COPY | CONSTANT_REFERENCE => true
  | _ => false
  end.

(** The location [createModel] gives the operand [top] found at index [i] of
    [ops], the totals being [c] before the first operand. *)
Definition locationAt (kAlignment : Z) (c : Cursors) (ops : list TestOperand.t)
    (i : nat) (top : TestOperand.t) : DataLocation.t :=
  match TestOperand.lifetime top with
  | CONSTANT_COPY =>
      DataLocation.mk 0
        (uint32 (constCopySize c + alignedTotal kAlignment CONSTANT_COPY (take i ops)))
        (uint32 (size (TestOperand.data top)))
  | CONSTANT_REFERENCE =>
      DataLocation.mk 0
        (uint32 (constRefSize c + alignedTotal kAlignment CONSTANT_REFERENCE (take i ops)))
        (uint32 (size (TestOperand.data top)))
  | _ => DataLocation.zero
  end.

(** The wire operands of the first loop of [createModel], and the size it
    asks of the shared pool. *)
Definition translatedOperands (kAlignment : Z) (testModel : TestModel.t) : list Operand.t :=
  (createOperands kAlignment (TestModel.operands testModel) (mkCursors 0 0)).1.

Definition requestedPoolSize (kAlignment : Z) (testModel : TestModel.t) : Z :=
  constRefSize (createOperands kAlignment (TestModel.operands testModel) (mkCursors 0 0)).2.

(** [written lt tops ops p]: byte [p] of the buffer lies in the range that
    [copyConstants lt tops ops] writes for some operand. *)
Fixpoint written (lt : TestOperandLifeTime) (tops : list TestOperand.t)
    (ops : list Operand.t) (p : Z) : bool :=
  match tops, ops with
  | top :: tops', op :: ops' =>
      (if decide (TestOperand.lifetime top = lt) then
         bool_decide (DataLocation.offset (Operand.location op) <= p
                      < DataLocation.offset (Operand.location op)
                        + size (TestOperand.data top))
       else false)
      || written lt tops' ops' p
  | _, _ => false
  end.

(** The indexes of a test model "must reference valid operand slots", and a
    model has an output. *)
Definition validIndexes (testModel : TestModel.t) : Prop :=
  Forall (fun i => 0 <= i < Z.of_nat (length (TestModel.operands testModel)))
         (TestModel.inputIndexes testModel)
  /\ Forall (fun i => 0 <= i < Z.of_nat (length (TestModel.operands testModel)))
            (TestModel.outputIndexes testModel)
  /\ TestModel.outputIndexes testModel <> [].

(** The events that the part of the evaluator up to the end of the execution
    (lines 239-308) can log. *)
Definition requestEvent (e : Event) : bool :=
  match e with
  | Called createRequest_ | Called execute_1_3_ | Called executeSynchronously_1_3_
  | Called CreateBurst_ | Called compute_
  | FatalFailure LengthGreaterThanOne | FatalFailure LaunchIsOk
  | NonFatalFailure LaunchStatusNone | FatalFailure SyncReturnIsOk
  | FatalFailure BurstControllerNotNull => true
  | _ => false
  end.

(** The events that the checks on an execution (lines 325-367) can log. *)
Definition checkEvent (e : Event) : bool :=
  match e with
  | NonFatalFailure TimeOnDeviceUnknown | NonFatalFailure TimeInDriverUnknown
  | NonFatalFailure TimeOnDeviceLeInDriver
  | FatalFailure StatusNone | FatalFailure ShapesEmptyOrMatchOutputs
  | FatalFailure ShapesMatchOutputs | FatalFailure StatusOutputInsufficientSize
  | FatalFailure Output0NotSufficient
  | NonFatalFailure (OutputSufficient _) | NonFatalFailure (OutputDimensions _)
  | Called getOutputBuffers_ | Called checkResults_ => true
  | _ => false
  end.

(** The failures of the three timing assertions. *)
Definition timingEvent (e : Event) : bool :=
  match e with
  | NonFatalFailure TimeOnDeviceUnknown
  | NonFatalFailure TimeInDriverUnknown
  | NonFatalFailure TimeOnDeviceLeInDriver => true
  | _ => false
  end.

(** The failures logged by the timing check (lines 325-332). *)
Definition timingFailures (testConfig : TestConfig.t) (timing : Timing.t) : list Event :=
  match TestConfig.measureTiming testConfig with
  | NO =>
      (if decide (Timing.timeOnDevice timing = UINT64_MAX) then []
       else [NonFatalFailure TimeOnDeviceUnknown])
      ++ (if decide (Timing.timeInDriver timing = UINT64_MAX) then []
          else [NonFatalFailure TimeInDriverUnknown])
  | YES =>
      if decide (Timing.timeOnDevice timing <> UINT64_MAX
                 /\ Timing.timeInDriver timing <> UINT64_MAX
                 /\ ~ Timing.timeOnDevice timing <= Timing.timeInDriver timing)
      then [NonFatalFailure TimeOnDeviceLeInDriver] else []
  end.

(** [request] with the byte length of output [i], which is [output], set to
    [length]. *)
Definition withOutputLength (request : Request.t) (i : Z) (output : RequestArgument.t)
    (length : Z) : Request.t :=
  Request.mk (Request.inputs request)
    (<[Z.to_nat i := setLength output length]> (Request.outputs request))
    (Request.pools request).

(** The configurations of [EvaluatePreparedCoupledModels], in loop order. *)
Definition coupledConfigs : list TestConfig.t :=
  outputType ← [FULLY_SPECIFIED];
  measureTiming ← [NO; YES];
  executor ← [ASYNC; SYNC; BURST];
  [TestConfig.mk executor measureTiming outputType false].

(** What the two preparations of a coupled run log, in order. *)
Definition preparations {IDevice : Type}
    (createPreparedModel : IDevice -> Model.t -> bool -> list Event * option IPreparedModel.t)
    (device : IDevice) (model coupledModel : Model.t) : list Event :=
  Called createPreparedModel_ :: (createPreparedModel device model false).1
  ++ Called createPreparedModel_ :: (createPreparedModel device coupledModel false).1.

(** [logs P m]: every event logged by a run of [m] satisfies [P]. *)
Definition logs {S A} (P : Event -> Prop) (m : Body S A) : Prop :=
  forall s l s' r, m s = Ok (l, s', r) -> Forall P l.

(** [keeps m]: a run of [m] leaves the state as it found it. *)
Definition keeps {S A} (m : Body S A) : Prop :=
  forall s l s' r, m s = Ok (l, s', r) -> s' = s.

(** [defined m]: [m] runs to an end from every state. *)
Definition defined {S A} (m : Body S A) : Prop :=
  forall s, exists l s' r, m s = Ok (l, s', r).

(** *** Notions for the translated model *)

(** What a reader of the location [loc] finds in the buffer [buf]: [length]
    bytes from [offset] on. *)
Definition readLocation (loc : DataLocation.t) (buf : list byte) : list byte :=
  take (Z.to_nat (DataLocation.length loc)) (drop (Z.to_nat (DataLocation.offset loc)) buf).

(** The wire operand [op] carries the test operand [top]: every field that
    the translator copies is the same, the channel quantisation is there
    exactly for the per-channel type, and an operand that is no constant has
    the empty location. *)
Definition carries (top : TestOperand.t) (op : Operand.t) : Prop :=
  Operand.type op = TestOperand.type top
  /\ Operand.dimensions op = TestOperand.dimensions top
  /\ Operand.numberOfConsumers op = TestOperand.numberOfConsumers top
  /\ Operand.scale op = TestOperand.scale top
  /\ Operand.zeroPoint op = TestOperand.zeroPoint top
  /\ Operand.lifetime op = TestOperand.lifetime top
  /\ Operand.extraParams op
     = (if decide (TestOperand.type top = TENSOR_QUANT8_SYMM_PER_CHANNEL)
        then channelQuant (TestOperand.channelQuant top) else none)
  /\ DataLocation.poolIndex (Operand.location op) = 0
  /\ (isConstant (TestOperand.lifetime top) = false ->
      Operand.location op = DataLocation.zero).

(** The same for an operation. *)
Definition carriesOperation (top : TestOperation.t) (op : Operation.t) : Prop :=
  Operation.type op = TestOperation.type top
  /\ Operation.inputs op = TestOperation.inputs top
  /\ Operation.outputs op = TestOperation.outputs top.

(** [op] with every dimension set to 0, that is, unspecified. *)
Definition unspecified (op : Operand.t) : Operand.t :=
  Operand.mk (Operand.type op) (map (fun _ => 0) (Operand.dimensions op))
    (Operand.numberOfConsumers op) (Operand.scale op) (Operand.zeroPoint op)
    (Operand.lifetime op) (Operand.location op) (Operand.extraParams op).

(** The operand found at index [k] once the operands at [indexes] have been
    made unspecified. *)
Definition unspecifiedAt (indexes : list Z) (k : nat) (op : Operand.t) : Operand.t :=
  if decide (Z.of_nat k ∈ indexes) then unspecified op else op.

(** Every index of [indexes] is one of the [n] first. *)
Definition inRange (n : nat) (indexes : list Z) : Prop :=
  Forall (fun i => 0 <= i < Z.of_nat n) indexes.

(** Every output operand of [model] has all its dimensions unspecified. *)
Definition outputsUnspecified (model : Model.t) : Prop :=
  Forall (fun i => forall op, at_ (Model.operands model) i = Ok op ->
                     Forall (fun d => d = 0) (Operand.dimensions op))
         (Model.outputIndexes model).

(** Two test operands that differ at most by their data, and by it only when
    they are no constants. *)
Definition sameConstants (top1 top2 : TestOperand.t) : Prop :=
  TestOperand.type top1 = TestOperand.type top2
  /\ TestOperand.dimensions top1 = TestOperand.dimensions top2
  /\ TestOperand.numberOfConsumers top1 = TestOperand.numberOfConsumers top2
  /\ TestOperand.scale top1 = TestOperand.scale top2
  /\ TestOperand.zeroPoint top1 = TestOperand.zeroPoint top2
  /\ TestOperand.lifetime top1 = TestOperand.lifetime top2
  /\ TestOperand.channelQuant top1 = TestOperand.channelQuant top2
  /\ (isConstant (TestOperand.lifetime top1) = true ->
      TestOperand.data top1 = TestOperand.data top2).

(** The model that [Execute] hands to the device (lines 437-440). *)
Definition deviceModel (kAlignment : Z) (allocateSharedMemory : Z -> hidl_memory)
    (testModel : TestModel.t) (testKind : TestKind) : Outcome Model.t :=
  let* model := createModel kAlignment allocateSharedMemory testModel in
  if decide (testKind = DYNAMIC_SHAPE) then makeOutputDimensionsUnspecified model
  else Ok model.

(** *** Notions for the evaluation *)

(** The condition of lines 334-347 for the policies FULLY_SPECIFIED and
    UNSPECIFIED: the status is NONE and there are as many shapes as outputs
    or, under FULLY_SPECIFIED only, no shape at all. *)
Definition passesPolicy (testModel : TestModel.t) (testConfig : TestConfig.t)
    (execution : Execution.t) : Prop :=
  Execution.status execution = NONE
  /\ (length (Execution.outputShapes execution) = length (TestModel.outputIndexes testModel)
      \/ (TestConfig.outputType testConfig = FULLY_SPECIFIED
          /\ Execution.outputShapes execution = [])).

(** The site of the assertion that fails when the policy is not met. *)
Definition policySite (testConfig : TestConfig.t) (execution : Execution.t) : Site :=
  if decide (Execution.status execution = NONE) then
    match TestConfig.outputType testConfig with
    | FULLY_SPECIFIED => ShapesEmptyOrMatchOutputs
    | _ => ShapesMatchOutputs
    end
  else StatusNone.

(** What a skip logs (lines 318-323), when it is reported. *)
Definition skipReport (testConfig : TestConfig.t) : list Event :=
  if TestConfig.reportSkipping testConfig
  then [LogInfo CannotExecute; Cout CannotExecute; Skip] else [].

(** The failures of the two assertions on output shapes (lines 357, 360). *)
Definition shapeEvent (e : Event) : bool :=
  match e with
  | NonFatalFailure (OutputSufficient _) | NonFatalFailure (OutputDimensions _) => true
  | _ => false
  end.

(** The events after which a function of the harness has returned: a skip,
    and a fatal failure of one of the evaluator's own assertions (that of
    [makeOutputInsufficientSize], line 197, returns from the helper only). *)
Definition ending (e : Event) : bool :=
  match e with
  | FatalFailure LengthGreaterThanOne => false
  | FatalFailure _ | Skip => true
  | _ => false
  end.

(** [stops m]: in a run of [m] nothing is logged after an ending event, and
    the run is then a return. *)
Definition stops {S A} (m : Body S A) : Prop :=
  forall s l s' r, m s = Ok (l, s', r) ->
    forall l1 e l2, l = l1 ++ e :: l2 -> ending e = true -> l2 = [] /\ r = Returned.

(** Two outcomes of a body that differ at most by the final state. *)
Definition sameButState {S A} (o1 o2 : Outcome (list Event * S * Flow A)) : Prop :=
  match o1, o2 with
  | Ok (l1, _, r1), Ok (l2, _, r2) => l1 = l2 /\ r1 = r2
  | Aborted, Aborted | Undefined, Undefined => True
  | _, _ => False
  end.

(** [oblivious m]: what [m] logs and how it ends do not depend on the state
    it is run from. *)
Definition oblivious {S A} (m : Body S A) : Prop :=
  forall s s', sameButState (m s) (m s').

(** The configurations of [EvaluatePreparedModel(..., TestKind)], in loop
    order: the output type in the outer loop, the executor in the inner one. *)
Definition matrixConfigs (testKind : TestKind) : list TestConfig.t :=
  match testKind with
  | GENERAL =>
      outputType ← [FULLY_SPECIFIED];
      measureTiming ← [NO; YES];
      executor ← [ASYNC; SYNC; BURST];
      [TestConfig.mk3 executor measureTiming outputType]
  | DYNAMIC_SHAPE =>
      outputType ← [UNSPECIFIED; INSUFFICIENT];
      measureTiming ← [NO; YES];
      executor ← [ASYNC; SYNC; BURST];
      [TestConfig.mk3 executor measureTiming outputType]
  | QUANTIZATION_COUPLING => []
  end.

(** ** Sample inputs *)

(** An operand of type TENSOR_FLOAT32 holding [d]. *)
Definition sampleOperand (lt : TestOperandLifeTime) (dims : list Z) (d : TestBuffer)
    : TestOperand.t :=
  TestOperand.mk 3 dims 1 0 0 lt (SymmPerChannelQuantParams.mk [] 0) d.

(** Two constants by reference (3 and 5 bytes) and two by copy (1 and 2
    bytes) around an input. *)
Definition mixedConstants : TestModel.t :=
  TestModel.mk
    [sampleOperand CONSTANT_REFERENCE [3] [x01; x02; x03];
     sampleOperand CONSTANT_COPY [1] [x04];
     sampleOperand SUBGRAPH_INPUT [2] [];
     sampleOperand CONSTANT_REFERENCE [5] [x05; x06; x07; x08; x09];
     sampleOperand CONSTANT_COPY [2] [x0a; x0b]]
    [] [2] [] false false.

(** An allocator of zero-filled memory. *)
Definition zeroFilled (n : Z) : hidl_memory := replicate (Z.to_nat n) x00.

(** A pool of 12 bytes whose padding is zero and whose other bytes are
    [0xff], whatever the size asked. *)
Definition scribbled (n : Z) : hidl_memory :=
  [xff; xff; xff; x00; xff; xff; xff; xff; xff; x00; x00; x00].

(** A buffer of [2^32 - 64] bytes, and a model whose constants by reference
    take more than [2^32] bytes together. *)
Definition hugeBuffer : TestBuffer := replicate (Z.to_nat 4294967232) x00.

Definition hugeModel : TestModel.t :=
  TestModel.mk
    [sampleOperand CONSTANT_REFERENCE [] hugeBuffer;
     sampleOperand CONSTANT_REFERENCE [] (replicate 128 x00);
     sampleOperand CONSTANT_REFERENCE [] (replicate 64 x00)]
    [] [] [] false false.

(** On [hugeModel], translated with zero-filled memory: the third operand
    has its range, [64, 128), inside the range of the first. *)
Definition offsetsWrap (kAlignment : Z) : Prop :=
  exists model opi opj,
    createModel kAlignment zeroFilled hugeModel = Ok model
    /\ Model.operands model !! 0%nat = Some opi
    /\ Model.operands model !! 2%nat = Some opj
    /\ Operand.lifetime opi = CONSTANT_REFERENCE
    /\ Operand.lifetime opj = CONSTANT_REFERENCE
    /\ Operand.location opi = DataLocation.mk 0 0 4294967232
    /\ Operand.location opj = DataLocation.mk 0 64 64.

(** A model with one input and one output, each a vector of four floats. *)
Definition vectorModel : TestModel.t :=
  TestModel.mk
    [sampleOperand SUBGRAPH_INPUT [4] (replicate 16 x01);
     sampleOperand SUBGRAPH_OUTPUT [4] (replicate 16 x02)]
    [TestOperation.mk 0 [0] [1]] [0] [1] false false.




(** A request with one output of [n] bytes. *)
Definition sampleRequest (n : Z) : Request.t :=
  Request.mk [] [RequestArgument.mk false (DataLocation.mk 1 0 n) []] [].

(** [nn::convertResultCodeToErrorStatus] on the result codes of the NNAPI. *)
Definition sampleConvert (n : Z) : ErrorStatus :=
  if decide (n = 0) then NONE
  else if decide (n = 8) then OUTPUT_INSUFFICIENT_SIZE
  else if decide (n = 9) then DEVICE_UNAVAILABLE
  else if decide (n = 3 \/ n = 4) then INVALID_ARGUMENT
  else GENERAL_FAILURE.

(** A result code that [sampleConvert] maps to [status]. *)
Definition resultCode (status : ErrorStatus) : Z :=
  match status with
  | NONE => 0
  | OUTPUT_INSUFFICIENT_SIZE => 8
  | DEVICE_UNAVAILABLE => 9
  | INVALID_ARGUMENT => 4
  | GENERAL_FAILURE => 5
  end.

(** A prepared model that hands back [execution] through every protocol. *)
Definition answers (execution : Execution.t) : IPreparedModel.t :=
  IPreparedModel.mk
    (fun _ _ => AsyncExecution.mk (ReturnOk NONE) execution)
    (fun _ _ => SyncAnswered execution)
    (Some (fun _ _ =>
       BurstExecution.mk (resultCode (Execution.status execution))
         (Execution.outputShapes execution) (Execution.timing execution))).

(** Timing values and executions. *)
Definition unknownTiming : Timing.t := Timing.mk UINT64_MAX UINT64_MAX.

Definition tooSmall : Execution.t :=
  Execution.mk OUTPUT_INSUFFICIENT_SIZE [OutputShape.mk [4] false] unknownTiming.
Definition unsupported : Execution.t := Execution.mk GENERAL_FAILURE [] unknownTiming.
Definition unavailable : Execution.t := Execution.mk DEVICE_UNAVAILABLE [] unknownTiming.
Definition succeeded : Execution.t :=
  Execution.mk NONE [OutputShape.mk [4] true] (Timing.mk 7 5).

(** A prepared model whose asynchronous launch is answered with
    GENERAL_FAILURE, the callback being notified of the same status. *)
Definition launchRefused : IPreparedModel.t :=
  IPreparedModel.mk
    (fun _ _ => AsyncExecution.mk (ReturnOk GENERAL_FAILURE) unsupported)
    (fun _ _ => SyncAnswered unsupported)
    None.

(** A model with operands of type TENSOR_QUANT8_ASYMM (code 5), a stand-in
    for [hasQuant8CoupledOperands] and for [convertQuant8AsymmOperandsToSigned]
    (which gives them the code 14 of TENSOR_QUANT8_ASYMM_SIGNED), a device
    that prepares nothing and one that prepares only models without operands
    of code 5. *)
Definition quantOperand (lt : TestOperandLifeTime) (d : TestBuffer) : TestOperand.t :=
  TestOperand.mk 5 [4] 1 0 128 lt (SymmPerChannelQuantParams.mk [] 0) d.

Definition quantModel : TestModel.t :=
  TestModel.mk
    [quantOperand SUBGRAPH_INPUT [x01; x02; x03; x04];
     quantOperand SUBGRAPH_OUTPUT [x05; x06; x07; x08]]
    [TestOperation.mk 0 [0] [1]] [0] [1] false false.

Definition hasQuant8 (testModel : TestModel.t) : bool :=
  bool_decide (Exists (fun op => TestOperand.type op = 5) (TestModel.operands testModel)).

Definition toSigned (testModel : TestModel.t) : TestModel.t :=
  TestModel.mk
    (map (fun op =>
            if decide (TestOperand.type op = 5) then
              TestOperand.mk 14 (TestOperand.dimensions op)
                (TestOperand.numberOfConsumers op) (TestOperand.scale op)
                (TestOperand.zeroPoint op - 128) (TestOperand.lifetime op)
                (TestOperand.channelQuant op) (TestOperand.data op)
            else op)
         (TestModel.operands testModel))
    (TestModel.operations testModel) (TestModel.inputIndexes testModel)
    (TestModel.outputIndexes testModel) (TestModel.isRelaxed testModel)
    (TestModel.expectFailure testModel).

Definition preparesNothing (device : unit) (model : Model.t) (reportSkipping : bool)
    : list Event * option IPreparedModel.t :=
  ([], None).

Definition preparesSignedOnly (device : unit) (model : Model.t) (reportSkipping : bool)
    : list Event * option IPreparedModel.t :=
  ([], if decide (Exists (fun op => Operand.type op = 5) (Model.operands model))
       then None else Some (answers succeeded)).

(** An allocator whose allocations all fail, and one that hands out 16
    bytes more than asked. *)
Definition failing (n : Z) : hidl_memory := [].

Definition generous (n : Z) : hidl_memory := replicate (Z.to_nat n + 16) xff.

(** A wire model with an input of dimensions [2; 3] and an output of
    dimensions [4; 5], and the same with the output unspecified. *)
Definition wireOperand (lt : TestOperandLifeTime) (dims : list Z) : Operand.t :=
  Operand.mk 3 dims 1 0 0 lt DataLocation.zero none.

Definition wireModel (outputDimensions : list Z) : Model.t :=
  Model.mk [wireOperand SUBGRAPH_INPUT [2; 3]; wireOperand SUBGRAPH_OUTPUT outputDimensions]
    [Operation.mk 0 [0] [1]] [0] [1] [] [] false.


(** An execution that succeeds with an output shape that is neither
    sufficient nor of the declared dimensions. *)
Definition misshapen : Execution.t :=
  Execution.mk NONE [OutputShape.mk [2; 2] false] unknownTiming.

(** A model that declares no output. *)
Definition noOutputModel : TestModel.t :=
  TestModel.mk [sampleOperand SUBGRAPH_INPUT [1] [x01]] [] [0] [] false false.

(** [vectorModel] with other bytes in its input and in its expected output. *)
Definition otherVectorModel : TestModel.t :=
  TestModel.mk
    [sampleOperand SUBGRAPH_INPUT [4] (replicate 16 x03);
     sampleOperand SUBGRAPH_OUTPUT [4] (replicate 8 x04)]
    [TestOperation.mk 0 [0] [1]] [0] [1] false false.

(** A device that prepares every model, and one that prepares only the
    models with a specified dimension in an output operand. *)
Definition preparesAll (device : unit) (model : Model.t) (reportSkipping : bool)
    : list Event * option IPreparedModel.t :=
  ([], Some (answers succeeded)).

Definition hasSpecifiedOutput (model : Model.t) : bool :=
  existsb (fun i => match at_ (Model.operands model) i with
                    | Ok op => existsb (fun d => negb (d =? 0)) (Operand.dimensions op)
                    | _ => false
                    end)
          (Model.outputIndexes model).

Definition preparesSpecifiedOnly (device : unit) (model : Model.t) (reportSkipping : bool)
    : list Event * option IPreparedModel.t :=
  ([], if hasSpecifiedOutput model then Some (answers succeeded) else None).

(** ** Properties of the translator *)

Section TranslatorProperties.

Variable kAlignment : Z.
Hypothesis kAlignment_pos : 0 < kAlignment.

Lemma size_nonneg (b : TestBuffer) : 0 <= size b.
Proof. unfold size. lia. Qed.

Lemma alignedSize_ge (b : TestBuffer) : size b <= alignedSize kAlignment b.
Proof using kAlignment_pos.
  unfold alignedSize.
  pose proof (Z.mod_pos_bound (size b + kAlignment - 1) kAlignment kAlignment_pos) as Hr.
  pose proof (Z.div_mod (size b + kAlignment - 1) kAlignment) as Hd.
  nia.
Qed.

Lemma alignedSize_nonneg (b : TestBuffer) : 0 <= alignedSize kAlignment b.
Proof using kAlignment_pos.
  pose proof (alignedSize_ge b). pose proof (size_nonneg b). lia.
Qed.

Lemma alignedSize_divide (b : TestBuffer) : (kAlignment | alignedSize kAlignment b).
Proof. unfold alignedSize. apply Z.divide_factor_r. Qed.

Lemma alignedTotal_nonneg lt ops : 0 <= alignedTotal kAlignment lt ops.
Proof using kAlignment_pos.
  induction ops as [|op rest IH]; simpl; [lia|].
  case_decide; [pose proof (alignedSize_nonneg (TestOperand.data op))|]; lia.
Qed.

Lemma alignedTotal_divide lt ops : (kAlignment | alignedTotal kAlignment lt ops).
Proof.
  induction ops as [|op rest IH]; simpl.
  - apply Z.divide_0_r.
  - apply Z.divide_add_r; [|exact IH].
    case_decide; [apply alignedSize_divide | apply Z.divide_0_r].
Qed.

Lemma alignedTotal_app lt ops1 ops2 :
  alignedTotal kAlignment lt (ops1 ++ ops2)
  = alignedTotal kAlignment lt ops1 + alignedTotal kAlignment lt ops2.
Proof. induction ops1 as [|op rest IH]; simpl; [reflexivity | rewrite IH; lia]. Qed.

Lemma alignedTotal_take_le lt ops i :
  alignedTotal kAlignment lt (take i ops) <= alignedTotal kAlignment lt ops.
Proof using kAlignment_pos.
  rewrite <- (take_drop i ops) at 2. rewrite alignedTotal_app.
  pose proof (alignedTotal_nonneg lt (drop i ops)). lia.
Qed.

(** An operand of lifetime [lt] at index [i] ends before the total reached
    at any later index. *)
Lemma alignedTotal_take_next lt ops i j top :
  ops !! i = Some top -> TestOperand.lifetime top = lt -> (i < j)%nat ->
  alignedTotal kAlignment lt (take i ops) + alignedSize kAlignment (TestOperand.data top)
  <= alignedTotal kAlignment lt (take j ops).
Proof using kAlignment_pos.
  intros Hi Hlt Hij.
  assert (take (S i) ops = take i ops ++ [top]) as HS by (by apply take_S_r).
  assert (take (S i) ops = take (S i) (take j ops)) as Ht.
  { rewrite take_take. f_equal. lia. }
  pose proof (alignedTotal_take_le lt (take j ops) (S i)) as Hle.
  rewrite <- Ht, HS, alignedTotal_app in Hle. simpl in Hle.
  rewrite decide_True in Hle by exact Hlt. lia.
Qed.

Lemma uint32_small z : 0 <= z <= UINT32_MAX -> uint32 z = z.
Proof. unfold uint32, UINT32_MAX. intros ?. apply Z.mod_small. lia. Qed.

Lemma uint32_le z : 0 <= z -> 0 <= uint32 z <= z.
Proof.
  unfold uint32. intros ?. split; [apply Z.mod_pos_bound; lia|].
  apply Z.mod_le; lia.
Qed.

Lemma size_t_small z : 0 <= z < 2 ^ 64 -> size_t z = z.
Proof. unfold size_t. intros ?. apply Z.mod_small. lia. Qed.

(** The first loop, operand by operand, as long as the totals stay below
    [2 ^ 64]. *)
Lemma createOperands_lookup ops : forall c i top,
  0 <= constCopySize c -> 0 <= constRefSize c ->
  constCopySize c + alignedTotal kAlignment CONSTANT_COPY ops < 2 ^ 64 ->
  constRefSize c + alignedTotal kAlignment CONSTANT_REFERENCE ops < 2 ^ 64 ->
  ops !! i = Some top ->
  (createOperands kAlignment ops c).1 !! i
  = Some (translateOperand top (locationAt kAlignment c ops i top)).
Proof using kAlignment_pos.
  induction ops as [|op rest IH]; intros c i top Hc Hr Hcb Hrb Hi; [done|].
  simpl in Hcb, Hrb. simpl.
  destruct (locateOperand kAlignment op c) as [loc c1] eqn:Hloc.
  destruct (createOperands kAlignment rest c1) as [out c2] eqn:Hrest.
  pose proof (alignedTotal_nonneg CONSTANT_COPY rest) as Hn1.
  pose proof (alignedTotal_nonneg CONSTANT_REFERENCE rest) as Hn2.
  pose proof (alignedSize_nonneg (TestOperand.data op)) as Hn3.
  destruct i as [|i]; simpl in *.
  - inversion Hi; subst op. f_equal. f_equal.
    unfold locateOperand in Hloc. unfold locationAt. simpl.
    rewrite !Z.add_0_r.
    destruct (TestOperand.lifetime top); inversion Hloc; reflexivity.
  - specialize (IH c1 i top). rewrite Hrest in IH. simpl in IH.
    unfold locateOperand in Hloc. unfold locationAt in *. simpl.
    destruct (TestOperand.lifetime op) eqn:Hlt; inversion Hloc; subst loc c1; clear Hloc;
      simpl in *;
      repeat (rewrite decide_True in * by done);
      repeat (rewrite decide_False in * by done);
      rewrite ?size_t_small in IH by lia;
      rewrite IH by (assumption || lia);
      destruct (TestOperand.lifetime top); f_equal; f_equal; f_equal; f_equal; lia.
Qed.

Lemma createOperands_length ops : forall c,
  length (createOperands kAlignment ops c).1 = length ops.
Proof.
  induction ops as [|op rest IH]; intros c; simpl; [done|].
  destruct (locateOperand kAlignment op c) as [loc c1].
  specialize (IH c1). destruct (createOperands kAlignment rest c1). simpl in *. lia.
Qed.

Lemma createOperands_cursors ops : forall c,
  0 <= constCopySize c -> 0 <= constRefSize c ->
  constCopySize c + alignedTotal kAlignment CONSTANT_COPY ops < 2 ^ 64 ->
  constRefSize c + alignedTotal kAlignment CONSTANT_REFERENCE ops < 2 ^ 64 ->
  (createOperands kAlignment ops c).2
  = mkCursors (constCopySize c + alignedTotal kAlignment CONSTANT_COPY ops)
              (constRefSize c + alignedTotal kAlignment CONSTANT_REFERENCE ops).
Proof using kAlignment_pos.
  induction ops as [|op rest IH]; intros c Hc Hr Hcb Hrb; simpl in *.
  - destruct c; simpl; f_equal; lia.
  - destruct (locateOperand kAlignment op c) as [loc c1] eqn:Hloc.
    specialize (IH c1).
    destruct (createOperands kAlignment rest c1) as [out c2] eqn:Hrest. simpl in *.
    pose proof (alignedTotal_nonneg CONSTANT_COPY rest) as Hn1.
    pose proof (alignedTotal_nonneg CONSTANT_REFERENCE rest) as Hn2.
    pose proof (alignedSize_nonneg (TestOperand.data op)) as Hn3.
    unfold locateOperand in Hloc.
    destruct (TestOperand.lifetime op) eqn:Hlt; inversion Hloc; subst loc c1; clear Hloc;
      simpl in *;
      repeat (rewrite decide_True in * by done);
      repeat (rewrite decide_False in * by done);
      rewrite ?size_t_small in IH by lia;
      rewrite IH by lia; f_equal; lia.
Qed.


Lemma createModel_operands alloc tm m :
  createModel kAlignment alloc tm = Ok m ->
  Model.operands m
  = (createOperands kAlignment (TestModel.operands tm) (mkCursors 0 0)).1.
Proof.
  unfold createModel.
  destruct (createOperands kAlignment (TestModel.operands tm) (mkCursors 0 0)) as [out c].
  destruct (copyConstants CONSTANT_COPY _ _ _); simpl; try discriminate.
  destruct (decide (constRefSize c > 0)); simpl.
  - destruct (decide (size (alloc (constRefSize c)) = 0)); simpl; try discriminate.
    destruct (copyConstants CONSTANT_REFERENCE _ _ _); simpl; try discriminate.
    by intros [= <-].
  - by intros [= <-].
Qed.

(** What the model says of the operand at index [i], when the constant data
    of each storage class fits 32-bit offsets. *)
Lemma createModel_location alloc tm m i op :
  alignedTotal kAlignment CONSTANT_COPY (TestModel.operands tm) <= UINT32_MAX ->
  alignedTotal kAlignment CONSTANT_REFERENCE (TestModel.operands tm) <= UINT32_MAX ->
  createModel kAlignment alloc tm = Ok m ->
  Model.operands m !! i = Some op ->
  exists top,
    TestModel.operands tm !! i = Some top
    /\ Operand.lifetime op = TestOperand.lifetime top
    /\ (isConstant (Operand.lifetime op) = true ->
        DataLocation.offset (Operand.location op)
        = alignedTotal kAlignment (Operand.lifetime op) (take i (TestModel.operands tm))
        /\ DataLocation.length (Operand.location op) = size (TestOperand.data top)).
Proof using kAlignment_pos.
  intros Hc Hr Hm Hop.
  rewrite (createModel_operands _ _ _ Hm) in Hop.
  assert (i < length (TestModel.operands tm))%nat as Hlt.
  { rewrite <- (createOperands_length (TestModel.operands tm) (mkCursors 0 0)).
    by eapply lookup_lt_Some. }
  destruct (lookup_lt_is_Some_2 _ _ Hlt) as [top Htop].
  exists top. split; [exact Htop|].
  assert (UINT32_MAX < 2 ^ 64) as Hmax by (unfold UINT32_MAX; lia).
  rewrite (createOperands_lookup _ (mkCursors 0 0) i top) in Hop
    by (simpl; first [lia | exact Htop]).
  injection Hop as <-. simpl. split; [reflexivity|].
  pose proof (alignedSize_ge (TestOperand.data top)).
  pose proof (size_nonneg (TestOperand.data top)).
  unfold locationAt.
  destruct (TestOperand.lifetime top) eqn:Hl; simpl; try discriminate; intros _.
  - pose proof (alignedTotal_nonneg CONSTANT_COPY (take i (TestModel.operands tm))).
    pose proof (alignedTotal_take_next _ _ i (S i) top Htop Hl ltac:(lia)).
    pose proof (alignedTotal_take_le CONSTANT_COPY (TestModel.operands tm) (S i)).
    rewrite !uint32_small by lia. split; reflexivity.
  - pose proof (alignedTotal_nonneg CONSTANT_REFERENCE (take i (TestModel.operands tm))).
    pose proof (alignedTotal_take_next _ _ i (S i) top Htop Hl ltac:(lia)).
    pose proof (alignedTotal_take_le CONSTANT_REFERENCE (TestModel.operands tm) (S i)).
    rewrite !uint32_small by lia. split; reflexivity.
Qed.

(** Two constant operands of one storage class, in index order: the first
    ends where the second starts, or before. *)
Lemma createModel_ordered alloc tm m i j opi opj :
  alignedTotal kAlignment CONSTANT_COPY (TestModel.operands tm) <= UINT32_MAX ->
  alignedTotal kAlignment CONSTANT_REFERENCE (TestModel.operands tm) <= UINT32_MAX ->
  createModel kAlignment alloc tm = Ok m ->
  (i < j)%nat ->
  Model.operands m !! i = Some opi ->
  Model.operands m !! j = Some opj ->
  isConstant (Operand.lifetime opi) = true ->
  Operand.lifetime opi = Operand.lifetime opj ->
  DataLocation.offset (Operand.location opi) + DataLocation.length (Operand.location opi)
  <= DataLocation.offset (Operand.location opj).
Proof using kAlignment_pos.
  intros Hc Hr Hm Hij Hi Hj Hconst Hsame.
  destruct (createModel_location _ _ _ _ _ Hc Hr Hm Hi) as (topi & Hti & Hli & Hloci).
  destruct (createModel_location _ _ _ _ _ Hc Hr Hm Hj) as (topj & Htj & Hlj & Hlocj).
  destruct (Hloci Hconst) as [-> ->].
  rewrite Hsame in Hconst. destruct (Hlocj Hconst) as [-> _].
  rewrite <- Hsame.
  pose proof (alignedTotal_take_next (Operand.lifetime opi) _ i j topi Hti
                (eq_sym Hli) Hij).
  pose proof (alignedSize_ge (TestOperand.data topi)). lia.
Qed.

End TranslatorProperties.

(** *** Copies *)

Lemma std_copy_length src dst off d' :
  std_copy src dst off = Ok d' -> length d' = length dst.
Proof.
  unfold std_copy, size. case_decide; [|discriminate]. intros [= <-].
  rewrite !length_app, length_take, length_drop. lia.
Qed.

Lemma std_copy_lookup src dst off d' (p : nat) :
  std_copy src dst off = Ok d' ->
  d' !! p = if bool_decide (off <= Z.of_nat p < off + size src)
            then src !! (p - Z.to_nat off)%nat else dst !! p.
Proof.
  unfold std_copy, size. case_decide as Hin; [|discriminate]. intros [= <-].
  assert (length (take (Z.to_nat off) dst) = Z.to_nat off) as Htake
    by (rewrite length_take; lia).
  destruct (decide (p < Z.to_nat off)%nat) as [Hlo|Hlo].
  - rewrite bool_decide_eq_false_2 by lia.
    rewrite lookup_app_l by lia. apply lookup_take_lt. lia.
  - rewrite lookup_app_r by lia. rewrite Htake.
    destruct (decide (p - Z.to_nat off < length src)%nat) as [Hmid|Hmid].
    + rewrite bool_decide_eq_true_2 by lia. by rewrite lookup_app_l by lia.
    + rewrite bool_decide_eq_false_2 by lia.
      rewrite lookup_app_r by lia. rewrite lookup_drop. f_equal. lia.
Qed.

Lemma std_copy_same_length src dst1 dst2 off :
  length dst1 = length dst2 ->
  match std_copy src dst1 off, std_copy src dst2 off with
  | Ok _, Ok _ | Undefined, Undefined => True
  | _, _ => False
  end.
Proof.
  intros Hlen. unfold std_copy, size. rewrite Hlen.
  by case_decide.
Qed.

(** Two buffers of one size that agree outside the written ranges are made
    equal by the copies. *)
Lemma copyConstants_agree lt tops : forall ops b1 b2,
  length b1 = length b2 ->
  (forall p : nat, written lt tops ops (Z.of_nat p) = false -> b1 !! p = b2 !! p) ->
  copyConstants lt tops ops b1 = copyConstants lt tops ops b2.
Proof.
  induction tops as [|top tops IH]; intros ops b1 b2 Hlen Hout.
  - simpl. f_equal. apply list_eq. intros p. by apply Hout.
  - destruct ops as [|op ops].
    { simpl. f_equal. apply list_eq. intros p. by apply Hout. }
    simpl in *. case_decide as Hlt.
    + pose proof (std_copy_same_length (TestOperand.data top) b1 b2
                    (DataLocation.offset (Operand.location op)) Hlen) as Hsame.
      destruct (std_copy _ b1 _) as [b1'| |] eqn:H1;
        destruct (std_copy _ b2 _) as [b2'| |] eqn:H2; try done.
      simpl. apply IH.
      * rewrite (std_copy_length _ _ _ _ H1), (std_copy_length _ _ _ _ H2). exact Hlen.
      * intros p Hp.
        rewrite (std_copy_lookup _ _ _ _ p H1), (std_copy_lookup _ _ _ _ p H2).
        case_bool_decide as Hin; [reflexivity|].
        apply Hout. rewrite Hp. rewrite bool_decide_eq_false_2 by exact Hin. reflexivity.
    + apply IH; [exact Hlen|]. intros p Hp. apply Hout. by rewrite Hp.
Qed.

Lemma copyConstants_defined lt tops : forall ops b,
  (forall i top op, tops !! i = Some top -> ops !! i = Some op ->
     TestOperand.lifetime top = lt ->
     0 <= DataLocation.offset (Operand.location op)
     /\ DataLocation.offset (Operand.location op) + size (TestOperand.data top) <= size b) ->
  exists b', copyConstants lt tops ops b = Ok b' /\ length b' = length b.
Proof.
  induction tops as [|top tops IH]; intros ops b Hin; [by exists b|].
  destruct ops as [|op ops]; [by exists b|].
  simpl. case_decide as Hlt.
  - destruct (Hin 0%nat top op eq_refl eq_refl Hlt) as [H0 Hend].
    unfold std_copy at 1. rewrite decide_True by done. simpl.
    match goal with |- context [copyConstants _ _ _ ?b1] => set (b' := b1) end.
    assert (length b' = length b) as Hlen.
    { eapply std_copy_length. unfold std_copy. by rewrite decide_True by done. }
    destruct (IH ops b') as (b'' & Hb'' & Hlen'').
    + intros i top' op' Ht Ho Hl. unfold size in *. rewrite Hlen.
      exact (Hin (S i) top' op' Ht Ho Hl).
    + exists b''. split; [exact Hb''|congruence].
  - apply IH. intros i top' op' Ht Ho Hl. exact (Hin (S i) top' op' Ht Ho Hl).
Qed.

(** *** The translation yields a model *)

Lemma createOperands_in_bounds kAlignment lt tm i top op total :
  0 < kAlignment ->
  lt = CONSTANT_COPY \/ lt = CONSTANT_REFERENCE ->
  alignedTotal kAlignment CONSTANT_COPY (TestModel.operands tm) < 2 ^ 64 ->
  alignedTotal kAlignment CONSTANT_REFERENCE (TestModel.operands tm) < 2 ^ 64 ->
  alignedTotal kAlignment lt (TestModel.operands tm) <= total ->
  TestModel.operands tm !! i = Some top ->
  translatedOperands kAlignment tm !! i = Some op ->
  TestOperand.lifetime top = lt ->
  0 <= DataLocation.offset (Operand.location op)
  /\ DataLocation.offset (Operand.location op) + size (TestOperand.data top) <= total.
Proof.
  intros Hk Hclass Hc Hr Htotal Htop Hop Hlt. unfold translatedOperands in Hop.
  rewrite (createOperands_lookup kAlignment Hk _ (mkCursors 0 0) i top) in Hop
    by (simpl; first [lia | exact Htop]).
  injection Hop as <-. simpl.
  pose proof (alignedTotal_nonneg kAlignment Hk lt (take i (TestModel.operands tm))).
  pose proof (alignedTotal_take_next kAlignment Hk _ _ i (S i) top Htop Hlt ltac:(lia)).
  pose proof (alignedTotal_take_le kAlignment Hk lt (TestModel.operands tm) (S i)).
  pose proof (alignedSize_ge kAlignment Hk (TestOperand.data top)).
  unfold locationAt. destruct Hclass; subst lt; rewrite Hlt; simpl;
    match goal with |- context [uint32 ?z] => pose proof (uint32_le z ltac:(lia)) end;
    lia.
Qed.

Lemma createModel_defined kAlignment alloc tm :
  0 < kAlignment ->
  alignedTotal kAlignment CONSTANT_COPY (TestModel.operands tm) < 2 ^ 64 ->
  alignedTotal kAlignment CONSTANT_REFERENCE (TestModel.operands tm) < 2 ^ 64 ->
  size (alloc (requestedPoolSize kAlignment tm)) = requestedPoolSize kAlignment tm ->
  exists m, createModel kAlignment alloc tm = Ok m.
Proof.
  intros Hk Hc Hr Halloc.
  pose proof (createOperands_cursors kAlignment Hk (TestModel.operands tm) (mkCursors 0 0)
                ltac:(simpl; lia) ltac:(simpl; lia) ltac:(simpl; lia) ltac:(simpl; lia))
    as Hcur.
  simpl in Hcur.
  pose proof (alignedTotal_nonneg kAlignment Hk CONSTANT_COPY (TestModel.operands tm)).
  unfold createModel, requestedPoolSize, translatedOperands in *.
  pose proof (createOperands_in_bounds kAlignment CONSTANT_COPY tm) as Hbc.
  pose proof (createOperands_in_bounds kAlignment CONSTANT_REFERENCE tm) as Hbr.
  unfold translatedOperands in Hbc, Hbr.
  destruct (createOperands kAlignment (TestModel.operands tm) (mkCursors 0 0)) as [out c].
  simpl in *. subst c. simpl in *. rewrite !Z.add_0_l in *.
  destruct (copyConstants_defined CONSTANT_COPY (TestModel.operands tm) out
              (replicate (Z.to_nat (alignedTotal kAlignment CONSTANT_COPY
                 (TestModel.operands tm))) x00)) as (values & -> & _).
  { intros i top op Ht Ho Hl. unfold size at 2. rewrite length_replicate.
    rewrite Z2Nat.id by lia.
    eapply Hbc; eauto. lia. }
  simpl. case_decide as Hpos; simpl; [|eauto].
  rewrite decide_False by lia.
  destruct (copyConstants_defined CONSTANT_REFERENCE (TestModel.operands tm) out
              (alloc (alignedTotal kAlignment CONSTANT_REFERENCE
                 (TestModel.operands tm)))) as (mapped & -> & _).
  { intros i top op Ht Ho Hl. rewrite Halloc. eapply Hbr; eauto. lia. }
  simpl. eauto.
Qed.

(** *** Determinism *)

(** C4.  Model translation is deterministic: two translations of the same
    test model yield the same outcome, hence the same wire model -- the same
    operand locations, the same inline [operandValues] bytes and the same
    shared-pool bytes -- whatever memory the allocator hands out the second
    time, as long as the two fresh memories have one size and hold the same
    bytes outside the ranges the translator writes (for instance, both are
    zero-filled). *)
Theorem createModel_deterministic (kAlignment : Z) (alloc1 alloc2 : Z -> hidl_memory)
    (testModel : TestModel.t) :
  length (alloc1 (requestedPoolSize kAlignment testModel))
  = length (alloc2 (requestedPoolSize kAlignment testModel)) ->
  (forall p : nat,
     written CONSTANT_REFERENCE (TestModel.operands testModel)
       (translatedOperands kAlignment testModel) (Z.of_nat p) = false ->
     alloc1 (requestedPoolSize kAlignment testModel) !! p
     = alloc2 (requestedPoolSize kAlignment testModel) !! p) ->
  createModel kAlignment alloc1 testModel = createModel kAlignment alloc2 testModel.
Proof.
  unfold requestedPoolSize, translatedOperands, createModel.
  destruct (createOperands kAlignment (TestModel.operands testModel) (mkCursors 0 0))
    as [out c].
  simpl. intros Hlen Hpad.
  destruct (copyConstants CONSTANT_COPY _ _ _) as [values| |]; simpl; try reflexivity.
  case_decide; [|reflexivity].
  unfold size. rewrite Hlen.
  case_decide; [reflexivity|].
  by rewrite (copyConstants_agree CONSTANT_REFERENCE _ out _ _ Hlen Hpad).
Qed.

Lemma createModel_deterministic_witness :
  (zeroFilled 12 = scribbled 12 -> False)
  /\ createModel 4 zeroFilled mixedConstants = createModel 4 scribbled mixedConstants.
Proof.
  split; [vm_compute; discriminate|].
  apply createModel_deterministic.
  - vm_compute. reflexivity.
  - intros p Hp.
    do 12 (destruct p as [|p];
           [vm_compute in Hp |- *; first [reflexivity | discriminate]|]).
    reflexivity.
Defined.

(** *** Alignment and disjointness *)

(** C5 (as amended).  In every translated model whose constant data, each
    operand's size rounded up to the alignment boundary, totals at most
    [UINT32_MAX] bytes in each storage class: the offset of a constant operand
    is the sum of the rounded-up sizes of the earlier operands of its class
    (the cursor advances by the size rounded up), it is a multiple of the
    alignment, and the byte ranges [offset, offset + length) of two distinct
    constant operands of one storage class do not overlap. *)
Theorem createModel_aligned_disjoint (kAlignment : Z) (alloc : Z -> hidl_memory)
    (testModel : TestModel.t) (model : Model.t) :
  0 < kAlignment ->
  alignedTotal kAlignment CONSTANT_COPY (TestModel.operands testModel) <= UINT32_MAX ->
  alignedTotal kAlignment CONSTANT_REFERENCE (TestModel.operands testModel) <= UINT32_MAX ->
  createModel kAlignment alloc testModel = Ok model ->
  (forall i op,
     Model.operands model !! i = Some op ->
     isConstant (Operand.lifetime op) = true ->
     DataLocation.offset (Operand.location op)
     = alignedTotal kAlignment (Operand.lifetime op)
         (take i (TestModel.operands testModel))
     /\ (kAlignment | DataLocation.offset (Operand.location op)))
  /\ (forall i j opi opj,
        i <> j ->
        Model.operands model !! i = Some opi ->
        Model.operands model !! j = Some opj ->
        isConstant (Operand.lifetime opi) = true ->
        Operand.lifetime opi = Operand.lifetime opj ->
        DataLocation.offset (Operand.location opi)
        + DataLocation.length (Operand.location opi)
        <= DataLocation.offset (Operand.location opj)
        \/ DataLocation.offset (Operand.location opj)
           + DataLocation.length (Operand.location opj)
           <= DataLocation.offset (Operand.location opi)).
Proof.
  intros Hk Hc Hr Hm. split.
  - intros i op Hop Hconst.
    destruct (createModel_location kAlignment Hk _ _ _ _ _ Hc Hr Hm Hop)
      as (top & _ & _ & Hloc).
    destruct (Hloc Hconst) as [Hoff _]. split; [exact Hoff|].
    rewrite Hoff. apply alignedTotal_divide.
  - intros i j opi opj Hne Hi Hj Hconst Hsame.
    destruct (decide (i < j)%nat) as [Hlt|Hge].
    + left. eapply (createModel_ordered kAlignment Hk); eauto.
    + right. eapply (createModel_ordered kAlignment Hk _ _ _ j i); eauto; try lia.
      by rewrite <- Hsame.
Qed.

Lemma createModel_aligned_disjoint_witness :
  createModel 4 zeroFilled mixedConstants
  = Ok (Model.mk (translatedOperands 4 mixedConstants) [] [2] []
          [x04; x00; x00; x00; x0a; x0b; x00; x00]
          [[x01; x02; x03; x00; x05; x06; x07; x08; x09; x00; x00; x00]]
          false)
  /\ (map (fun op => DataLocation.offset (Operand.location op))
          (translatedOperands 4 mixedConstants) = [0; 0; 0; 4; 4])
  /\ (4 | 4)
  /\ (0 + 3 <= 4 \/ 4 + 5 <= 0).
Proof.
  assert (createModel 4 zeroFilled mixedConstants
          = Ok (Model.mk (translatedOperands 4 mixedConstants) [] [2] []
                  [x04; x00; x00; x00; x0a; x0b; x00; x00]
                  [[x01; x02; x03; x00; x05; x06; x07; x08; x09; x00; x00; x00]]
                  false)) as Hm by (vm_compute; reflexivity).
  destruct (createModel_aligned_disjoint 4 zeroFilled mixedConstants _
              ltac:(lia) ltac:(vm_compute; discriminate) ltac:(vm_compute; discriminate) Hm)
    as [Haligned Hdisjoint].
  split; [exact Hm|]. split; [vm_compute; reflexivity|]. split.
  - exact (proj2 (Haligned 3%nat _ eq_refl eq_refl)).
  - exact (Hdisjoint 0%nat 3%nat _ _ ltac:(lia) eq_refl eq_refl eq_refl eq_refl).
Defined.

(** *** Offsets wrap at [2^32] *)

Lemma size_hugeBuffer : size hugeBuffer = 4294967232.
Proof. unfold size, hugeBuffer. rewrite length_replicate. apply Z2Nat.id. lia. Qed.

Lemma size_replicate (n : nat) (b : byte) : size (replicate n b) = Z.of_nat n.
Proof. unfold size. by rewrite length_replicate. Qed.

Lemma size_zeroFilled (n : Z) : 0 <= n -> size (zeroFilled n) = n.
Proof. intros Hn. unfold zeroFilled. rewrite size_replicate. lia. Qed.

Lemma alignedSize_exact (kAlignment : Z) (b : TestBuffer) :
  0 < kAlignment -> (kAlignment | size b) -> alignedSize kAlignment b = size b.
Proof.
  intros Hk [t Ht]. unfold alignedSize. rewrite Ht.
  replace (t * kAlignment + kAlignment - 1) with ((kAlignment - 1) + t * kAlignment) by lia.
  rewrite Z.div_add by lia. rewrite (Z.div_small (kAlignment - 1)) by lia. lia.
Qed.

Lemma hugeModel_total (kAlignment : Z) (i : nat) :
  0 < kAlignment -> (kAlignment | 64) ->
  alignedTotal kAlignment CONSTANT_REFERENCE (take i (TestModel.operands hugeModel))
  = match i with
    | 0%nat => 0
    | 1%nat => 4294967232
    | 2%nat => 4294967360
    | _ => 4294967424
    end
  /\ alignedTotal kAlignment CONSTANT_COPY (TestModel.operands hugeModel) = 0.
Proof.
  intros Hk Hdiv.
  assert (alignedSize kAlignment hugeBuffer = 4294967232) as Hhuge.
  { rewrite alignedSize_exact, size_hugeBuffer; [reflexivity|exact Hk|].
    rewrite size_hugeBuffer. apply (Z.divide_trans _ 64); [exact Hdiv|].
    exists 67108863. reflexivity. }
  assert (alignedSize kAlignment (replicate 128 x00) = 128) as H128.
  { rewrite alignedSize_exact, size_replicate; [reflexivity|exact Hk|].
    rewrite size_replicate. apply (Z.divide_trans _ 64); [exact Hdiv|].
    exists 2. reflexivity. }
  assert (alignedSize kAlignment (replicate 64 x00) = 64) as H64.
  { rewrite alignedSize_exact, size_replicate; [reflexivity|exact Hk|].
    rewrite size_replicate. exact Hdiv. }
  split; [|reflexivity].
  destruct i as [|[|[|i]]];
    cbn [hugeModel TestModel.operands take alignedTotal sampleOperand
         TestOperand.lifetime TestOperand.data];
    repeat (rewrite decide_True by reflexivity);
    rewrite ?Hhuge, ?H128, ?H64, ?take_nil; reflexivity.
Qed.

Lemma hugeModel_overlap (kAlignment : Z) :
  0 < kAlignment -> (kAlignment | 64) -> offsetsWrap kAlignment.
Proof.
  intros Hk Hdiv. unfold offsetsWrap.
  destruct (hugeModel_total kAlignment 3 Hk Hdiv) as [Href Hcopy].
  rewrite firstn_all2 in Href by (cbn; lia).
  assert (requestedPoolSize kAlignment hugeModel = 4294967424) as Hpool.
  { unfold requestedPoolSize.
    rewrite createOperands_cursors; cbn [constCopySize constRefSize];
      rewrite ?Href, ?Hcopy; try exact Hk; lia. }
  destruct (createModel_defined kAlignment zeroFilled hugeModel Hk) as [model Hmodel].
  { rewrite Hcopy. lia. }
  { rewrite Href. lia. }
  { rewrite Hpool. apply size_zeroFilled. lia. }
  pose proof (createModel_operands kAlignment _ _ _ Hmodel) as Hops.
  pose proof (createOperands_lookup kAlignment Hk (TestModel.operands hugeModel)
                (mkCursors 0 0)) as Hlook.
  cbn [constCopySize constRefSize] in Hlook. rewrite Href, Hcopy in Hlook.
  exists model.
  eexists. eexists.
  split; [exact Hmodel|].
  rewrite Hops.
  split; [apply (Hlook 0%nat); first [lia | reflexivity]|].
  split; [apply (Hlook 2%nat); first [lia | reflexivity]|].
  split; [reflexivity|]. split; [reflexivity|].
  unfold locationAt.
  cbn [translateOperand Operand.location sampleOperand TestOperand.lifetime
       TestOperand.data].
  destruct (hugeModel_total kAlignment 0 Hk Hdiv) as [-> _].
  destruct (hugeModel_total kAlignment 2 Hk Hdiv) as [-> _].
  rewrite size_hugeBuffer, size_replicate.
  split; reflexivity.
Qed.

(** C5, counterexample.  Three constants by reference of [2^32 - 64], 128
    and 64 bytes, with an alignment of 4 or of 64 bytes: the running total
    passes [2^32] after the second operand, the offset of the third is
    truncated to 64, and its range [64, 128) lies inside the range
    [0, 2^32 - 64) of the first. *)
Lemma createModel_offsets_wrap : offsetsWrap 4 /\ offsetsWrap 64.
Proof.
  split; apply hugeModel_overlap; try lia.
  - exists 16. reflexivity.
  - exists 1. reflexivity.
Qed.

(** ** Properties of test bodies *)

Lemma bind_Next {S A B} (m : Body S A) (f : A -> Body S B) s l1 s1 a :
  m s = Ok (l1, s1, Next a) ->
  bind m f s = match f a s1 with
               | Ok (l2, s2, r) => Ok (l1 ++ l2, s2, r)
               | Aborted => Aborted
               | Undefined => Undefined
               end.
Proof. intros Hm. unfold bind. by rewrite Hm. Qed.

Lemma bind_Returned {S A B} (m : Body S A) (f : A -> Body S B) s l1 s1 :
  m s = Ok (l1, s1, Returned) -> bind m f s = Ok (l1, s1, Returned).
Proof. intros Hm. unfold bind. by rewrite Hm. Qed.

Lemma bind_inv {S A B} (m : Body S A) (f : A -> Body S B) s l s' r :
  bind m f s = Ok (l, s', r) ->
  (m s = Ok (l, s', Returned) /\ r = Returned)
  \/ (exists l1 s1 a l2,
        m s = Ok (l1, s1, Next a) /\ f a s1 = Ok (l2, s', r) /\ l = l1 ++ l2).
Proof.
  unfold bind. destruct (m s) as [[[l1 s1] [a|]]| |]; try discriminate.
  - destruct (f a s1) as [[[l2 s2] r2]| |] eqn:Hf; try discriminate.
    intros [= <- <- <-]. right. by exists l1, s1, a, l2.
  - intros [= <- <- <-]. by left.
Qed.

Lemma EXPECT_run {S} (site : Site) (b : bool) (s : S) :
  EXPECT site b s = Ok (if b then [] else [NonFatalFailure site], s, Next tt).
Proof. by destruct b. Qed.

Lemma ASSERT_pass {S} (site : Site) (s : S) : ASSERT site true s = Ok ([], s, Next tt).
Proof. reflexivity. Qed.

Lemma ASSERT_fail {S} (site : Site) (s : S) :
  ASSERT site false s = Ok ([FatalFailure site], s, Returned).
Proof. reflexivity. Qed.

Lemma lift_Ok {S A} (a : A) (s : S) : lift (Ok a) s = Ok ([], s, Next a).
Proof. reflexivity. Qed.

Lemma emit_run {S} (e : Event) (s : S) : emit e s = Ok ([e], s, Next tt).
Proof. reflexivity. Qed.

Lemma for_each_emit {S} (l : list Event) (s : S) :
  for_each l emit s = Ok (l, s, Next tt).
Proof.
  induction l as [|e l IH]; [reflexivity|].
  simpl. unfold bind at 1. simpl. by rewrite IH.
Qed.


Section BodyRules.

Context {S A B : Type}.
Implicit Types (P : Event -> Prop) (m : Body S A) (f : A -> Body S B).

Lemma logs_bind P m f : logs P m -> (forall a, logs P (f a)) -> logs P (bind m f).
Proof.
  intros Hm Hf s l s' r Hrun.
  apply bind_inv in Hrun as [[Hrun _]|(l1 & s1 & a & l2 & H1 & H2 & ->)].
  - by eapply Hm.
  - apply Forall_app. split; [by eapply Hm | by eapply Hf].
Qed.

Lemma logs_ret P (a : A) : logs P (ret (S:=S) a).
Proof. intros s l s' r [= <- <- <-]. constructor. Qed.

Lemma logs_return P : logs P (return_ (S:=S) (A:=A)).
Proof. intros s l s' r [= <- <- <-]. constructor. Qed.

Lemma logs_lift P (o : Outcome A) : logs P (lift (S:=S) o).
Proof. intros s l s' r. destruct o; simpl; [|done..]. intros [= <- <- <-]. constructor. Qed.

Lemma logs_emit P e : P e -> logs P (emit (S:=S) e).
Proof. intros He s l s' r [= <- <- <-]. by repeat constructor. Qed.

Lemma logs_ASSERT P site b : P (FatalFailure site) -> logs P (ASSERT (S:=S) site b).
Proof.
  intros He s l s' r. destruct b; simpl; intros [= <- <- <-]; by repeat constructor.
Qed.

Lemma logs_EXPECT P site b : P (NonFatalFailure site) -> logs P (EXPECT (S:=S) site b).
Proof.
  intros He s l s' r. destruct b; simpl; intros [= <- <- <-]; by repeat constructor.
Qed.

Lemma logs_GTEST_SKIP P : P Skip -> logs P (GTEST_SKIP (S:=S) (A:=A)).
Proof. intros He s l s' r [= <- <- <-]. by repeat constructor. Qed.

Lemma logs_get P : logs P (get (S:=S)).
Proof. intros s l s' r [= <- <- <-]. constructor. Qed.

Lemma logs_put P (s0 : S) : logs P (put s0).
Proof. intros s l s' r [= <- <- <-]. constructor. Qed.

Lemma defined_get : defined (get (S:=S)).
Proof. intros s. by eexists _, _, _. Qed.

Lemma defined_put (s0 : S) : defined (put s0).
Proof. intros s. by eexists _, _, _. Qed.

Lemma logs_call P {S'} (callee : Body S' unit) (s0 : S') :
  logs P callee -> logs P (call (S:=S) callee s0).
Proof.
  intros Hc s l s' r. unfold call.
  destruct (callee s0) as [[[l1 s1] r1]| |] eqn:Hrun; [|done..].
  intros [= <- <- <-]. by eapply Hc.
Qed.

Lemma keeps_bind m f : keeps m -> (forall a, keeps (f a)) -> keeps (bind m f).
Proof.
  intros Hm Hf s l s' r Hrun.
  apply bind_inv in Hrun as [[Hrun _]|(l1 & s1 & a & l2 & H1 & H2 & ->)].
  - by eapply Hm.
  - apply Hm in H1 as ->. by eapply Hf.
Qed.

Lemma keeps_ret (a : A) : keeps (ret (S:=S) a).
Proof. by intros s l s' r [= <- <- <-]. Qed.

Lemma keeps_return : keeps (return_ (S:=S) (A:=A)).
Proof. by intros s l s' r [= <- <- <-]. Qed.

Lemma keeps_lift (o : Outcome A) : keeps (lift (S:=S) o).
Proof. intros s l s' r. destruct o; simpl; [|done..]. by intros [= <- <- <-]. Qed.

Lemma keeps_emit e : keeps (emit (S:=S) e).
Proof. by intros s l s' r [= <- <- <-]. Qed.

Lemma keeps_ASSERT site b : keeps (ASSERT (S:=S) site b).
Proof. intros s l s' r. destruct b; simpl; by intros [= <- <- <-]. Qed.

Lemma keeps_EXPECT site b : keeps (EXPECT (S:=S) site b).
Proof. intros s l s' r. destruct b; simpl; by intros [= <- <- <-]. Qed.

Lemma keeps_GTEST_SKIP : keeps (GTEST_SKIP (S:=S) (A:=A)).
Proof. by intros s l s' r [= <- <- <-]. Qed.

Lemma keeps_call {S'} (callee : Body S' unit) (s0 : S') : keeps (call (S:=S) callee s0).
Proof.
  intros s l s' r. unfold call.
  destruct (callee s0) as [[[l1 s1] r1]| |]; [|done..]. by intros [= <- <- <-].
Qed.

Lemma defined_bind m f : defined m -> (forall a, defined (f a)) -> defined (bind m f).
Proof.
  intros Hm Hf s. destruct (Hm s) as (l1 & s1 & [a|] & H1).
  - destruct (Hf a s1) as (l2 & s2 & r & H2).
    exists (l1 ++ l2), s2, r. by rewrite (bind_Next _ _ _ _ _ _ H1), H2.
  - exists l1, s1, Returned. by apply bind_Returned.
Qed.

Lemma defined_ret (a : A) : defined (ret (S:=S) a).
Proof. intros s. by eexists _, _, _. Qed.

Lemma defined_return : defined (return_ (S:=S) (A:=A)).
Proof. intros s. by eexists _, _, _. Qed.

Lemma defined_lift (a : A) : defined (lift (S:=S) (Ok a)).
Proof. intros s. by eexists _, _, _. Qed.

Lemma defined_emit e : defined (emit (S:=S) e).
Proof. intros s. by eexists _, _, _. Qed.

Lemma defined_ASSERT site b : defined (ASSERT (S:=S) site b).
Proof. intros s. destruct b; by eexists _, _, _. Qed.

Lemma defined_EXPECT site b : defined (EXPECT (S:=S) site b).
Proof. intros s. destruct b; by eexists _, _, _. Qed.

Lemma defined_GTEST_SKIP : defined (GTEST_SKIP (S:=S) (A:=A)).
Proof. intros s. by eexists _, _, _. Qed.

Lemma defined_call {S'} (callee : Body S' unit) (s0 : S') :
  defined callee -> defined (call (S:=S) callee s0).
Proof.
  intros Hc s. destruct (Hc s0) as (l & s1 & r & Hrun).
  exists l, s, (Next s1). unfold call. by rewrite Hrun.
Qed.

End BodyRules.

Lemma logs_for_each {S A} P (l : list A) (body : A -> Body S unit) :
  (forall x, logs P (body x)) -> logs P (for_each l body).
Proof.
  intros Hb. induction l as [|x l IH]; simpl.
  - apply logs_ret.
  - apply logs_bind; [apply Hb | intros _; apply IH].
Qed.

Lemma keeps_for_each {S A} (l : list A) (body : A -> Body S unit) :
  (forall x, keeps (body x)) -> keeps (for_each l body).
Proof.
  intros Hb. induction l as [|x l IH]; simpl.
  - apply keeps_ret.
  - apply keeps_bind; [apply Hb | intros _; apply IH].
Qed.

Lemma defined_for_each {S A} (l : list A) (body : A -> Body S unit) :
  (forall x, defined (body x)) -> defined (for_each l body).
Proof.
  intros Hb. induction l as [|x l IH]; simpl.
  - apply defined_ret.
  - apply defined_bind; [apply Hb | intros _; apply IH].
Qed.

Lemma logs_weaken {S A} (P Q : Event -> Prop) (m : Body S A) :
  (forall e, P e -> Q e) -> logs P m -> logs Q m.
Proof. intros HPQ Hm s l s' r Hrun. eapply Forall_impl; [by eapply Hm | exact HPQ]. Qed.

Create HintDb body discriminated.

#[export] Hint Resolve logs_ret logs_return logs_lift logs_emit logs_ASSERT logs_EXPECT
  logs_GTEST_SKIP logs_call logs_for_each logs_get logs_put defined_get defined_put
  keeps_ret keeps_return keeps_lift keeps_emit keeps_ASSERT keeps_EXPECT
  keeps_GTEST_SKIP keeps_call keeps_for_each
  defined_ret defined_return defined_lift defined_emit defined_ASSERT defined_EXPECT
  defined_GTEST_SKIP defined_call defined_for_each : body.

(** Goes through a body built from the primitives, case by case. *)
Ltac body_step :=
  match goal with
  | |- logs _ (bind _ _) => apply logs_bind; [|intros ?]
  | |- keeps (bind _ _) => apply keeps_bind; [|intros ?]
  | |- defined (bind _ _) => apply defined_bind; [|intros ?]
  | |- logs _ (call _ _) => apply logs_call
  | |- defined (call _ _) => apply defined_call
  | |- logs _ (for_each _ _) => apply logs_for_each; intros ?
  | |- keeps (for_each _ _) => apply keeps_for_each; intros ?
  | |- defined (for_each _ _) => apply defined_for_each; intros ?
  | |- context [if ?b then _ else _] => destruct b
  | |- context [match ?x with _ => _ end] => destruct x
  | |- _ => solve [auto with body]
  end.

Ltac body_auto := repeat body_step.

(** Membership in an explicit list. *)
Ltac elem_here := repeat first [apply list_elem_of_here | apply list_elem_of_further].
Ltac elem_absurd H :=
  simpl in H;
  repeat (apply elem_of_cons in H as [H|H]; [discriminate H|]);
  by apply elem_of_nil in H.

(** ** Properties of the evaluator *)

Lemma checkTiming_run {S} (testConfig : TestConfig.t) (timing : Timing.t) (s : S) :
  checkTiming testConfig timing s = Ok (timingFailures testConfig timing, s, Next tt).
Proof.
  unfold checkTiming, timingFailures.
  destruct (TestConfig.measureTiming testConfig); simpl.
  - unfold bind, EXPECT.
    repeat case_bool_decide; repeat case_decide; simpl; congruence.
  - repeat case_bool_decide; repeat case_decide; simpl; unfold EXPECT;
      try case_bool_decide; simpl; try reflexivity; try lia; tauto.
Qed.

Lemma skipUnsupported_pass (testConfig : TestConfig.t) (status : ErrorStatus) skipped :
  TestConfig.outputType testConfig = FULLY_SPECIFIED \/ status <> GENERAL_FAILURE ->
  skipUnsupported testConfig status skipped = Ok ([], skipped, Next tt).
Proof.
  intros Hpass. unfold skipUnsupported.
  destruct Hpass as [Hfs|Hst].
  - rewrite bool_decide_eq_false_2 by (rewrite Hfs; tauto). reflexivity.
  - rewrite (bool_decide_eq_false_2 (status = GENERAL_FAILURE)) by exact Hst.
    rewrite andb_false_r. reflexivity.
Qed.

Lemma at_Ok {A} (v : list A) (i : Z) (a : A) :
  at_ v i = Ok a <-> 0 <= i /\ v !! Z.to_nat i = Some a.
Proof.
  unfold at_. case_decide.
  - destruct (v !! Z.to_nat i); split; (intros [= ->] || intros [_ [= ->]] || intros [_ [=]]);
      done.
  - split; [done|]. intros [? _]. lia.
Qed.

Lemma skipUnsupported_skip (testConfig : TestConfig.t) skipped :
  TestConfig.outputType testConfig <> FULLY_SPECIFIED ->
  skipUnsupported testConfig GENERAL_FAILURE skipped
  = Ok (if TestConfig.reportSkipping testConfig
        then [LogInfo CannotExecute; Cout CannotExecute; Skip] else [],
        (fun _ => true) <$> skipped, Returned).
Proof.
  intros Hot. unfold skipUnsupported.
  rewrite !bool_decide_eq_true_2 by done. cbn [andb].
  destruct skipped, (TestConfig.reportSkipping testConfig); reflexivity.
Qed.

Lemma buildRequest_insufficient kAlignment {S} testModel testConfig (s : S) l s' request :
  TestConfig.outputType testConfig = INSUFFICIENT ->
  buildRequest kAlignment testModel testConfig s = Ok (l, s', Next request) ->
  isOutputSizeGreaterThanOne testModel 0 = Ok true.
Proof.
  intros Hot. unfold buildRequest. rewrite Hot. simpl.
  destruct (isOutputSizeGreaterThanOne testModel 0) as [[|]| |]; try done.
Qed.

Lemma keeps_buildRequest kAlignment {S} testModel testConfig :
  keeps (buildRequest kAlignment (S:=S) testModel testConfig).
Proof. unfold buildRequest. body_auto. Qed.

Lemma keeps_runExecutor conv {S} preparedModel request testConfig :
  keeps (runExecutor conv (S:=S) preparedModel request testConfig).
Proof. unfold runExecutor. body_auto. Qed.

Lemma setSkipped_run (b : bool) (skipped : option bool) :
  setSkipped b skipped = Ok ([], (fun _ => b) <$> skipped, Next tt).
Proof. by destruct skipped. Qed.

Lemma runRequest_inv kAlignment conv preparedModel testModel testConfig sk l sk' request
    execution :
  runRequest kAlignment conv preparedModel testModel testConfig sk
  = Ok (l, sk', Next (request, execution)) ->
  sk' = (fun _ => false) <$> sk
  /\ exists l1 l2,
      l = l1 ++ l2
      /\ buildRequest kAlignment testModel testConfig sk' = Ok (l1, sk', Next request)
      /\ runExecutor conv preparedModel request testConfig sk' = Ok (l2, sk', Next execution).
Proof.
  unfold runRequest. intros Hrun.
  rewrite (bind_Next _ _ _ _ _ _ (setSkipped_run false sk)) in Hrun.
  match type of Hrun with
  | match ?m with _ => _ end = _ => destruct m as [[[l0 s0] r0]| |] eqn:Hrest; [|done..]
  end.
  injection Hrun as <- <- ->.
  apply bind_inv in Hrest as [[_ [=]]|(l1 & s1 & request' & l2' & Hb & Hrest & ->)].
  pose proof (keeps_buildRequest _ _ _ _ _ _ _ Hb) as ->.
  apply bind_inv in Hrest as [[_ [=]]|(l2 & s2 & execution' & l3 & He & Hret & ->)].
  pose proof (keeps_runExecutor _ _ _ _ _ _ _ _ He) as ->.
  injection Hret as <- <- <- <-.
  split; [reflexivity|]. exists l1, l2. rewrite app_nil_r. auto.
Qed.

Lemma logs_buildRequest kAlignment {S} P testModel testConfig :
  P (Called createRequest_) -> P (FatalFailure LengthGreaterThanOne) ->
  logs P (buildRequest kAlignment (S:=S) testModel testConfig).
Proof.
  intros H1 H2. unfold buildRequest, makeOutputInsufficientSize.
  body_auto.
Qed.

Lemma logs_runExecutor conv {S} P preparedModel request testConfig :
  (forall f, f <> getOutputBuffers_ -> f <> checkResults_ -> f <> createRequest_ ->
             f <> createPreparedModel_ -> P (Called f)) ->
  P (FatalFailure LaunchIsOk) -> P (NonFatalFailure LaunchStatusNone) ->
  P (FatalFailure SyncReturnIsOk) -> P (FatalFailure BurstControllerNotNull) ->
  logs P (runExecutor conv (S:=S) preparedModel request testConfig).
Proof.
  intros Hc H1 H2 H3 H4. unfold runExecutor.
  body_auto; try (apply logs_emit, Hc; discriminate).
Qed.

Lemma runRequest_never_retrieves kAlignment conv preparedModel testModel testConfig
    skipped l skipped1 r :
  runRequest kAlignment conv preparedModel testModel testConfig skipped
  = Ok (l, skipped1, r) ->
  (Called getOutputBuffers_ ∉ l) /\ (Called checkResults_ ∉ l).
Proof.
  intros Hrun.
  assert (Forall (fun e => e <> Called getOutputBuffers_ /\ e <> Called checkResults_) l)
    as Hall.
  { revert Hrun. generalize skipped l skipped1 r. change (logs ?P ?m) with (logs P m).
    unfold runRequest. apply logs_bind.
    - intros s l' s' r'. rewrite setSkipped_run. intros [= <- <- <-]. constructor.
    - intros _. apply logs_bind.
      + apply logs_buildRequest; split; discriminate.
      + intros request. apply logs_bind; [|intros ?; apply logs_ret].
        apply logs_runExecutor; try (split; discriminate).
        intros f ? ? ? ?. split; congruence. }
  rewrite Forall_forall in Hall.
  split; intros Hin; apply Hall in Hin; tauto.
Qed.

(** C1.  Under the INSUFFICIENT policy, an evaluation whose execution came
    back with a status other than GENERAL_FAILURE (so that it is not skipped
    before validation) ends by a return right after the checks: after the
    timing check it logs nothing exactly when the status is
    OUTPUT_INSUFFICIENT_SIZE, the shape list is as long as the list of outputs
    and output 0 is marked not sufficient, and one fatal failure otherwise;
    and neither the output buffers are retrieved nor the comparator is
    called. *)
Theorem insufficient_validation kAlignment conv preparedModel testModel testConfig
    skipped l0 skipped1 request execution :
  TestConfig.outputType testConfig = INSUFFICIENT ->
  runRequest kAlignment conv preparedModel testModel testConfig skipped
  = Ok (l0, skipped1, Next (request, execution)) ->
  Execution.status execution <> GENERAL_FAILURE ->
  exists verdict,
    EvaluatePreparedModel kAlignment conv preparedModel testModel testConfig skipped
    = Ok (l0 ++ timingFailures testConfig (Execution.timing execution) ++ verdict,
          skipped1, Returned)
    /\ (verdict = [] <->
        Execution.status execution = OUTPUT_INSUFFICIENT_SIZE
        /\ length (Execution.outputShapes execution)
           = length (TestModel.outputIndexes testModel)
        /\ exists shape0,
             Execution.outputShapes execution !! 0%nat = Some shape0
             /\ OutputShape.isSufficient shape0 = false)
    /\ (verdict = [] \/ exists site, verdict = [FatalFailure site])
    /\ (Called getOutputBuffers_ ∉ l0 ++ verdict)
    /\ (Called checkResults_ ∉ l0 ++ verdict).
Proof.
  intros Hot Hrun Hst.
  destruct (runRequest_never_retrieves _ _ _ _ _ _ _ _ _ Hrun) as [Hget Hcheck].
  destruct (runRequest_inv _ _ _ _ _ _ _ _ _ _ Hrun) as (_ & l1 & l2 & _ & Hb & _).
  pose proof (buildRequest_insufficient _ _ _ _ _ _ _ Hot Hb) as Hgt.
  assert (exists oi, TestModel.outputIndexes testModel !! 0%nat = Some oi) as [oi Hoi].
  { unfold isOutputSizeGreaterThanOne in Hgt.
    destruct (at_ (TestModel.outputIndexes testModel) 0) as [oi| |] eqn:Hat; [|done..].
    apply at_Ok in Hat as [_ Hat]. eauto. }
  apply lookup_lt_Some in Hoi.
  unfold EvaluatePreparedModel. rewrite (bind_Next _ _ _ _ _ _ Hrun). simpl.
  rewrite (bind_Next _ _ _ _ _ _
             (skipUnsupported_pass testConfig _ skipped1 (or_intror Hst))).
  unfold checkExecution.
  rewrite (bind_Next _ _ _ _ _ _ (checkTiming_run testConfig _ skipped1)).
  unfold checkOutputType. rewrite Hot.
  destruct execution as [status shapes timing].
  cbn [Execution.status Execution.outputShapes Execution.timing snd] in *.
  assert (forall verdict : list Event,
    (verdict = [] \/ exists site, verdict = [FatalFailure site]) ->
    (Called getOutputBuffers_ ∉ l0 ++ verdict)
    /\ (Called checkResults_ ∉ l0 ++ verdict)) as Hnot.
  { intros verdict Hv. rewrite !elem_of_app.
    split; (intros [?|Hin]; [done|]); destruct Hv as [->|[site ->]];
      try (by apply elem_of_nil in Hin);
      apply list_elem_of_singleton in Hin; discriminate. }
  destruct (decide (OUTPUT_INSUFFICIENT_SIZE = status)) as [<-|Hne].
  2: { exists [FatalFailure StatusOutputInsufficientSize].
       unfold bind, ASSERT. rewrite bool_decide_eq_false_2 by exact Hne. simpl.
       split; [reflexivity|]. split; [split; [done|intros [Heq _]; congruence]|].
       split; [eauto|]. apply Hnot; eauto. }
  destruct (decide (length shapes = length (TestModel.outputIndexes testModel)))
    as [Hlen|Hlen].
  2: { exists [FatalFailure ShapesMatchOutputs].
       unfold bind, ASSERT. rewrite bool_decide_eq_true_2 by reflexivity.
       rewrite bool_decide_eq_false_2 by exact Hlen. simpl.
       split; [reflexivity|]. split; [split; [done|intros (_ & ? & _); done]|].
       split; [eauto|]. apply Hnot; eauto. }
  destruct shapes as [|[dims sufficient] rest]; [simpl in Hlen; lia|].
  destruct sufficient.
  - exists [FatalFailure Output0NotSufficient].
    unfold bind, ASSERT. rewrite !bool_decide_eq_true_2 by done. simpl.
    split; [reflexivity|].
    split; [split; [done|intros (_ & _ & shape0 & [= <-] & Hs); done]|].
    split; [eauto|]. apply Hnot; eauto.
  - exists [].
    unfold bind, ASSERT. rewrite !bool_decide_eq_true_2 by done. simpl.
    split; [reflexivity|].
    split; [split; [eauto 10|done]|].
    split; [eauto|]. apply Hnot; eauto.
Qed.

Lemma insufficient_validation_witness :
  EvaluatePreparedModel 64 sampleConvert (answers tooSmall) vectorModel
    (TestConfig.mk3 BURST NO INSUFFICIENT) None
  = Ok ([Called createRequest_; Called CreateBurst_; Called compute_], None, Returned).
Proof.
  destruct (insufficient_validation 64 sampleConvert (answers tooSmall) vectorModel
              (TestConfig.mk3 BURST NO INSUFFICIENT) None
              [Called createRequest_; Called CreateBurst_; Called compute_] None
              (Request.mk
                 [RequestArgument.mk false (DataLocation.mk 0 0 16) []]
                 [RequestArgument.mk false (DataLocation.mk 1 0 15) []] [])
              tooSmall eq_refl eq_refl ltac:(discriminate))
    as (verdict & Hrun & Hiff & _).
  rewrite Hrun. rewrite (proj2 Hiff); [reflexivity|].
  split; [reflexivity|]. split; [reflexivity|]. by eexists.
Defined.

Lemma runRequest_events kAlignment conv preparedModel testModel testConfig
    skipped l skipped1 r :
  runRequest kAlignment conv preparedModel testModel testConfig skipped
  = Ok (l, skipped1, r) ->
  Forall (fun e => requestEvent e = true) l.
Proof.
  revert skipped l skipped1 r. change (logs (fun e => requestEvent e = true)
    (runRequest kAlignment conv preparedModel testModel testConfig)).
  unfold runRequest. apply logs_bind.
  - intros s l' s' r'. rewrite setSkipped_run. intros [= <- <- <-]. constructor.
  - intros _. apply logs_bind.
    + by apply logs_buildRequest.
    + intros request. apply logs_bind; [|intros ?; apply logs_ret].
      apply logs_runExecutor; try reflexivity.
      intros [] ? ? ? ?; done.
Qed.

(** What the executors log when the execution comes back: the only failure
    is that of the expectation on the launch status (line 265). *)
Lemma runExecutor_failures conv {St} preparedModel request testConfig (s : St) l s'
    execution :
  runExecutor conv preparedModel request testConfig s = Ok (l, s', Next execution) ->
  Forall (fun e => isFailure e = true -> e = NonFatalFailure LaunchStatusNone) l
  /\ ((NonFatalFailure LaunchStatusNone ∈ l) <->
      TestConfig.executor testConfig = ASYNC
      /\ exists status,
           AsyncExecution.launch
             (IPreparedModel.execute_1_3 preparedModel request
                (TestConfig.measureTiming testConfig)) = ReturnOk status
           /\ status <> NONE).
Proof.
  unfold runExecutor, ExecutePreparedModel.
  destruct (TestConfig.executor testConfig).
  - destruct (AsyncExecution.launch _) as [status|] eqn:Hlaunch; [|done].
    destruct (decide (status = NONE)) as [->|Hne].
    + intros [= <- <- <-]. split; [by repeat constructor|].
      split; [intros Hin; elem_absurd Hin|].
      by intros (_ & status & [= <-] & Hne).
    + unfold bind, emit, ASSERT, EXPECT, ret. cbn [isOk app].
      rewrite bool_decide_eq_false_2 by congruence.
      intros [= <- <- <-]. split; [by repeat constructor|].
      split; [|intros _; elem_here].
      intros _. split; [reflexivity|]. by exists status.
  - destruct (IPreparedModel.executeSynchronously_1_3 _ _ _) as [r|stale];
      intros [= <- <- <-]; (split; [by repeat constructor|]);
      (split; [intros Hin; elem_absurd Hin|by intros [[=] _]]).
  - destruct (IPreparedModel.burst preparedModel) as [controller|]; [|done].
    intros [= <- <- <-]. split; [by repeat constructor|].
    split; [intros Hin; elem_absurd Hin|by intros [[=] _]].
Qed.

(** C2 (as amended).  Under the INSUFFICIENT policy, when the execution
    comes back with a status other than OUTPUT_INSUFFICIENT_SIZE: if the
    status is not GENERAL_FAILURE either, the evaluator logs, after the timing
    check, the fatal failure of the status check and no skip, and does not
    raise the skipped flag; if it is GENERAL_FAILURE, the evaluator logs no
    failure for the status: after the execution it logs the skip report and
    nothing else (nothing at all when skip reporting is off), raises the
    skipped flag, and registers a skip exactly when skip reporting is on.  The
    failures that the whole log can then hold were logged before the status
    was examined: the failure, not fatal, of the expectation on the launch
    status (line 265), present exactly when the executor is ASYNC and the
    launch was answered with a status other than NONE, and the failure of the
    assertion of [makeOutputInsufficientSize] (line 197). *)
Theorem insufficient_other_status kAlignment conv preparedModel testModel testConfig
    skipped l0 skipped1 request execution :
  TestConfig.outputType testConfig = INSUFFICIENT ->
  runRequest kAlignment conv preparedModel testModel testConfig skipped
  = Ok (l0, skipped1, Next (request, execution)) ->
  Execution.status execution <> OUTPUT_INSUFFICIENT_SIZE ->
  exists l skipped2,
    EvaluatePreparedModel kAlignment conv preparedModel testModel testConfig skipped
    = Ok (l0 ++ l, skipped2, Returned)
    /\ (Execution.status execution <> GENERAL_FAILURE ->
        l = timingFailures testConfig (Execution.timing execution)
            ++ [FatalFailure StatusOutputInsufficientSize]
        /\ (FatalFailure StatusOutputInsufficientSize ∈ l)
        /\ (Skip ∉ l0 ++ l)
        /\ skipped2 = skipped1)
    /\ (Execution.status execution = GENERAL_FAILURE ->
        l = skipReport testConfig
        /\ Forall (fun e => isFailure e = false) l
        /\ (Skip ∈ l <-> TestConfig.reportSkipping testConfig = true)
        /\ skipped2 = (fun _ => true) <$> skipped1
        /\ (forall e, e ∈ l0 ++ l -> isFailure e = true ->
              e = NonFatalFailure LaunchStatusNone
              \/ e = FatalFailure LengthGreaterThanOne)
        /\ ((NonFatalFailure LaunchStatusNone ∈ l0 ++ l) <->
            TestConfig.executor testConfig = ASYNC
            /\ exists status,
                 AsyncExecution.launch
                   (IPreparedModel.execute_1_3 preparedModel request
                      (TestConfig.measureTiming testConfig)) = ReturnOk status
                 /\ status <> NONE)).
Proof.
  intros Hot Hrun Hst.
  pose proof (runRequest_events _ _ _ _ _ _ _ _ _ Hrun) as Hl0.
  destruct (decide (Execution.status execution = GENERAL_FAILURE)) as [Hgf|Hgf].
  - unfold EvaluatePreparedModel. rewrite (bind_Next _ _ _ _ _ _ Hrun).
    cbn [snd]. rewrite Hgf.
    rewrite (bind_Returned _ _ _ _ _
               (skipUnsupported_skip testConfig skipped1 ltac:(rewrite Hot; done))).
    eexists _, _. split; [reflexivity|]. split; [done|]. intros _.
    fold (skipReport testConfig).
    assert (Forall (fun e => isFailure e = false) (skipReport testConfig)) as Hreport.
    { unfold skipReport. destruct (TestConfig.reportSkipping testConfig);
        by repeat constructor. }
    split; [reflexivity|]. split; [exact Hreport|]. split.
    { unfold skipReport. destruct (TestConfig.reportSkipping testConfig).
      - split; [done|]. intros _. elem_here.
      - split; [by intros ?%elem_of_nil|done]. }
    split; [reflexivity|].
    destruct (runRequest_inv _ _ _ _ _ _ _ _ _ _ Hrun)
      as (_ & l1 & l2 & -> & Hbuild & Hexec).
    pose proof (logs_buildRequest kAlignment
                  (fun e => e = Called createRequest_
                            \/ e = FatalFailure LengthGreaterThanOne)
                  testModel testConfig ltac:(by left) ltac:(by right)
                  _ _ _ _ Hbuild) as Hl1.
    destruct (runExecutor_failures _ _ _ _ _ _ _ _ Hexec) as [Hl2 Hlaunch].
    rewrite Forall_forall in Hl1, Hl2, Hreport.
    split.
    + intros e Hin Hfail. rewrite !elem_of_app in Hin.
      destruct Hin as [[Hin|Hin]|Hin].
      * destruct (Hl1 e Hin) as [-> | ->]; [discriminate|by right].
      * left. by apply Hl2.
      * apply Hreport in Hin. congruence.
    + rewrite <- Hlaunch. rewrite !elem_of_app. split; [|tauto].
      intros [[Hin|Hin]|Hin]; [|exact Hin|].
      * by destruct (Hl1 _ Hin).
      * by apply Hreport in Hin.
  - exists (timingFailures testConfig (Execution.timing execution)
            ++ [FatalFailure StatusOutputInsufficientSize]), skipped1.
    split.
    { unfold EvaluatePreparedModel. rewrite (bind_Next _ _ _ _ _ _ Hrun). cbn [snd].
      rewrite (bind_Next _ _ _ _ _ _
                 (skipUnsupported_pass testConfig _ skipped1 (or_intror Hgf))).
      unfold checkExecution.
      rewrite (bind_Next _ _ _ _ _ _ (checkTiming_run testConfig _ skipped1)).
      unfold checkOutputType. rewrite Hot. unfold bind, ASSERT.
      rewrite bool_decide_eq_false_2 by congruence. reflexivity. }
    split; [|done]. intros _. split; [reflexivity|].
    split; [apply elem_of_app; right; elem_here|]. split; [|reflexivity].
    rewrite !elem_of_app. intros [Hin|[Hin|Hin]].
    + rewrite Forall_forall in Hl0. by apply Hl0 in Hin.
    + unfold timingFailures in Hin.
      destruct (TestConfig.measureTiming testConfig); repeat case_decide; elem_absurd Hin.
    + elem_absurd Hin.
Qed.

Lemma insufficient_other_status_witness :
  (exists l,
     EvaluatePreparedModel 64 sampleConvert (answers unavailable) vectorModel
       (TestConfig.mk3 ASYNC NO INSUFFICIENT) (Some false)
     = Ok ([Called createRequest_; Called execute_1_3_] ++ l, Some false, Returned)
     /\ FatalFailure StatusOutputInsufficientSize ∈ l)
  /\ EvaluatePreparedModel 64 sampleConvert launchRefused vectorModel
       (TestConfig.mk3 ASYNC NO INSUFFICIENT) (Some false)
     = Ok ([Called createRequest_; Called execute_1_3_;
            NonFatalFailure LaunchStatusNone]
           ++ [LogInfo CannotExecute; Cout CannotExecute; Skip], Some true, Returned).
Proof.
  split.
  - destruct (insufficient_other_status 64 sampleConvert (answers unavailable) vectorModel
                (TestConfig.mk3 ASYNC NO INSUFFICIENT) (Some false)
                [Called createRequest_; Called execute_1_3_] (Some false)
                (Request.mk
                   [RequestArgument.mk false (DataLocation.mk 0 0 16) []]
                   [RequestArgument.mk false (DataLocation.mk 1 0 15) []] [])
                unavailable eq_refl eq_refl ltac:(discriminate))
      as (l & skipped2 & Hrun & Hfail & _).
    destruct (Hfail ltac:(discriminate)) as (_ & Hin & _ & ->).
    exists l. split; [exact Hrun | exact Hin].
  - destruct (insufficient_other_status 64 sampleConvert launchRefused vectorModel
                (TestConfig.mk3 ASYNC NO INSUFFICIENT) (Some false)
                [Called createRequest_; Called execute_1_3_;
                 NonFatalFailure LaunchStatusNone] (Some false)
                (Request.mk
                   [RequestArgument.mk false (DataLocation.mk 0 0 16) []]
                   [RequestArgument.mk false (DataLocation.mk 1 0 15) []] [])
                unsupported eq_refl eq_refl ltac:(discriminate))
      as (l & skipped2 & Hrun & _ & Hskip).
    destruct (Hskip eq_refl) as (-> & _ & _ & -> & _).
    exact Hrun.
Defined.

(** C2, counterexample.  Under the INSUFFICIENT policy the status
    GENERAL_FAILURE, which is not OUTPUT_INSUFFICIENT_SIZE, ends in a skip
    with no failure logged. *)
Lemma insufficient_general_failure_is_skipped :
  EvaluatePreparedModel 64 sampleConvert (answers unsupported) vectorModel
    (TestConfig.mk3 SYNC NO INSUFFICIENT) (Some false)
  = Ok ([Called createRequest_; Called executeSynchronously_1_3_;
         LogInfo CannotExecute; Cout CannotExecute; Skip],
        Some true, Returned)
  /\ Execution.status unsupported = GENERAL_FAILURE.
Proof. split; reflexivity. Qed.

(** *** The evaluator runs to an end on a model with valid indexes *)

Lemma at_defined {A} (v : list A) (i : Z) :
  0 <= i < Z.of_nat (length v) -> exists a, at_ v i = Ok a.
Proof.
  intros Hi. destruct (lookup_lt_is_Some_2 v (Z.to_nat i)) as [a Ha]; [lia|].
  exists a. by apply at_Ok; split; [lia|].
Qed.

Lemma requestArguments_defined kAlignment testModel poolIndex indexes : forall cursor,
  Forall (fun i => 0 <= i < Z.of_nat (length (TestModel.operands testModel))) indexes ->
  exists args,
    requestArguments kAlignment testModel poolIndex indexes cursor = Ok args
    /\ length args = length indexes.
Proof.
  induction indexes as [|i rest IH]; intros cursor Hvalid; [by exists []|].
  apply Forall_cons in Hvalid as [Hi Hrest].
  destruct (at_defined _ _ Hi) as [op Hop]. simpl. rewrite Hop. simpl.
  destruct (IH (size_t (cursor + alignedSize kAlignment (TestOperand.data op))) Hrest)
    as (args & -> & Hlen).
  simpl. eexists. split; [reflexivity|]. simpl. by rewrite Hlen.
Qed.

Lemma createRequest_defined kAlignment testModel :
  validIndexes testModel ->
  exists request,
    createRequest kAlignment testModel = Ok request
    /\ length (Request.outputs request) = length (TestModel.outputIndexes testModel).
Proof.
  intros (Hin & Hout & _). unfold createRequest.
  destruct (requestArguments_defined kAlignment testModel 0 _ 0 Hin) as (inputs & -> & _).
  destruct (requestArguments_defined kAlignment testModel 1 _ 0 Hout) as (outputs & -> & Hlen).
  simpl. by eexists.
Qed.

Lemma validIndexes_output0 testModel :
  validIndexes testModel ->
  exists operandIndex operand,
    at_ (TestModel.outputIndexes testModel) 0 = Ok operandIndex
    /\ at_ (TestModel.operands testModel) operandIndex = Ok operand.
Proof.
  intros (_ & Hout & Hne).
  destruct (TestModel.outputIndexes testModel) as [|oi rest]; [done|].
  apply Forall_cons in Hout as [Hoi _].
  destruct (at_defined _ _ Hoi) as [op Hop]. by exists oi, op.
Qed.

Lemma makeOutputInsufficientSize_defined (request : Request.t) :
  Request.outputs request <> [] ->
  exists l request' r, makeOutputInsufficientSize 0 request = Ok (l, request', r).
Proof.
  intros Hne. unfold makeOutputInsufficientSize.
  destruct (Request.outputs request) as [|output rest] eqn:Hout; [done|].
  unfold bind, get, lift, at_, ASSERT, put. simpl. rewrite Hout. simpl.
  case_bool_decide; simpl; by eexists _, _, _.
Qed.

Lemma defined_buildRequest kAlignment {S} testModel testConfig :
  validIndexes testModel ->
  defined (buildRequest kAlignment (S:=S) testModel testConfig).
Proof.
  intros Hvalid s. unfold buildRequest.
  destruct (validIndexes_output0 _ Hvalid) as (oi & op & Hoi & Hop).
  destruct (createRequest_defined kAlignment _ Hvalid) as (request & Hreq & Hlen).
  assert (Request.outputs request <> []) as Hne.
  { destruct Hvalid as (_ & _ & Hne). intros Heq. rewrite Heq in Hlen.
    destruct (TestModel.outputIndexes testModel); done. }
  assert (exists b, isOutputSizeGreaterThanOne testModel 0 = Ok b) as [b Hb].
  { unfold isOutputSizeGreaterThanOne. rewrite Hoi. simpl. rewrite Hop. by eexists. }
  destruct (makeOutputInsufficientSize_defined request Hne) as (l & request' & r & Hm).
  rewrite Hb, Hreq.
  case_decide; [destruct b|]; unfold bind, lift, ret, return_, emit, call; simpl;
    rewrite ?Hm; by eexists _, _, _.
Qed.

Lemma defined_runExecutor conv {S} preparedModel request testConfig :
  defined (runExecutor conv (S:=S) preparedModel request testConfig).
Proof. unfold runExecutor. body_auto. Qed.

Lemma defined_runRequest kAlignment conv preparedModel testModel testConfig :
  validIndexes testModel ->
  defined (runRequest kAlignment conv preparedModel testModel testConfig).
Proof.
  intros Hvalid. unfold runRequest.
  apply defined_bind; [intros s; rewrite setSkipped_run; by eexists _, _, _|].
  intros _. apply defined_bind; [by apply defined_buildRequest|].
  intros request. apply defined_bind; [apply defined_runExecutor|].
  intros execution. apply defined_ret.
Qed.

Lemma checkOutputShapes_run {St} testModel (s : St) shapes : forall i,
  validIndexes testModel ->
  (i + length shapes <= length (TestModel.outputIndexes testModel))%nat ->
  exists l,
    checkOutputShapes testModel i shapes s = Ok (l, s, Next tt)
    /\ Forall (fun e => exists k, e = NonFatalFailure (OutputSufficient k)
                                 \/ e = NonFatalFailure (OutputDimensions k)) l.
Proof.
  induction shapes as [|shape rest IH]; intros i Hvalid Hlen; simpl in *.
  - by exists [].
  - destruct (at_defined (TestModel.outputIndexes testModel) (Z.of_nat i) ltac:(lia))
      as [oi Hoi].
    assert (0 <= oi < Z.of_nat (length (TestModel.operands testModel))) as Hrange.
    { destruct Hvalid as (_ & Hout & _). rewrite Forall_forall in Hout. apply Hout.
      apply at_Ok in Hoi as [_ Hoi]. by eapply list_elem_of_lookup_2. }
    destruct (at_defined _ _ Hrange) as [op Hop].
    destruct (IH (S i) Hvalid ltac:(lia)) as (l & Hrest & Hl).
    rewrite (bind_Next _ _ _ _ _ _ (EXPECT_run _ _ s)).
    rewrite Hoi, (bind_Next _ _ _ _ _ _ (lift_Ok oi s)).
    rewrite Hop, (bind_Next _ _ _ _ _ _ (lift_Ok op s)).
    rewrite (bind_Next _ _ _ _ _ _ (EXPECT_run _ _ s)).
    rewrite Hrest. eexists. split; [reflexivity|].
    destruct (OutputShape.isSufficient shape); case_bool_decide; simpl;
      repeat constructor; eauto.
Qed.

Lemma checkOutputType_run {St} testModel testConfig status shapes (s : St) :
  validIndexes testModel ->
  exists l r,
    checkOutputType testModel testConfig status shapes s = Ok (l, s, r)
    /\ Forall (fun e => timingEvent e = false /\ e <> Skip) l
    /\ (r = Next tt ->
        TestConfig.outputType testConfig <> INSUFFICIENT
        /\ (length shapes <= length (TestModel.outputIndexes testModel))%nat).
Proof.
  intros (_ & _ & Hne). unfold checkOutputType.
  destruct (TestConfig.outputType testConfig).
  - destruct (bool_decide (NONE = status)).
    2: { eexists _, _. split; [reflexivity|]. split; [by repeat constructor|done]. }
    rewrite (bind_Next _ _ _ _ _ _ (ASSERT_pass _ s)).
    case_bool_decide as H0; [|case_bool_decide as H1]; simpl;
      eexists _, _; (split; [reflexivity|]); (split; [by repeat constructor|]);
      try done; intros _; (split; [done|lia]).
  - destruct (bool_decide (NONE = status)).
    2: { eexists _, _. split; [reflexivity|]. split; [by repeat constructor|done]. }
    rewrite (bind_Next _ _ _ _ _ _ (ASSERT_pass _ s)).
    case_bool_decide as H1; simpl;
      eexists _, _; (split; [reflexivity|]); (split; [by repeat constructor|]);
      try done; intros _; (split; [done|lia]).
  - destruct (bool_decide (OUTPUT_INSUFFICIENT_SIZE = status)).
    2: { eexists _, _. split; [reflexivity|]. split; [by repeat constructor|done]. }
    rewrite (bind_Next _ _ _ _ _ _ (ASSERT_pass _ s)).
    case_bool_decide as H1.
    2: { eexists _, _. split; [reflexivity|]. split; [by repeat constructor|done]. }
    rewrite (bind_Next _ _ _ _ _ _ (ASSERT_pass _ s)).
    destruct shapes as [|shape0 rest].
    { destruct (TestModel.outputIndexes testModel); done. }
    rewrite (bind_Next _ _ _ _ _ _ (lift_Ok shape0 s)).
    destruct (OutputShape.isSufficient shape0); simpl;
      eexists _, _; (split; [reflexivity|]); (split; [by repeat constructor|done]).
Qed.

Lemma checkExecution_run {St} testModel testConfig execution (s : St) :
  validIndexes testModel ->
  exists l r,
    checkExecution testModel testConfig execution s
    = Ok (timingFailures testConfig (Execution.timing execution) ++ l, s, r)
    /\ Forall (fun e => timingEvent e = false /\ e <> Skip) l.
Proof.
  intros Hvalid. unfold checkExecution.
  rewrite (bind_Next _ _ _ _ _ _ (checkTiming_run testConfig _ s)).
  destruct (checkOutputType_run testModel testConfig (Execution.status execution)
              (Execution.outputShapes execution) s Hvalid) as (l1 & r1 & Htype & Hl1 & Hnext).
  destruct r1 as [[]|].
  - rewrite (bind_Next _ _ _ _ _ _ Htype).
    destruct (Hnext eq_refl) as [_ Hlen].
    destruct (checkOutputShapes_run testModel s (Execution.outputShapes execution) 0
                Hvalid ltac:(lia)) as (l2 & Hshapes & Hl2).
    rewrite (bind_Next _ _ _ _ _ _ Hshapes).
    eexists _, _. split; [reflexivity|].
    apply Forall_app. split; [exact Hl1|]. apply Forall_app. split.
    + eapply Forall_impl; [exact Hl2|]. intros e [k [->| ->]]; done.
    + by repeat constructor.
  - rewrite (bind_Returned _ _ _ _ _ Htype).
    eexists _, _. split; [reflexivity|]. exact Hl1.
Qed.

Lemma keeps_checkOutputShapes {St} testModel shapes : forall i,
  keeps (checkOutputShapes (St:=St) testModel i shapes).
Proof. induction shapes as [|shape rest IH]; intros i; simpl; body_auto. Qed.

Lemma logs_checkOutputShapes {St} (P : Event -> Prop) testModel shapes :
  (forall k, P (NonFatalFailure (OutputSufficient k))) ->
  (forall k, P (NonFatalFailure (OutputDimensions k))) ->
  forall i, logs P (checkOutputShapes (St:=St) testModel i shapes).
Proof.
  intros Hsufficient Hdimensions.
  induction shapes as [|shape rest IH]; intros i; simpl; body_auto.
Qed.

Lemma keeps_checkExecution {St} testModel testConfig execution :
  keeps (checkExecution (S:=St) testModel testConfig execution).
Proof.
  unfold checkExecution, checkTiming, checkOutputType.
  pose proof (@keeps_checkOutputShapes St testModel). body_auto.
Qed.

Lemma logs_checkExecution {St} testModel testConfig execution :
  logs (fun e => checkEvent e = true)
       (checkExecution (S:=St) testModel testConfig execution).
Proof.
  unfold checkExecution, checkTiming, checkOutputType.
  pose proof (@logs_checkOutputShapes St (fun e => checkEvent e = true) testModel) as Hs.
  body_auto; apply Hs; reflexivity.
Qed.

(** Whatever follows the timing check logs no failure of a timing assertion. *)
Lemma checkExecution_timing {St} testModel testConfig execution (s : St) l s' r :
  checkExecution testModel testConfig execution s = Ok (l, s', r) ->
  exists rest,
    l = timingFailures testConfig (Execution.timing execution) ++ rest
    /\ Forall (fun e => timingEvent e = false) rest.
Proof.
  unfold checkExecution.
  rewrite (bind_Next _ _ _ _ _ _ (checkTiming_run testConfig _ s)).
  match goal with
  | |- match ?tail s with _ => _ end = _ -> _ =>
      assert (logs (fun e => timingEvent e = false) tail) as Htail;
      [|destruct (tail s) as [[[l1 s1] r1]| |] eqn:Hrun; [|done..]]
  end.
  { unfold checkOutputType.
    pose proof (@logs_checkOutputShapes St (fun e => timingEvent e = false) testModel) as Hs.
    body_auto; apply Hs; reflexivity. }
  intros [= <- <- <-]. exists l1. split; [reflexivity|]. by eapply Htail.
Qed.

Lemma timingFailures_spec (testConfig : TestConfig.t) (timing : Timing.t) :
  ((NonFatalFailure TimeOnDeviceUnknown ∈ timingFailures testConfig timing) <->
   TestConfig.measureTiming testConfig = NO /\ Timing.timeOnDevice timing <> UINT64_MAX)
  /\ ((NonFatalFailure TimeInDriverUnknown ∈ timingFailures testConfig timing) <->
      TestConfig.measureTiming testConfig = NO /\ Timing.timeInDriver timing <> UINT64_MAX)
  /\ ((NonFatalFailure TimeOnDeviceLeInDriver ∈ timingFailures testConfig timing) <->
      TestConfig.measureTiming testConfig = YES
      /\ Timing.timeOnDevice timing <> UINT64_MAX
      /\ Timing.timeInDriver timing <> UINT64_MAX
      /\ ~ Timing.timeOnDevice timing <= Timing.timeInDriver timing).
Proof.
  unfold timingFailures.
  destruct (TestConfig.measureTiming testConfig); repeat case_decide; simpl;
    (split; [|split]); (split; [intros Hin | intros Hc]);
    first [ by elem_absurd Hin
          | solve [elem_here]
          | solve [repeat split; first [done | tauto | lia]]
          | exfalso; intuition congruence ].
Qed.

(** C6.  For every evaluation, with any of the three executors, whose
    execution is not skipped before the timing check, a failure of a timing
    assertion is logged in exactly these cases: with timing measurement off,
    one for each of the two timing fields that is not the sentinel
    [UINT64_MAX]; with timing measurement on, one when both fields differ from
    the sentinel and the time on the device exceeds the time in the driver.
    On a model with valid indexes such an evaluation does run to an end. *)
Theorem timing_check kAlignment conv preparedModel testModel testConfig
    skipped l0 skipped1 request execution :
  runRequest kAlignment conv preparedModel testModel testConfig skipped
  = Ok (l0, skipped1, Next (request, execution)) ->
  TestConfig.outputType testConfig = FULLY_SPECIFIED
  \/ Execution.status execution <> GENERAL_FAILURE ->
  (forall l skipped2 r,
     EvaluatePreparedModel kAlignment conv preparedModel testModel testConfig skipped
     = Ok (l, skipped2, r) ->
     ((NonFatalFailure TimeOnDeviceUnknown ∈ l) <->
      TestConfig.measureTiming testConfig = NO
      /\ Timing.timeOnDevice (Execution.timing execution) <> UINT64_MAX)
     /\ ((NonFatalFailure TimeInDriverUnknown ∈ l) <->
         TestConfig.measureTiming testConfig = NO
         /\ Timing.timeInDriver (Execution.timing execution) <> UINT64_MAX)
     /\ ((NonFatalFailure TimeOnDeviceLeInDriver ∈ l) <->
         TestConfig.measureTiming testConfig = YES
         /\ Timing.timeOnDevice (Execution.timing execution) <> UINT64_MAX
         /\ Timing.timeInDriver (Execution.timing execution) <> UINT64_MAX
         /\ ~ Timing.timeOnDevice (Execution.timing execution)
              <= Timing.timeInDriver (Execution.timing execution)))
  /\ (validIndexes testModel ->
      exists l r,
        EvaluatePreparedModel kAlignment conv preparedModel testModel testConfig skipped
        = Ok (l, skipped1, r)).
Proof.
  intros Hrun Hpass.
  pose proof (runRequest_events _ _ _ _ _ _ _ _ _ Hrun) as Hl0.
  assert (EvaluatePreparedModel kAlignment conv preparedModel testModel testConfig skipped
          = match checkExecution testModel testConfig execution skipped1 with
            | Ok (l, s, r) => Ok (l0 ++ l, s, r)
            | Aborted => Aborted
            | Undefined => Undefined
            end) as Heval.
  { unfold EvaluatePreparedModel. rewrite (bind_Next _ _ _ _ _ _ Hrun). cbn [snd].
    rewrite (bind_Next _ _ _ _ _ _ (skipUnsupported_pass testConfig _ skipped1 Hpass)).
    by destruct (checkExecution testModel testConfig execution skipped1)
      as [[[l s] r]| |]. }
  rewrite Heval. split.
  - intros l skipped2 r.
    destruct (checkExecution testModel testConfig execution skipped1)
      as [[[l1 s1] r1]| |] eqn:Hcheck; [|done..].
    intros [= <- <- <-].
    destruct (checkExecution_timing _ _ _ _ _ _ _ Hcheck) as (rest & -> & Hrest).
    assert (forall e, timingEvent e = true ->
              e ∈ l0 ++ timingFailures testConfig (Execution.timing execution) ++ rest
              <-> e ∈ timingFailures testConfig (Execution.timing execution)) as Hmid.
    { intros e He. rewrite !elem_of_app. split; [|tauto].
      rewrite Forall_forall in Hl0. rewrite Forall_forall in Hrest.
      intros [Hin|[Hin|Hin]]; [apply Hl0 in Hin|exact Hin|apply Hrest in Hin].
      - destruct e as [[]|[]| | | |[]]; done.
      - congruence. }
    rewrite !Hmid by reflexivity. apply timingFailures_spec.
  - intros Hvalid.
    destruct (checkExecution_run testModel testConfig execution skipped1 Hvalid)
      as (l1 & r & -> & _).
    by eexists _, _.
Qed.

Lemma timing_check_witness :
  exists l,
    EvaluatePreparedModel 64 sampleConvert (answers succeeded) vectorModel
      (TestConfig.mk3 SYNC YES FULLY_SPECIFIED) None
    = Ok (l, None, Next tt)
    /\ (NonFatalFailure TimeOnDeviceLeInDriver ∈ l).
Proof.
  destruct (timing_check 64 sampleConvert (answers succeeded) vectorModel
              (TestConfig.mk3 SYNC YES FULLY_SPECIFIED) None
              [Called createRequest_; Called executeSynchronously_1_3_] None
              (Request.mk
                 [RequestArgument.mk false (DataLocation.mk 0 0 16) []]
                 [RequestArgument.mk false (DataLocation.mk 1 0 16) []] [])
              succeeded eq_refl (or_introl eq_refl))
    as [Hiff _].
  eexists. split; [reflexivity|].
  eapply (proj2 (proj2 (Hiff _ _ _ eq_refl))).
  repeat split; try discriminate. simpl. lia.
Defined.

(** ** Properties of the request builder *)

Lemma makeOutputInsufficientSize_run (i : Z) (request : Request.t)
    (output : RequestArgument.t) :
  at_ (Request.outputs request) i = Ok output ->
  makeOutputInsufficientSize i request
  = if bool_decide (DataLocation.length (RequestArgument.location output) > 1)
    then Ok ([], withOutputLength request i output
                   (uint32 (DataLocation.length (RequestArgument.location output) - 1)),
             Next tt)
    else Ok ([FatalFailure LengthGreaterThanOne], request, Returned).
Proof.
  intros Hat. unfold makeOutputInsufficientSize.
  rewrite (bind_Next _ _ _ _ _ _ (eq_refl : get request = Ok ([], request, Next request))).
  rewrite Hat, (bind_Next _ _ _ _ _ _ (lift_Ok output request)).
  case_bool_decide; reflexivity.
Qed.

Lemma withOutputLength_at (request : Request.t) (i : Z) (output : RequestArgument.t)
    (length : Z) :
  at_ (Request.outputs request) i = Ok output ->
  at_ (Request.outputs (withOutputLength request i output length)) i
  = Ok (setLength output length).
Proof.
  intros [Hi Hat]%at_Ok. apply at_Ok. split; [exact Hi|]. simpl.
  apply list_lookup_insert_eq. by eapply lookup_lt_Some.
Qed.

(** C8 (as amended).  [makeOutputInsufficientSize] is not idempotent.  On a
    request whose addressed output has a byte length [n > 1] (a [uint32_t]),
    one application sets that length to [n - 1] and changes nothing else; a
    second application fails its assertion and changes nothing when [n = 2],
    and sets the length to [n - 2], a different request, when [n > 2]. *)
Theorem makeOutputInsufficientSize_twice (outputIndex : Z) (request : Request.t)
    (output : RequestArgument.t) (n : Z) :
  at_ (Request.outputs request) outputIndex = Ok output ->
  DataLocation.length (RequestArgument.location output) = n ->
  1 < n <= UINT32_MAX ->
  makeOutputInsufficientSize outputIndex request
  = Ok ([], withOutputLength request outputIndex output (n - 1), Next tt)
  /\ (n = 2 ->
      (makeOutputInsufficientSize outputIndex ;; makeOutputInsufficientSize outputIndex)
        request
      = Ok ([FatalFailure LengthGreaterThanOne],
            withOutputLength request outputIndex output (n - 1), Returned))
  /\ (2 < n ->
      (makeOutputInsufficientSize outputIndex ;; makeOutputInsufficientSize outputIndex)
        request
      = Ok ([], withOutputLength request outputIndex output (n - 2), Next tt)
      /\ withOutputLength request outputIndex output (n - 2)
         <> withOutputLength request outputIndex output (n - 1)).
Proof.
  intros Hat Hn Hrange.
  assert (makeOutputInsufficientSize outputIndex request
          = Ok ([], withOutputLength request outputIndex output (n - 1), Next tt)) as Honce.
  { rewrite (makeOutputInsufficientSize_run _ _ _ Hat), Hn.
    rewrite bool_decide_eq_true_2 by lia. rewrite uint32_small by lia. reflexivity. }
  pose proof (withOutputLength_at request outputIndex output (n - 1) Hat) as Hat1.
  split; [exact Honce|]. split.
  - intros ->. rewrite (bind_Next _ _ _ _ _ _ Honce).
    rewrite (makeOutputInsufficientSize_run _ _ _ Hat1). simpl.
    reflexivity.
  - intros Hgt. split.
    + rewrite (bind_Next _ _ _ _ _ _ Honce).
      rewrite (makeOutputInsufficientSize_run _ _ _ Hat1). simpl.
      rewrite bool_decide_eq_true_2 by lia. rewrite uint32_small by lia.
      unfold withOutputLength, setLength. simpl.
      rewrite list_insert_insert_eq.
      replace (n - 1 - 1) with (n - 2) by lia. reflexivity.
    + intros Heq.
      pose proof (withOutputLength_at request outputIndex output (n - 2) Hat) as Hat2.
      rewrite Heq, Hat1 in Hat2. injection Hat2. lia.
Qed.

Lemma makeOutputInsufficientSize_twice_witness :
  makeOutputInsufficientSize 0 (sampleRequest 2) = Ok ([], sampleRequest 1, Next tt)
  /\ (makeOutputInsufficientSize 0 ;; makeOutputInsufficientSize 0) (sampleRequest 2)
     = Ok ([FatalFailure LengthGreaterThanOne], sampleRequest 1, Returned).
Proof.
  destruct (makeOutputInsufficientSize_twice 0 (sampleRequest 2)
              (RequestArgument.mk false (DataLocation.mk 1 0 2) []) 2
              eq_refl eq_refl ltac:(unfold UINT32_MAX; lia)) as (Honce & Htwo & _).
  split; [exact Honce | exact (Htwo eq_refl)].
Defined.

(** C8, counterexample.  On an output of 3 bytes, one application leaves 2
    bytes and two applications leave 1 byte. *)
Lemma makeOutputInsufficientSize_not_idempotent :
  makeOutputInsufficientSize 0 (sampleRequest 3) = Ok ([], sampleRequest 2, Next tt)
  /\ (makeOutputInsufficientSize 0 ;; makeOutputInsufficientSize 0) (sampleRequest 3)
     = Ok ([], sampleRequest 1, Next tt)
  /\ (sampleRequest 1 = sampleRequest 2 -> False).
Proof. repeat split. discriminate. Qed.









(** ** Properties of the coupled evaluation *)

Lemma bind_assoc {S A B C} (m : Body S A) (f : A -> Body S B) (g : B -> Body S C) s :
  bind (bind m f) g s = bind m (fun a => bind (f a) g) s.
Proof.
  unfold bind. destruct (m s) as [[[l1 s1] [a|]]| |]; try reflexivity.
  destruct (f a s1) as [[[l2 s2] [b|]]| |]; try reflexivity.
  destruct (g b s2) as [[[l3 s3] r]| |]; try reflexivity.
  by rewrite app_assoc.
Qed.

Lemma bind_ret_r {S} (m : Body S unit) s : bind m (fun _ => ret tt) s = m s.
Proof.
  unfold bind, ret. destruct (m s) as [[[l1 s1] [[]|]]| |]; try reflexivity.
  by rewrite app_nil_r.
Qed.

Lemma bind_ext {S A B} (m : Body S A) (f g : A -> Body S B) s :
  (forall a s', f a s' = g a s') -> bind m f s = bind m g s.
Proof.
  intros Hfg. unfold bind. destruct (m s) as [[[l1 s1] [a|]]| |]; try reflexivity.
  by rewrite Hfg.
Qed.

Lemma for_each_app {S A} (l1 l2 : list A) (body : A -> Body S unit) s :
  for_each (l1 ++ l2) body s = bind (for_each l1 body) (fun _ => for_each l2 body) s.
Proof.
  revert s. induction l1 as [|x l1 IH]; intros s; simpl.
  - unfold bind, ret. destruct (for_each l2 body s) as [[[l s'] r]| |]; reflexivity.
  - rewrite bind_assoc. apply bind_ext. intros _ s'. apply IH.
Qed.

Lemma EvaluatePreparedCoupledModels_flat kAlignment conv preparedModel testModel
    preparedCoupledModel coupledModel s :
  EvaluatePreparedCoupledModels kAlignment conv preparedModel testModel
    preparedCoupledModel coupledModel s
  = for_each coupledConfigs
      (evaluateCoupledPair kAlignment conv preparedModel testModel
         preparedCoupledModel coupledModel) s.
Proof.
  unfold EvaluatePreparedCoupledModels.
  change coupledConfigs with
    ([TestConfig.mk ASYNC NO FULLY_SPECIFIED false;
      TestConfig.mk SYNC NO FULLY_SPECIFIED false;
      TestConfig.mk BURST NO FULLY_SPECIFIED false]
     ++ [TestConfig.mk ASYNC YES FULLY_SPECIFIED false;
         TestConfig.mk SYNC YES FULLY_SPECIFIED false;
         TestConfig.mk BURST YES FULLY_SPECIFIED false]).
  rewrite for_each_app.
  cbn [for_each]. rewrite bind_ret_r.
  apply bind_ext. intros _ s'. apply bind_ret_r.
Qed.

Lemma coupledConfigs_fully_specified (testConfig : TestConfig.t) :
  testConfig ∈ coupledConfigs ->
  TestConfig.outputType testConfig = FULLY_SPECIFIED
  /\ TestConfig.reportSkipping testConfig = false.
Proof.
  intros Hin. unfold coupledConfigs in Hin. simpl in Hin.
  repeat (apply elem_of_cons in Hin as [->|Hin]; [by split|]).
  by apply elem_of_nil in Hin.
Qed.

Lemma for_each_falls_through {S A} (P : Event -> Prop) (l : list A)
    (body : A -> Body S unit) :
  (forall x, x ∈ l -> forall s l' s' r,
     body x s = Ok (l', s', r) -> Forall P l' /\ r = Next tt) ->
  forall s l' s' r,
    for_each l body s = Ok (l', s', r) -> Forall P l' /\ r = Next tt.
Proof.
  induction l as [|x l IH]; intros Hbody s l' s' r Hrun; simpl in Hrun.
  - injection Hrun as <- <- <-. by split.
  - apply bind_inv in Hrun as [[Hx ->]|(l1 & s1 & [] & l2 & Hx & Hrest & ->)].
    + by destruct (Hbody x ltac:(elem_here) _ _ _ _ Hx).
    + destruct (Hbody x ltac:(elem_here) _ _ _ _ Hx) as [Hl1 _].
      destruct (IH (fun y Hy => Hbody y ltac:(by right)) _ _ _ _ Hrest) as [Hl2 ->].
      split; [by apply Forall_app|reflexivity].
Qed.

Lemma runRequest_state kAlignment conv preparedModel testModel testConfig sk l sk' r :
  runRequest kAlignment conv preparedModel testModel testConfig sk = Ok (l, sk', r) ->
  sk' = (fun _ => false) <$> sk.
Proof.
  unfold runRequest. intros Hrun.
  rewrite (bind_Next _ _ _ _ _ _ (setSkipped_run false sk)) in Hrun.
  match type of Hrun with
  | match ?m with _ => _ end = _ => destruct m as [[[l0 s0] r0]| |] eqn:Hrest; [|done..]
  end.
  injection Hrun as <- <- <-.
  assert (keeps (S:=option bool)
            (request <- buildRequest kAlignment testModel testConfig ;;
             execution <- runExecutor conv preparedModel request testConfig ;;
             ret (request, execution))) as Hkeeps.
  { apply keeps_bind; [apply keeps_buildRequest|]. intros request.
    apply keeps_bind; [apply keeps_runExecutor|]. intros execution. apply keeps_ret. }
  by apply Hkeeps in Hrest.
Qed.

Lemma EvaluatePreparedModel_fully_specified kAlignment conv preparedModel testModel
    testConfig skipped l skipped' r :
  TestConfig.outputType testConfig = FULLY_SPECIFIED ->
  EvaluatePreparedModel kAlignment conv preparedModel testModel testConfig skipped
  = Ok (l, skipped', r) ->
  skipped' = (fun _ => false) <$> skipped
  /\ Forall (fun e => requestEvent e || checkEvent e = true) l.
Proof.
  intros Hfs Hrun. unfold EvaluatePreparedModel in Hrun.
  apply bind_inv in Hrun as [[Hreq _]|(l1 & s1 & [request execution] & l2 & Hreq & Hrest & ->)].
  - split; [by eapply runRequest_state|].
    eapply Forall_impl; [by eapply runRequest_events|].
    intros e He. cbn beta in He. by rewrite He.
  - pose proof (runRequest_state _ _ _ _ _ _ _ _ _ Hreq) as Hs1.
    pose proof (runRequest_events _ _ _ _ _ _ _ _ _ Hreq) as Hl1.
    cbn [snd] in Hrest.
    rewrite (bind_Next _ _ _ _ _ _
               (skipUnsupported_pass testConfig _ s1 (or_introl Hfs))) in Hrest.
    destruct (checkExecution testModel testConfig execution s1)
      as [[[l3 s3] r3]| |] eqn:Hcheck; [|done..].
    injection Hrest as <- <- <-.
    pose proof (keeps_checkExecution _ _ _ _ _ _ _ Hcheck) as ->.
    pose proof (logs_checkExecution _ _ _ _ _ _ _ Hcheck) as Hl3.
    split; [exact Hs1|]. apply Forall_app. split.
    + eapply Forall_impl; [exact Hl1|]. intros e He. cbn beta in He. by rewrite He.
    + simpl. eapply Forall_impl; [exact Hl3|]. intros e He. cbn beta in He.
      rewrite He. apply orb_true_r.
Qed.

Lemma EvaluatePreparedModel_raises_flag kAlignment conv preparedModel testModel
    testConfig (b : bool) l r :
  EvaluatePreparedModel kAlignment conv preparedModel testModel testConfig (Some b)
  = Ok (l, Some true, r) ->
  TestConfig.outputType testConfig <> FULLY_SPECIFIED
  /\ exists l0 request execution,
       runRequest kAlignment conv preparedModel testModel testConfig (Some b)
       = Ok (l0, Some false, Next (request, execution))
       /\ Execution.status execution = GENERAL_FAILURE.
Proof.
  intros Hrun. unfold EvaluatePreparedModel in Hrun.
  apply bind_inv in Hrun as [[Hreq _]|(l1 & s1 & [request execution] & l2 & Hreq & Hrest & ->)].
  { by apply runRequest_state in Hreq. }
  pose proof (runRequest_state _ _ _ _ _ _ _ _ _ Hreq) as Hs1. simpl in Hs1. subst s1.
  cbn [snd] in Hrest.
  destruct (decide (TestConfig.outputType testConfig = FULLY_SPECIFIED
                    \/ Execution.status execution <> GENERAL_FAILURE)) as [Hpass|Hskip].
  - rewrite (bind_Next _ _ _ _ _ _
               (skipUnsupported_pass testConfig _ (Some false) Hpass)) in Hrest.
    destruct (checkExecution testModel testConfig execution (Some false))
      as [[[l3 s3] r3]| |] eqn:Hcheck; [|done..].
    injection Hrest as <- Hs <-.
    by pose proof (keeps_checkExecution _ _ _ _ _ _ _ Hcheck) as ->.
  - split; [tauto|]. exists l1, request, execution. split; [exact Hreq|].
    destruct (decide (Execution.status execution = GENERAL_FAILURE)); tauto.
Qed.

Lemma defined_EvaluatePreparedModel kAlignment conv preparedModel testModel testConfig :
  validIndexes testModel ->
  defined (EvaluatePreparedModel kAlignment conv preparedModel testModel testConfig).
Proof.
  intros Hvalid s. unfold EvaluatePreparedModel.
  destruct (defined_runRequest kAlignment conv preparedModel testModel testConfig
              Hvalid s) as (l1 & s1 & [[request execution]|] & Hreq).
  2: { rewrite (bind_Returned _ _ _ _ _ Hreq). by eexists _, _, _. }
  rewrite (bind_Next _ _ _ _ _ _ Hreq). cbn [snd].
  destruct (decide (TestConfig.outputType testConfig = FULLY_SPECIFIED
                    \/ Execution.status execution <> GENERAL_FAILURE)) as [Hpass|Hskip].
  - rewrite (bind_Next _ _ _ _ _ _
               (skipUnsupported_pass testConfig _ s1 Hpass)).
    destruct (checkExecution_run testModel testConfig execution s1 Hvalid)
      as (l3 & r3 & -> & _).
    by eexists _, _, _.
  - assert (Execution.status execution = GENERAL_FAILURE) as ->.
    { destruct (decide (Execution.status execution = GENERAL_FAILURE)); tauto. }
    rewrite (bind_Returned _ _ _ _ _
               (skipUnsupported_skip testConfig s1 ltac:(tauto))).
    by eexists _, _, _.
Qed.

Lemma evaluateCoupledPair_fully_specified kAlignment conv preparedModel testModel
    preparedCoupledModel coupledModel testConfig s l s' r :
  TestConfig.outputType testConfig = FULLY_SPECIFIED ->
  evaluateCoupledPair kAlignment conv preparedModel testModel preparedCoupledModel
    coupledModel testConfig s = Ok (l, s', r) ->
  Forall (fun e => requestEvent e || checkEvent e = true) l /\ r = Next tt.
Proof.
  intros Hfs. unfold evaluateCoupledPair, bind at 1, call at 1.
  destruct (EvaluatePreparedModel kAlignment conv preparedModel testModel testConfig
              (Some false)) as [[[l1 s1] r1]| |] eqn:Hbase; [|done..].
  destruct (EvaluatePreparedModel_fully_specified _ _ _ _ _ _ _ _ _ Hfs Hbase)
    as [-> Hl1].
  unfold bind at 1, call at 1.
  destruct (EvaluatePreparedModel kAlignment conv preparedCoupledModel coupledModel
              testConfig (Some false)) as [[[l2 s2] r2]| |] eqn:Hcoupled; [|done..].
  destruct (EvaluatePreparedModel_fully_specified _ _ _ _ _ _ _ _ _ Hfs Hcoupled)
    as [-> Hl2].
  simpl. intros [= <- <- <-].
  split; [|reflexivity]. rewrite !app_nil_r. by apply Forall_app.
Qed.

Lemma defined_evaluateCoupledPair kAlignment conv preparedModel testModel
    preparedCoupledModel coupledModel testConfig :
  validIndexes testModel -> validIndexes coupledModel ->
  defined (evaluateCoupledPair kAlignment conv preparedModel testModel
             preparedCoupledModel coupledModel testConfig).
Proof.
  intros Hbase Hcoupled. unfold evaluateCoupledPair.
  apply defined_bind; [by apply defined_call, defined_EvaluatePreparedModel|].
  intros baseSkipped.
  apply defined_bind; [by apply defined_call, defined_EvaluatePreparedModel|].
  intros coupledSkipped. body_auto.
Qed.

(** C9.  In a coupled evaluation every configuration has the FULLY_SPECIFIED
    policy (and skip reporting off); the evaluator leaves the skipped flag
    raised only when the policy is not FULLY_SPECIFIED and the execution came
    back with GENERAL_FAILURE, and under FULLY_SPECIFIED it leaves the flag
    down; therefore the coupled evaluation goes through all its
    configurations without ever failing the assertion that both flags are
    alike and without ever taking its skip branch -- and on models with valid
    indexes it does run to its end. *)
Theorem coupled_evaluation_never_skips kAlignment conv preparedModel testModel
    preparedCoupledModel coupledModel :
  (forall s,
     EvaluatePreparedCoupledModels kAlignment conv preparedModel testModel
       preparedCoupledModel coupledModel s
     = for_each coupledConfigs
         (evaluateCoupledPair kAlignment conv preparedModel testModel
            preparedCoupledModel coupledModel) s)
  /\ Forall (fun testConfig => TestConfig.outputType testConfig = FULLY_SPECIFIED)
            coupledConfigs
  /\ (forall model handle testConfig (b : bool) l r,
        EvaluatePreparedModel kAlignment conv handle model testConfig (Some b)
        = Ok (l, Some true, r) ->
        TestConfig.outputType testConfig <> FULLY_SPECIFIED
        /\ exists l0 request execution,
             runRequest kAlignment conv handle model testConfig (Some b)
             = Ok (l0, Some false, Next (request, execution))
             /\ Execution.status execution = GENERAL_FAILURE)
  /\ (forall model handle testConfig (b : bool) l skipped r,
        TestConfig.outputType testConfig = FULLY_SPECIFIED ->
        EvaluatePreparedModel kAlignment conv handle model testConfig (Some b)
        = Ok (l, skipped, r) ->
        skipped = Some false)
  /\ (forall l s r,
        EvaluatePreparedCoupledModels kAlignment conv preparedModel testModel
          preparedCoupledModel coupledModel tt = Ok (l, s, r) ->
        r = Next tt
        /\ (FatalFailure SkippedAlike ∉ l)
        /\ (Skip ∉ l)
        /\ (LogInfo CannotExecute ∉ l)
        /\ (Cout CannotExecute ∉ l))
  /\ (validIndexes testModel -> validIndexes coupledModel ->
      exists l,
        EvaluatePreparedCoupledModels kAlignment conv preparedModel testModel
          preparedCoupledModel coupledModel tt = Ok (l, tt, Next tt)).
Proof.
  split; [apply EvaluatePreparedCoupledModels_flat|].
  split; [apply Forall_forall; intros c Hc; by apply coupledConfigs_fully_specified|].
  split; [intros model handle testConfig b l r; apply EvaluatePreparedModel_raises_flag|].
  split.
  { intros model handle testConfig b l skipped r Hfs Hrun.
    by destruct (EvaluatePreparedModel_fully_specified _ _ _ _ _ _ _ _ _ Hfs Hrun). }
  assert (forall l s r,
    EvaluatePreparedCoupledModels kAlignment conv preparedModel testModel
      preparedCoupledModel coupledModel tt = Ok (l, s, r) ->
    Forall (fun e => requestEvent e || checkEvent e = true) l /\ r = Next tt) as Hloop.
  { intros l s r. rewrite EvaluatePreparedCoupledModels_flat.
    apply for_each_falls_through. intros testConfig Hin s0 l' s' r'.
    apply evaluateCoupledPair_fully_specified.
    by apply coupledConfigs_fully_specified. }
  split.
  - intros l s r Hrun. destruct (Hloop l s r Hrun) as [Hl ->].
    rewrite Forall_forall in Hl.
    split; [reflexivity|]. repeat split; intros Hin; by apply Hl in Hin.
  - intros Hbase Hcoupled.
    destruct (defined_for_each coupledConfigs
                (evaluateCoupledPair kAlignment conv preparedModel testModel
                   preparedCoupledModel coupledModel)
                (fun c => defined_evaluateCoupledPair _ _ _ _ _ _ c Hbase Hcoupled) tt)
      as (l & [] & r & Hrun).
    rewrite <- EvaluatePreparedCoupledModels_flat in Hrun.
    destruct (Hloop l tt r Hrun) as [_ ->]. by exists l.
Qed.

(** ** Properties of the entry point *)

Lemma prepare_run {IDevice : Type}
    (createPreparedModel : IDevice -> Model.t -> bool -> list Event * option IPreparedModel.t)
    (device : IDevice) (model : Model.t) (reportSkipping : bool) (s : unit) :
  prepare IDevice createPreparedModel device model reportSkipping s
  = Ok (Called createPreparedModel_ :: (createPreparedModel device model reportSkipping).1,
        s, Next (createPreparedModel device model reportSkipping).2).
Proof.
  unfold prepare. rewrite (bind_Next _ _ _ _ _ _ (emit_run _ s)).
  destruct (createPreparedModel device model reportSkipping) as [logged handle].
  rewrite (bind_Next _ _ _ _ _ _ (for_each_emit logged s)). simpl.
  by rewrite app_nil_r.
Qed.

Section EntryPoint.

Variable kAlignment : Z.
Variable allocateSharedMemory : Z -> hidl_memory.
Variable convertResultCodeToErrorStatus : Z -> ErrorStatus.
Variable hasQuant8CoupledOperands : TestModel.t -> bool.
Variable convertQuant8AsymmOperandsToSigned : TestModel.t -> TestModel.t.
Variable IDevice : Type.
Variable createPreparedModel :
  IDevice -> Model.t -> bool -> list Event * option IPreparedModel.t.

Lemma Execute_coupling_run device testModel model coupledModel :
  hasQuant8CoupledOperands testModel = true ->
  createModel kAlignment allocateSharedMemory testModel = Ok model ->
  createModel kAlignment allocateSharedMemory
    (convertQuant8AsymmOperandsToSigned testModel) = Ok coupledModel ->
  Execute kAlignment allocateSharedMemory convertResultCodeToErrorStatus
    hasQuant8CoupledOperands convertQuant8AsymmOperandsToSigned IDevice
    createPreparedModel device testModel QUANTIZATION_COUPLING tt
  = match (createPreparedModel device model false).2,
          (createPreparedModel device coupledModel false).2 with
    | None, None =>
        Ok (preparations createPreparedModel device model coupledModel
            ++ [LogInfo CannotPrepare; Cout CannotPrepare; Skip], tt, Returned)
    | None, Some _ =>
        Ok (preparations createPreparedModel device model coupledModel
            ++ [FatalFailure CoupledNotPrepared], tt, Returned)
    | Some _, None =>
        Ok (preparations createPreparedModel device model coupledModel
            ++ [FatalFailure CoupledPrepared], tt, Returned)
    | Some preparedModel, Some preparedCoupledModel =>
        match EvaluatePreparedCoupledModels kAlignment convertResultCodeToErrorStatus
                preparedModel testModel preparedCoupledModel
                (convertQuant8AsymmOperandsToSigned testModel) tt with
        | Ok (l, _, _) =>
            Ok (preparations createPreparedModel device model coupledModel ++ l,
                tt, Next tt)
        | Aborted => Aborted
        | Undefined => Undefined
        end
    end.
Proof.
  intros Hq Hmodel Hcoupled. unfold Execute, preparations.
  rewrite Hmodel, (bind_Next _ _ _ _ _ _ (lift_Ok model tt)).
  rewrite decide_False by discriminate.
  rewrite (bind_Next _ _ _ _ _ _ (eq_refl : ret model tt = Ok ([], tt, Next model))).
  rewrite Hq, (bind_Next _ _ _ _ _ _ (ASSERT_pass _ tt)).
  rewrite (bind_Next _ _ _ _ _ _ (prepare_run createPreparedModel device model false tt)).
  rewrite Hcoupled, (bind_Next _ _ _ _ _ _ (lift_Ok coupledModel tt)).
  rewrite (bind_Next _ _ _ _ _ _
             (prepare_run createPreparedModel device coupledModel false tt)).
  destruct (createPreparedModel device model false) as [l1 [pm1|]];
    destruct (createPreparedModel device coupledModel false) as [l2 [pm2|]];
    cbn [fst snd isNull negb];
    unfold bind, ret, call, ASSERT, emit, GTEST_SKIP, return_; cbn [app];
    try (rewrite <- ?app_assoc; reflexivity).
  destruct (EvaluatePreparedCoupledModels _ _ _ _ _ _ tt) as [[[l []] r]| |];
    simpl; try reflexivity.
  by rewrite <- app_assoc.
Qed.


(** C3.  In a quantization-coupling run on a model with coupled operands,
    after the two preparations: when neither model is prepared, [Execute]
    logs a skip and no failure and returns; when exactly one of the two
    handles is null, it logs a fatal failure and returns; when both models are
    prepared, it goes on with the coupled evaluation. *)
Theorem coupled_preparation_symmetry device testModel model coupledModel :
  hasQuant8CoupledOperands testModel = true ->
  createModel kAlignment allocateSharedMemory testModel = Ok model ->
  createModel kAlignment allocateSharedMemory
    (convertQuant8AsymmOperandsToSigned testModel) = Ok coupledModel ->
  ((createPreparedModel device model false).2 = None ->
   (createPreparedModel device coupledModel false).2 = None ->
   Execute kAlignment allocateSharedMemory convertResultCodeToErrorStatus
     hasQuant8CoupledOperands convertQuant8AsymmOperandsToSigned IDevice
     createPreparedModel device testModel QUANTIZATION_COUPLING tt
   = Ok (preparations createPreparedModel device model coupledModel
         ++ [LogInfo CannotPrepare; Cout CannotPrepare; Skip], tt, Returned))
  /\ ((createPreparedModel device model false).2 = None ->
      is_Some (createPreparedModel device coupledModel false).2 ->
      Execute kAlignment allocateSharedMemory convertResultCodeToErrorStatus
        hasQuant8CoupledOperands convertQuant8AsymmOperandsToSigned IDevice
        createPreparedModel device testModel QUANTIZATION_COUPLING tt
      = Ok (preparations createPreparedModel device model coupledModel
            ++ [FatalFailure CoupledNotPrepared], tt, Returned))
  /\ (is_Some (createPreparedModel device model false).2 ->
      (createPreparedModel device coupledModel false).2 = None ->
      Execute kAlignment allocateSharedMemory convertResultCodeToErrorStatus
        hasQuant8CoupledOperands convertQuant8AsymmOperandsToSigned IDevice
        createPreparedModel device testModel QUANTIZATION_COUPLING tt
      = Ok (preparations createPreparedModel device model coupledModel
            ++ [FatalFailure CoupledPrepared], tt, Returned))
  /\ (forall preparedModel preparedCoupledModel l s r,
        (createPreparedModel device model false).2 = Some preparedModel ->
        (createPreparedModel device coupledModel false).2 = Some preparedCoupledModel ->
        EvaluatePreparedCoupledModels kAlignment convertResultCodeToErrorStatus
          preparedModel testModel preparedCoupledModel
          (convertQuant8AsymmOperandsToSigned testModel) tt = Ok (l, s, r) ->
        Execute kAlignment allocateSharedMemory convertResultCodeToErrorStatus
          hasQuant8CoupledOperands convertQuant8AsymmOperandsToSigned IDevice
          createPreparedModel device testModel QUANTIZATION_COUPLING tt
        = Ok (preparations createPreparedModel device model coupledModel ++ l,
              tt, Next tt)).
Proof.
  intros Hq Hmodel Hcoupled.
  rewrite (Execute_coupling_run device testModel model coupledModel Hq Hmodel Hcoupled).
  split; [by intros -> ->|]. split; [by intros -> [pm' ->]|].
  split; [by intros [pm ->] ->|].
  intros pm pm' l s r -> -> Hrun. by rewrite Hrun.
Qed.

(** C10.  The quantization-coupling suite runs [Execute] on exactly the
    models of the corpus that have coupled quant8 operands and a single
    operation; [Execute] itself checks the coupled-operand predicate after
    translating the model and before any preparation: on a model without
    coupled operands it logs the fatal failure of that assertion and nothing
    else, and whenever a preparation is logged the predicate holds. *)
Theorem coupling_entry_is_guarded {Name : Type} (devices : list IDevice)
    (corpus : list (Name * TestModel.t)) :
  (forall device name testModel outcome,
     (device, (name, testModel), outcome)
     ∈ QuantizationCouplingTest kAlignment allocateSharedMemory
         convertResultCodeToErrorStatus hasQuant8CoupledOperands
         convertQuant8AsymmOperandsToSigned IDevice createPreparedModel devices corpus
     <-> device ∈ devices
         /\ (name, testModel) ∈ corpus
         /\ hasQuant8CoupledOperands testModel = true
         /\ length (TestModel.operations testModel) = 1%nat
         /\ outcome
            = Execute kAlignment allocateSharedMemory convertResultCodeToErrorStatus
                hasQuant8CoupledOperands convertQuant8AsymmOperandsToSigned IDevice
                createPreparedModel device testModel QUANTIZATION_COUPLING tt)
  /\ (forall device testModel model,
        createModel kAlignment allocateSharedMemory testModel = Ok model ->
        hasQuant8CoupledOperands testModel = false ->
        Execute kAlignment allocateSharedMemory convertResultCodeToErrorStatus
          hasQuant8CoupledOperands convertQuant8AsymmOperandsToSigned IDevice
          createPreparedModel device testModel QUANTIZATION_COUPLING tt
        = Ok ([FatalFailure HasQuant8CoupledOperands], tt, Returned))
  /\ (forall device testModel l s r,
        Execute kAlignment allocateSharedMemory convertResultCodeToErrorStatus
          hasQuant8CoupledOperands convertQuant8AsymmOperandsToSigned IDevice
          createPreparedModel device testModel QUANTIZATION_COUPLING tt
        = Ok (l, s, r) ->
        Called createPreparedModel_ ∈ l ->
        hasQuant8CoupledOperands testModel = true).
Proof.
  assert (forall device testModel model,
    createModel kAlignment allocateSharedMemory testModel = Ok model ->
    hasQuant8CoupledOperands testModel = false ->
    Execute kAlignment allocateSharedMemory convertResultCodeToErrorStatus
      hasQuant8CoupledOperands convertQuant8AsymmOperandsToSigned IDevice
      createPreparedModel device testModel QUANTIZATION_COUPLING tt
    = Ok ([FatalFailure HasQuant8CoupledOperands], tt, Returned)) as Hguard.
  { intros device testModel model Hmodel Hq. unfold Execute.
    rewrite Hmodel, (bind_Next _ _ _ _ _ _ (lift_Ok model tt)).
    rewrite decide_False by discriminate.
    rewrite (bind_Next _ _ _ _ _ _ (eq_refl : ret model tt = Ok ([], tt, Next model))).
    by rewrite Hq. }
  split; [|split; [exact Hguard|]].
  - intros device name testModel outcome.
    unfold QuantizationCouplingTest, instantiate, getNamedModels,
      QuantizationCouplingTest_filter.
    rewrite !list_elem_of_In, in_map_iff. split.
    + intros ([device' [name' testModel']] & [= <- <- <- <-] & Hin).
      apply in_prod_iff in Hin as [Hdev Hmodel].
      apply filter_In in Hmodel as [Hmodel Hfilter]. simpl in Hfilter.
      apply andb_true_iff in Hfilter as [Hq Hone%bool_decide_eq_true].
      done.
    + intros (Hdev & Hmodel & Hq & Hone & ->).
      exists (device, (name, testModel)). split; [reflexivity|].
      apply in_prod_iff. split; [exact Hdev|]. apply filter_In. split; [exact Hmodel|].
      simpl. rewrite Hq. by apply bool_decide_eq_true.
  - intros device testModel l s r Hrun Hin.
    destruct (hasQuant8CoupledOperands testModel) eqn:Hq; [reflexivity|].
    destruct (createModel kAlignment allocateSharedMemory testModel) as [model| |] eqn:Hmodel.
    + rewrite (Hguard device testModel model Hmodel Hq) in Hrun.
      injection Hrun as <- <- <-. elem_absurd Hin.
    + unfold Execute in Hrun. by rewrite Hmodel in Hrun.
    + unfold Execute in Hrun. by rewrite Hmodel in Hrun.
Qed.

End EntryPoint.

Lemma coupled_preparation_symmetry_witness :
  Execute 64 zeroFilled sampleConvert hasQuant8 toSigned unit preparesNothing tt
    quantModel QUANTIZATION_COUPLING tt
  = Ok ([Called createPreparedModel_; Called createPreparedModel_;
         LogInfo CannotPrepare; Cout CannotPrepare; Skip], tt, Returned)
  /\ Execute 64 zeroFilled sampleConvert hasQuant8 toSigned unit preparesSignedOnly tt
       quantModel QUANTIZATION_COUPLING tt
     = Ok ([Called createPreparedModel_; Called createPreparedModel_;
            FatalFailure CoupledNotPrepared], tt, Returned).
Proof.
  split.
  - exact (proj1 (coupled_preparation_symmetry 64 zeroFilled sampleConvert hasQuant8
                    toSigned unit preparesNothing tt quantModel _ _
                    eq_refl eq_refl eq_refl) eq_refl eq_refl).
  - exact (proj1 (proj2 (coupled_preparation_symmetry 64 zeroFilled sampleConvert
                           hasQuant8 toSigned unit preparesSignedOnly tt quantModel _ _
                           eq_refl eq_refl eq_refl)) eq_refl (mk_is_Some _ _ eq_refl)).
Defined.

(** ** Further properties of the translator *)

(** *** The constants are stored at their locations *)

Lemma createModel_inv kAlignment alloc tm m :
  createModel kAlignment alloc tm = Ok m ->
  Model.operands m = translatedOperands kAlignment tm
  /\ Model.operations m = map translateOperation (TestModel.operations tm)
  /\ Model.inputIndexes m = TestModel.inputIndexes tm
  /\ Model.outputIndexes m = TestModel.outputIndexes tm
  /\ Model.relaxComputationFloat32toFloat16 m = TestModel.isRelaxed tm
  /\ copyConstants CONSTANT_COPY (TestModel.operands tm) (translatedOperands kAlignment tm)
       (replicate (Z.to_nat (constCopySize
          (createOperands kAlignment (TestModel.operands tm) (mkCursors 0 0)).2)) x00)
     = Ok (Model.operandValues m)
  /\ (if decide (requestedPoolSize kAlignment tm > 0) then
        alloc (requestedPoolSize kAlignment tm) <> []
        /\ exists mapped,
             copyConstants CONSTANT_REFERENCE (TestModel.operands tm)
               (translatedOperands kAlignment tm) (alloc (requestedPoolSize kAlignment tm))
             = Ok mapped
             /\ Model.pools m = [mapped]
      else Model.pools m = []).
Proof.
  unfold createModel, translatedOperands, requestedPoolSize.
  destruct (createOperands kAlignment (TestModel.operands tm) (mkCursors 0 0)) as [out c].
  cbn [fst snd].
  destruct (copyConstants CONSTANT_COPY _ _ _) as [values| |]; simpl; try discriminate.
  destruct (decide (constRefSize c > 0)); simpl.
  - destruct (decide (size (alloc (constRefSize c)) = 0)) as [|Hsize]; simpl;
      try discriminate.
    destruct (copyConstants CONSTANT_REFERENCE _ _ _) as [mapped| |]; simpl;
      try discriminate.
    intros [= <-]. simpl. repeat split; try reflexivity.
    + intros Hnil. apply Hsize. by rewrite Hnil.
    + by exists mapped.
  - intros [= <-]. simpl. repeat split; reflexivity.
Qed.

Lemma copyConstants_length lt tops : forall ops b b',
  copyConstants lt tops ops b = Ok b' -> length b' = length b.
Proof.
  induction tops as [|top tops IH]; intros ops b b'; [by intros [= <-]|].
  destruct ops as [|op ops]; [by intros [= <-]|].
  simpl. case_decide; [|apply IH].
  destruct (std_copy _ b _) as [b1| |] eqn:Hcopy; simpl; try discriminate.
  intros Hrest. rewrite (IH _ _ _ Hrest). by eapply std_copy_length.
Qed.

Lemma copyConstants_unwritten lt tops : forall ops b b' (p : nat),
  copyConstants lt tops ops b = Ok b' ->
  written lt tops ops (Z.of_nat p) = false ->
  b' !! p = b !! p.
Proof.
  induction tops as [|top tops IH]; intros ops b b' p; [by intros [= <-]|].
  destruct ops as [|op ops]; [by intros [= <-]|].
  simpl. case_decide.
  - destruct (std_copy _ b _) as [b1| |] eqn:Hcopy; simpl; try discriminate.
    intros Hrest [Hhere Hlater]%orb_false_iff.
    rewrite (IH _ _ _ _ Hrest Hlater), (std_copy_lookup _ _ _ _ p Hcopy).
    by rewrite Hhere.
  - intros Hrest Hlater. simpl in Hlater. by apply (IH _ _ _ _ Hrest).
Qed.

Lemma written_false lt tops : forall ops q,
  (forall j topj opj, tops !! j = Some topj -> ops !! j = Some opj ->
     TestOperand.lifetime topj = lt ->
     ~ (DataLocation.offset (Operand.location opj) <= q
        < DataLocation.offset (Operand.location opj) + size (TestOperand.data topj))) ->
  written lt tops ops q = false.
Proof.
  induction tops as [|top tops IH]; intros ops q Hout; [reflexivity|].
  destruct ops as [|op ops]; [reflexivity|].
  simpl. apply orb_false_iff. split.
  - case_decide as Hlt; [|reflexivity].
    apply bool_decide_eq_false_2. exact (Hout 0%nat top op eq_refl eq_refl Hlt).
  - apply IH. intros j topj opj Ht Ho. exact (Hout (S j) topj opj Ht Ho).
Qed.

(** The data of an operand is found at its offset after the copies, when the
    later operands of the class start where it ends or after. *)
Lemma copyConstants_stored lt tops : forall ops b b' i top op,
  copyConstants lt tops ops b = Ok b' ->
  tops !! i = Some top -> ops !! i = Some op ->
  TestOperand.lifetime top = lt ->
  (forall j topj opj, (i < j)%nat -> tops !! j = Some topj -> ops !! j = Some opj ->
     TestOperand.lifetime topj = lt ->
     DataLocation.offset (Operand.location op) + size (TestOperand.data top)
     <= DataLocation.offset (Operand.location opj)) ->
  forall p : nat, (p < length (TestOperand.data top))%nat ->
    b' !! (Z.to_nat (DataLocation.offset (Operand.location op)) + p)%nat
    = TestOperand.data top !! p.
Proof.
  induction tops as [|top0 tops IH]; intros ops b b' i top op Hrun Htop Hop Hlt Hlater p Hp;
    [done|].
  destruct ops as [|op0 ops]; [done|].
  simpl in Hrun. destruct i as [|i]; simpl in Htop, Hop.
  - injection Htop as ->. injection Hop as ->.
    rewrite decide_True in Hrun by exact Hlt.
    destruct (std_copy _ b _) as [b1| |] eqn:Hcopy; simpl in Hrun; try discriminate.
    assert (0 <= DataLocation.offset (Operand.location op)) as Hoff.
    { unfold std_copy in Hcopy. case_decide; [tauto|discriminate]. }
    rewrite (copyConstants_unwritten _ _ _ _ _ _ Hrun).
    + rewrite (std_copy_lookup _ _ _ _ _ Hcopy).
      rewrite bool_decide_eq_true_2 by (unfold size; lia).
      f_equal. lia.
    + apply written_false. intros j topj opj Ht Ho Hl.
      pose proof (Hlater (S j) topj opj ltac:(lia) Ht Ho Hl). unfold size in *. lia.
  - assert (exists b1, copyConstants lt tops ops b1 = Ok b') as [b1 Hrest].
    { case_decide; [|by exists b].
      destruct (std_copy _ b _) as [b1| |]; simpl in Hrun; try discriminate.
      by exists b1. }
    apply (IH _ _ _ _ _ _ Hrest Htop Hop Hlt); [|exact Hp].
    intros j topj opj Hij Ht Ho. apply (Hlater (S j) topj opj); [lia|exact Ht|exact Ho].
Qed.

Lemma readLocation_stored (loc : DataLocation.t) (buf data : list byte) :
  0 <= DataLocation.offset loc ->
  DataLocation.length loc = size data ->
  (forall p : nat, (p < length data)%nat ->
     buf !! (Z.to_nat (DataLocation.offset loc) + p)%nat = data !! p) ->
  readLocation loc buf = data.
Proof.
  intros Hoff Hlen Hat. unfold readLocation. rewrite Hlen. unfold size.
  rewrite Nat2Z.id. apply list_eq. intros p.
  destruct (decide (p < length data)%nat) as [Hp|Hp].
  - rewrite lookup_take_lt by exact Hp. rewrite lookup_drop. by apply Hat.
  - rewrite lookup_take_ge by lia. symmetry. apply lookup_ge_None. lia.
Qed.

(** X1.  Reading a constant back.  In a translated model whose constant
    data fits 32-bit offsets in each storage class, the location of a
    CONSTANT_COPY operand designates, in [operandValues], exactly the bytes of
    the operand's data; the location of a CONSTANT_REFERENCE operand names
    pool 0 and designates exactly its data in the one shared pool, which
    exists as soon as the operand has any data. *)
Theorem createModel_stores_constants (kAlignment : Z) (alloc : Z -> hidl_memory)
    (testModel : TestModel.t) (model : Model.t) (i : nat) (top : TestOperand.t)
    (op : Operand.t) :
  0 < kAlignment ->
  alignedTotal kAlignment CONSTANT_COPY (TestModel.operands testModel) <= UINT32_MAX ->
  alignedTotal kAlignment CONSTANT_REFERENCE (TestModel.operands testModel) <= UINT32_MAX ->
  createModel kAlignment alloc testModel = Ok model ->
  TestModel.operands testModel !! i = Some top ->
  Model.operands model !! i = Some op ->
  (TestOperand.lifetime top = CONSTANT_COPY ->
   readLocation (Operand.location op) (Model.operandValues model) = TestOperand.data top)
  /\ (TestOperand.lifetime top = CONSTANT_REFERENCE ->
      DataLocation.poolIndex (Operand.location op) = 0
      /\ (TestOperand.data top <> [] -> exists pool, Model.pools model = [pool])
      /\ (forall pool, Model.pools model = [pool] ->
          readLocation (Operand.location op) pool = TestOperand.data top)).
Proof.
  intros Hk Hc Hr Hm Htop Hop.
  destruct (createModel_inv _ _ _ _ Hm) as (Hops & _ & _ & _ & _ & Hvalues & Hpools).
  destruct (createModel_location kAlignment Hk _ _ _ _ _ Hc Hr Hm Hop)
    as (top' & Htop' & Hlt & Hloc).
  rewrite Htop in Htop'. injection Htop' as <-.
  assert (forall lt, TestOperand.lifetime top = lt -> isConstant lt = true ->
    forall j topj opj, (i < j)%nat ->
      TestModel.operands testModel !! j = Some topj ->
      translatedOperands kAlignment testModel !! j = Some opj ->
      TestOperand.lifetime topj = lt ->
      DataLocation.offset (Operand.location op) + size (TestOperand.data top)
      <= DataLocation.offset (Operand.location opj)) as Hlater.
  { intros lt Hl Hconst j topj opj Hij Htj Hoj Hlj. rewrite <- Hops in Hoj.
    destruct (createModel_location kAlignment Hk _ _ _ _ _ Hc Hr Hm Hoj)
      as (topj' & Htj' & Hltj & _).
    rewrite Htj in Htj'. injection Htj' as <-.
    destruct (Hloc ltac:(by rewrite Hlt, Hl)) as [_ <-].
    eapply (createModel_ordered kAlignment Hk); eauto; congruence. }
  assert (isConstant (Operand.lifetime op) = true -> 0 <= DataLocation.offset (Operand.location op))
    as Hoff.
  { intros Hconst. destruct (Hloc Hconst) as [-> _]. by apply alignedTotal_nonneg. }
  split.
  - intros Hl. destruct (Hloc ltac:(by rewrite Hlt, Hl)) as [_ Hlen].
    apply readLocation_stored; [apply Hoff; by rewrite Hlt, Hl | exact Hlen |].
    rewrite <- Hops in Hvalues.
    eapply (copyConstants_stored _ _ _ _ _ i top op Hvalues Htop Hop Hl).
    rewrite Hops. by apply Hlater.
  - intros Hl. destruct (Hloc ltac:(by rewrite Hlt, Hl)) as [Hoffset Hlen].
    split; [|split].
    + rewrite Hops in Hop. unfold translatedOperands in Hop.
      assert (UINT32_MAX < 2 ^ 64) by (unfold UINT32_MAX; lia).
      rewrite (createOperands_lookup kAlignment Hk _ (mkCursors 0 0) i top) in Hop
        by (simpl; first [lia | exact Htop]).
      injection Hop as <-. simpl. unfold locationAt. by rewrite Hl.
    + intros Hdata. case_decide as Hpos.
      * destruct Hpools as (_ & mapped & _ & ->). by exists mapped.
      * exfalso. unfold requestedPoolSize in Hpos.
        assert (UINT32_MAX < 2 ^ 64) by (unfold UINT32_MAX; lia).
        rewrite (createOperands_cursors kAlignment Hk) in Hpos by (simpl; lia).
        simpl in Hpos.
        pose proof (alignedTotal_take_next kAlignment Hk _ _ i (S i) top Htop Hl
                      ltac:(lia)) as Hnext.
        pose proof (alignedTotal_take_le kAlignment Hk CONSTANT_REFERENCE
                      (TestModel.operands testModel) (S i)).
        pose proof (alignedTotal_nonneg kAlignment Hk CONSTANT_REFERENCE
                      (take i (TestModel.operands testModel))).
        pose proof (alignedSize_ge kAlignment Hk (TestOperand.data top)).
        assert (0 < size (TestOperand.data top)).
        { unfold size. destruct (TestOperand.data top); [done|simpl; lia]. }
        lia.
    + intros pool Hpool.
      apply readLocation_stored; [apply Hoff; by rewrite Hlt, Hl | exact Hlen |].
      case_decide as Hpos; [|by rewrite Hpools in Hpool].
      destruct Hpools as (_ & mapped & Hmapped & Hp).
      rewrite Hp in Hpool. injection Hpool as ->.
      rewrite <- Hops in Hmapped.
      eapply (copyConstants_stored _ _ _ _ _ i top op Hmapped Htop Hop Hl).
      rewrite Hops. by apply Hlater.
Qed.

Lemma createModel_stores_constants_witness :
  readLocation (DataLocation.mk 0 4 2) [x04; x00; x00; x00; x0a; x0b; x00; x00] = [x0a; x0b]
  /\ readLocation (DataLocation.mk 0 4 5)
       [x01; x02; x03; x00; x05; x06; x07; x08; x09; x00; x00; x00]
     = [x05; x06; x07; x08; x09].
Proof.
  assert (createModel 4 zeroFilled mixedConstants
          = Ok (Model.mk (translatedOperands 4 mixedConstants) [] [2] []
                  [x04; x00; x00; x00; x0a; x0b; x00; x00]
                  [[x01; x02; x03; x00; x05; x06; x07; x08; x09; x00; x00; x00]]
                  false)) as Hm by (vm_compute; reflexivity).
  split.
  - exact (proj1 (createModel_stores_constants 4 zeroFilled mixedConstants _ 4 _ _
                    ltac:(lia) ltac:(vm_compute; discriminate)
                    ltac:(vm_compute; discriminate) Hm eq_refl eq_refl) eq_refl).
  - exact (proj2 (proj2 (proj2 (createModel_stores_constants 4 zeroFilled mixedConstants
                    _ 3 _ _
                    ltac:(lia) ltac:(vm_compute; discriminate)
                    ltac:(vm_compute; discriminate) Hm eq_refl eq_refl) eq_refl))
             _ eq_refl).
Defined.

(** *** The buffers *)

Lemma alignedSize_nil (kAlignment : Z) : 0 < kAlignment -> alignedSize kAlignment [] = 0.
Proof.
  intros Hk. unfold alignedSize, size. simpl.
  rewrite Z.div_small by lia. reflexivity.
Qed.

Lemma alignedTotal_zero (kAlignment : Z) lt ops :
  0 < kAlignment ->
  (alignedTotal kAlignment lt ops = 0
   <-> Forall (fun top => TestOperand.lifetime top = lt -> TestOperand.data top = []) ops).
Proof.
  intros Hk. induction ops as [|top ops IH]; simpl.
  - split; [constructor|reflexivity].
  - pose proof (alignedTotal_nonneg kAlignment Hk lt ops) as Hn.
    pose proof (alignedSize_ge kAlignment Hk (TestOperand.data top)) as Hge.
    rewrite Forall_cons. case_decide as Hlt.
    + split.
      * intros Hsum. split; [|apply IH; unfold size in *; lia].
        intros _. destruct (TestOperand.data top); [reflexivity|].
        unfold size in Hge. simpl in Hge. lia.
      * intros [Hnil Hrest]. rewrite (Hnil Hlt), alignedSize_nil by exact Hk.
        apply IH in Hrest. lia.
    + rewrite Z.add_0_l, IH. split; [intros ?; split; tauto | tauto].
Qed.

Lemma requestedPoolSize_total (kAlignment : Z) (tm : TestModel.t) :
  0 < kAlignment ->
  alignedTotal kAlignment CONSTANT_COPY (TestModel.operands tm) < 2 ^ 64 ->
  alignedTotal kAlignment CONSTANT_REFERENCE (TestModel.operands tm) < 2 ^ 64 ->
  (createOperands kAlignment (TestModel.operands tm) (mkCursors 0 0)).2
  = mkCursors (alignedTotal kAlignment CONSTANT_COPY (TestModel.operands tm))
              (alignedTotal kAlignment CONSTANT_REFERENCE (TestModel.operands tm)).
Proof.
  intros Hk Hc Hr.
  rewrite (createOperands_cursors kAlignment Hk) by (simpl; lia). reflexivity.
Qed.

(** X2.  The buffers of a translated model.  [operandValues] has as many
    bytes as the CONSTANT_COPY data take once each is rounded up to the
    alignment.  There is no pool when no CONSTANT_REFERENCE operand has data
    (such operands still name pool 0); otherwise there is exactly one pool,
    the memory handed out for the rounded-up total of the CONSTANT_REFERENCE
    data, with its size unchanged. *)
Theorem createModel_buffers (kAlignment : Z) (alloc : Z -> hidl_memory)
    (testModel : TestModel.t) (model : Model.t) :
  0 < kAlignment ->
  alignedTotal kAlignment CONSTANT_COPY (TestModel.operands testModel) < 2 ^ 64 ->
  alignedTotal kAlignment CONSTANT_REFERENCE (TestModel.operands testModel) < 2 ^ 64 ->
  createModel kAlignment alloc testModel = Ok model ->
  size (Model.operandValues model)
  = alignedTotal kAlignment CONSTANT_COPY (TestModel.operands testModel)
  /\ (Forall (fun top => TestOperand.lifetime top = CONSTANT_REFERENCE ->
                         TestOperand.data top = [])
        (TestModel.operands testModel) ->
      Model.pools model = [])
  /\ (Exists (fun top => TestOperand.lifetime top = CONSTANT_REFERENCE
                         /\ TestOperand.data top <> [])
        (TestModel.operands testModel) ->
      exists pool,
        Model.pools model = [pool]
        /\ pool <> []
        /\ length pool
           = length (alloc (alignedTotal kAlignment CONSTANT_REFERENCE
                              (TestModel.operands testModel)))).
Proof.
  intros Hk Hc Hr Hm.
  destruct (createModel_inv _ _ _ _ Hm) as (_ & _ & _ & _ & _ & Hvalues & Hpools).
  unfold requestedPoolSize in Hpools.
  rewrite (requestedPoolSize_total _ _ Hk Hc Hr) in Hvalues, Hpools. simpl in *.
  pose proof (alignedTotal_nonneg kAlignment Hk CONSTANT_COPY (TestModel.operands testModel)).
  pose proof (alignedTotal_nonneg kAlignment Hk CONSTANT_REFERENCE
                (TestModel.operands testModel)).
  split; [|split].
  - unfold size. rewrite (copyConstants_length _ _ _ _ _ Hvalues), length_replicate. lia.
  - intros Hempty. apply (alignedTotal_zero kAlignment) in Hempty; [|exact Hk].
    rewrite decide_False in Hpools by lia. exact Hpools.
  - intros Hsome.
    assert (alignedTotal kAlignment CONSTANT_REFERENCE (TestModel.operands testModel) <> 0)
      as Hne.
    { intros Hzero. apply (alignedTotal_zero kAlignment) in Hzero; [|exact Hk].
      rewrite Forall_forall in Hzero. apply Exists_exists in Hsome as (top & Hin & Hl & Hd).
      apply Hd, Hzero; [|exact Hl]. exact Hin. }
    rewrite decide_True in Hpools by lia.
    destruct Hpools as (Halloc & mapped & Hmapped & ->).
    exists mapped. split; [reflexivity|].
    pose proof (copyConstants_length _ _ _ _ _ Hmapped) as Hlen.
    split; [|exact Hlen].
    intros ->. simpl in Hlen. destruct (alloc _); [done|discriminate].
Qed.

Lemma createModel_buffers_witness :
  size [x04; x00; x00; x00; x0a; x0b; x00; x00] = alignedTotal 4 CONSTANT_COPY
                                                     (TestModel.operands mixedConstants)
  /\ createModel 64 zeroFilled vectorModel
     = Ok (Model.mk (translatedOperands 64 vectorModel) [Operation.mk 0 [0] [1]] [0] [1]
             [] [] false).
Proof.
  assert (createModel 4 zeroFilled mixedConstants
          = Ok (Model.mk (translatedOperands 4 mixedConstants) [] [2] []
                  [x04; x00; x00; x00; x0a; x0b; x00; x00]
                  [[x01; x02; x03; x00; x05; x06; x07; x08; x09; x00; x00; x00]]
                  false)) as Hm by (vm_compute; reflexivity).
  split.
  - exact (proj1 (createModel_buffers 4 zeroFilled mixedConstants _
                    ltac:(lia) ltac:(vm_compute; reflexivity)
                    ltac:(vm_compute; reflexivity) Hm)).
  - vm_compute. reflexivity.
Defined.

(** *** Failed allocation *)

Lemma copyConstants_not_aborted lt tops : forall ops b,
  copyConstants lt tops ops b <> Aborted.
Proof.
  induction tops as [|top tops IH]; intros ops b; [done|].
  destruct ops as [|op ops]; [done|].
  simpl. case_decide; [|apply IH].
  unfold std_copy. case_decide; simpl; [apply IH|done].
Qed.

Lemma copyConstants_values_defined (kAlignment : Z) (tm : TestModel.t) :
  0 < kAlignment ->
  alignedTotal kAlignment CONSTANT_COPY (TestModel.operands tm) < 2 ^ 64 ->
  alignedTotal kAlignment CONSTANT_REFERENCE (TestModel.operands tm) < 2 ^ 64 ->
  exists values,
    copyConstants CONSTANT_COPY (TestModel.operands tm) (translatedOperands kAlignment tm)
      (replicate (Z.to_nat (alignedTotal kAlignment CONSTANT_COPY (TestModel.operands tm)))
         x00) = Ok values.
Proof.
  intros Hk Hc Hr.
  pose proof (alignedTotal_nonneg kAlignment Hk CONSTANT_COPY (TestModel.operands tm)).
  destruct (copyConstants_defined CONSTANT_COPY (TestModel.operands tm)
              (translatedOperands kAlignment tm)
              (replicate (Z.to_nat (alignedTotal kAlignment CONSTANT_COPY
                 (TestModel.operands tm))) x00)) as (values & Hvalues & _).
  { intros i top op Ht Ho Hl. unfold size at 2. rewrite length_replicate.
    rewrite Z2Nat.id by lia.
    eapply (createOperands_in_bounds kAlignment CONSTANT_COPY tm); eauto. lia. }
  by exists values.
Qed.

(** X3.  [createModel] aborts (the CHECK_NE of line 162) exactly when some
    data is held by reference and the memory allocated for it has size 0; a
    model without such data asks for no memory and cannot abort.  (The
    mapping of a memory of non-zero size is taken to succeed, see
    [createModel].) *)
Theorem createModel_aborts_iff (kAlignment : Z) (alloc : Z -> hidl_memory)
    (testModel : TestModel.t) :
  0 < kAlignment ->
  alignedTotal kAlignment CONSTANT_COPY (TestModel.operands testModel) < 2 ^ 64 ->
  alignedTotal kAlignment CONSTANT_REFERENCE (TestModel.operands testModel) < 2 ^ 64 ->
  createModel kAlignment alloc testModel = Aborted
  <-> 0 < alignedTotal kAlignment CONSTANT_REFERENCE (TestModel.operands testModel)
      /\ alloc (alignedTotal kAlignment CONSTANT_REFERENCE (TestModel.operands testModel))
         = [].
Proof.
  intros Hk Hc Hr.
  destruct (copyConstants_values_defined kAlignment testModel Hk Hc Hr) as [values Hvalues].
  pose proof (requestedPoolSize_total _ _ Hk Hc Hr) as Hcur.
  unfold createModel, translatedOperands in *.
  destruct (createOperands kAlignment (TestModel.operands testModel) (mkCursors 0 0))
    as [out c].
  simpl in Hcur, Hvalues. subst c. cbn [constCopySize constRefSize].
  rewrite Hvalues. simpl.
  case_decide as Hpos; simpl.
  - case_decide as Hsize; simpl.
    + split; [intros _|reflexivity]. split; [lia|].
      unfold size in Hsize. destruct (alloc _); [reflexivity|simpl in Hsize; lia].
    + pose proof (copyConstants_not_aborted CONSTANT_REFERENCE (TestModel.operands testModel)
                    out (alloc (alignedTotal kAlignment CONSTANT_REFERENCE
                                  (TestModel.operands testModel)))) as Hna.
      destruct (copyConstants CONSTANT_REFERENCE _ _ _); simpl; split; try done.
      all: intros [_ Hnil]; rewrite Hnil in Hsize; done.
  - split; [done|]. intros [? _]. lia.
Qed.

Lemma createModel_aborts_iff_witness :
  createModel 4 failing mixedConstants = Aborted.
Proof.
  apply (createModel_aborts_iff 4 failing mixedConstants);
    [lia | vm_compute; reflexivity | vm_compute; reflexivity |].
  split; [vm_compute; reflexivity | reflexivity].
Defined.

(** *** The copies stay in bounds *)

(** X4.  No copy of [createModel] leaves its buffer: when the allocator
    hands out at least as many bytes as it is asked, the translation runs to
    its end and yields a model -- no [std::copy] writes outside
    [operandValues] or outside the mapped pool, and no check fails. *)
Theorem createModel_stays_in_bounds (kAlignment : Z) (alloc : Z -> hidl_memory)
    (testModel : TestModel.t) :
  0 < kAlignment ->
  alignedTotal kAlignment CONSTANT_COPY (TestModel.operands testModel) < 2 ^ 64 ->
  alignedTotal kAlignment CONSTANT_REFERENCE (TestModel.operands testModel) < 2 ^ 64 ->
  alignedTotal kAlignment CONSTANT_REFERENCE (TestModel.operands testModel)
  <= size (alloc (alignedTotal kAlignment CONSTANT_REFERENCE
                    (TestModel.operands testModel))) ->
  exists model, createModel kAlignment alloc testModel = Ok model.
Proof.
  intros Hk Hc Hr Halloc.
  destruct (copyConstants_values_defined kAlignment testModel Hk Hc Hr) as [values Hvalues].
  pose proof (requestedPoolSize_total _ _ Hk Hc Hr) as Hcur.
  pose proof (createOperands_in_bounds kAlignment CONSTANT_REFERENCE testModel) as Hbr.
  unfold createModel, translatedOperands in *.
  destruct (createOperands kAlignment (TestModel.operands testModel) (mkCursors 0 0))
    as [out c].
  simpl in Hcur, Hvalues, Hbr. subst c. cbn [constCopySize constRefSize].
  rewrite Hvalues. simpl.
  case_decide as Hpos; simpl; [|by eexists].
  rewrite decide_False by lia.
  destruct (copyConstants_defined CONSTANT_REFERENCE (TestModel.operands testModel) out
              (alloc (alignedTotal kAlignment CONSTANT_REFERENCE
                 (TestModel.operands testModel)))) as (mapped & -> & _).
  { intros i top op Ht Ho Hl. eapply Hbr; eauto. }
  simpl. by eexists.
Qed.

Lemma createModel_stays_in_bounds_witness :
  exists model, createModel 4 generous mixedConstants = Ok model.
Proof.
  apply createModel_stays_in_bounds;
    [lia | vm_compute; reflexivity | vm_compute; reflexivity | vm_compute; discriminate].
Defined.

(** *** The graph and the padding *)

Lemma createOperands_carries kAlignment ops : forall c,
  Forall2 carries ops (createOperands kAlignment ops c).1.
Proof.
  induction ops as [|top ops IH]; intros c; simpl; [constructor|].
  destruct (locateOperand kAlignment top c) as [loc c1] eqn:Hloc.
  specialize (IH c1). destruct (createOperands kAlignment ops c1) as [out c2].
  simpl in *. constructor; [|exact IH].
  unfold carries, translateOperand. simpl.
  repeat (split; [reflexivity|]).
  split.
  { case_decide; [|reflexivity]. by destruct (TestOperand.channelQuant top). }
  unfold locateOperand in Hloc.
  destruct (TestOperand.lifetime top); injection Hloc as <- _; by split.
Qed.

(** X5.  The translation keeps the graph.  Operand by operand, the type,
    dimensions, number of consumers, scale, zero point and lifetime are those
    of the test operand, the channel quantisation is present exactly for the
    type TENSOR_QUANT8_SYMM_PER_CHANNEL, the pool index is 0, and an operand
    that is no constant has the empty location; operation by operation, the
    type, inputs and outputs are kept; so are the input and output indexes
    and the relaxed-computation flag. *)
Theorem createModel_preserves_graph (kAlignment : Z) (alloc : Z -> hidl_memory)
    (testModel : TestModel.t) (model : Model.t) :
  createModel kAlignment alloc testModel = Ok model ->
  Forall2 carries (TestModel.operands testModel) (Model.operands model)
  /\ Forall2 carriesOperation (TestModel.operations testModel) (Model.operations model)
  /\ Model.inputIndexes model = TestModel.inputIndexes testModel
  /\ Model.outputIndexes model = TestModel.outputIndexes testModel
  /\ Model.relaxComputationFloat32toFloat16 model = TestModel.isRelaxed testModel.
Proof.
  intros Hm.
  destruct (createModel_inv _ _ _ _ Hm) as (Hops & Hoperations & Hin & Hout & Hrelax & _).
  split; [rewrite Hops; apply createOperands_carries|].
  split; [|done].
  rewrite Hoperations. apply Forall2_fmap_r, Forall_Forall2_diag, Forall_forall.
  by intros op _.
Qed.

Lemma createModel_preserves_graph_witness :
  Forall2 carries (TestModel.operands vectorModel) (translatedOperands 64 vectorModel)
  /\ Forall2 carriesOperation [TestOperation.mk 0 [0] [1]] [Operation.mk 0 [0] [1]].
Proof.
  pose proof (createModel_preserves_graph 64 zeroFilled vectorModel
                (Model.mk (translatedOperands 64 vectorModel) [Operation.mk 0 [0] [1]]
                   [0] [1] [] [] false) eq_refl) as (Hoperands & Hoperations & _).
  split; [exact Hoperands | exact Hoperations].
Defined.

(** X6.  [createModel] writes the ranges of the constants only: a byte of
    [operandValues] outside the range of every CONSTANT_COPY operand is 0, and
    a byte of the pool outside the range of every CONSTANT_REFERENCE operand
    is as the allocator left it. *)
Theorem createModel_writes_constant_ranges_only (kAlignment : Z) (alloc : Z -> hidl_memory)
    (testModel : TestModel.t) (model : Model.t) :
  createModel kAlignment alloc testModel = Ok model ->
  (forall p : nat,
     (p < length (Model.operandValues model))%nat ->
     written CONSTANT_COPY (TestModel.operands testModel) (Model.operands model)
       (Z.of_nat p) = false ->
     Model.operandValues model !! p = Some x00)
  /\ (forall pool (p : nat),
        Model.pools model = [pool] ->
        written CONSTANT_REFERENCE (TestModel.operands testModel) (Model.operands model)
          (Z.of_nat p) = false ->
        pool !! p = alloc (requestedPoolSize kAlignment testModel) !! p).
Proof.
  intros Hm.
  destruct (createModel_inv _ _ _ _ Hm) as (Hops & _ & _ & _ & _ & Hvalues & Hpools).
  rewrite Hops. split.
  - intros p Hp Hout.
    rewrite (copyConstants_unwritten _ _ _ _ _ _ Hvalues Hout).
    apply lookup_replicate_2.
    rewrite (copyConstants_length _ _ _ _ _ Hvalues), length_replicate in Hp. exact Hp.
  - intros pool p Hpool Hout.
    case_decide; [|by rewrite Hpools in Hpool].
    destruct Hpools as (_ & mapped & Hmapped & Hp). rewrite Hp in Hpool.
    injection Hpool as ->.
    exact (copyConstants_unwritten _ _ _ _ _ _ Hmapped Hout).
Qed.

Lemma createModel_writes_constant_ranges_only_witness :
  [x04; x00; x00; x00; x0a; x0b; x00; x00] !! 3%nat = Some x00
  /\ [x01; x02; x03; x00; x05; x06; x07; x08; x09; x00; x00; x00] !! 9%nat
     = scribbled (requestedPoolSize 4 mixedConstants) !! 9%nat.
Proof.
  split.
  - exact (proj1 (createModel_writes_constant_ranges_only 4 zeroFilled mixedConstants
                    (Model.mk (translatedOperands 4 mixedConstants) [] [2] []
                       [x04; x00; x00; x00; x0a; x0b; x00; x00]
                       [[x01; x02; x03; x00; x05; x06; x07; x08; x09; x00; x00; x00]]
                       false) eq_refl) 3%nat ltac:(simpl; lia) eq_refl).
  - exact (proj2 (createModel_writes_constant_ranges_only 4 scribbled mixedConstants
                    (Model.mk (translatedOperands 4 mixedConstants) [] [2] []
                       [x04; x00; x00; x00; x0a; x0b; x00; x00]
                       [[x01; x02; x03; x00; x05; x06; x07; x08; x09; x00; x00; x00]]
                       false) eq_refl) _ 9%nat eq_refl eq_refl).
Defined.

(** *** Only constant data is translated *)

Lemma createOperands_sameConstants kAlignment ops1 ops2 :
  Forall2 sameConstants ops1 ops2 ->
  forall c, createOperands kAlignment ops1 c = createOperands kAlignment ops2 c.
Proof.
  induction 1 as [|top1 top2 ops1 ops2 Hsame _ IH]; intros c; [reflexivity|].
  destruct Hsame as (Hty & Hdims & Hcons & Hscale & Hzero & Hlt & Hcq & Hdata).
  simpl.
  assert (locateOperand kAlignment top1 c = locateOperand kAlignment top2 c) as ->.
  { unfold locateOperand. rewrite <- Hlt.
    destruct (TestOperand.lifetime top1); try reflexivity; by rewrite (Hdata eq_refl). }
  destruct (locateOperand kAlignment top2 c) as [loc c1]. rewrite IH.
  destruct (createOperands kAlignment ops2 c1) as [out c2]. f_equal. f_equal.
  unfold translateOperand. by rewrite Hty, Hdims, Hcons, Hscale, Hzero, Hlt, Hcq.
Qed.

Lemma copyConstants_sameConstants lt tops1 tops2 :
  isConstant lt = true ->
  Forall2 sameConstants tops1 tops2 ->
  forall ops b, copyConstants lt tops1 ops b = copyConstants lt tops2 ops b.
Proof.
  intros Hconst. induction 1 as [|top1 top2 tops1 tops2 Hsame _ IH]; intros ops b;
    [reflexivity|].
  destruct Hsame as (_ & _ & _ & _ & _ & Hlt & _ & Hdata).
  destruct ops as [|op ops]; [reflexivity|]. simpl. rewrite <- Hlt.
  case_decide as Heq; [|apply IH].
  rewrite <- (Hdata ltac:(by rewrite Heq)).
  destruct (std_copy _ b _); simpl; [apply IH|reflexivity..].
Qed.

(** X7.  Only constants reach the model: two test models that differ by
    the data of operands that are no constants (inputs, expected outputs,
    temporaries) are translated to the same model. *)
Theorem createModel_ignores_variable_data (kAlignment : Z) (alloc : Z -> hidl_memory)
    (testModel1 testModel2 : TestModel.t) :
  Forall2 sameConstants (TestModel.operands testModel1) (TestModel.operands testModel2) ->
  TestModel.operations testModel1 = TestModel.operations testModel2 ->
  TestModel.inputIndexes testModel1 = TestModel.inputIndexes testModel2 ->
  TestModel.outputIndexes testModel1 = TestModel.outputIndexes testModel2 ->
  TestModel.isRelaxed testModel1 = TestModel.isRelaxed testModel2 ->
  createModel kAlignment alloc testModel1 = createModel kAlignment alloc testModel2.
Proof.
  intros Hops Hoperations Hin Hout Hrelaxed. unfold createModel.
  rewrite (createOperands_sameConstants kAlignment _ _ Hops).
  destruct (createOperands kAlignment (TestModel.operands testModel2) (mkCursors 0 0))
    as [out c].
  rewrite (copyConstants_sameConstants CONSTANT_COPY _ _ eq_refl Hops).
  rewrite (copyConstants_sameConstants CONSTANT_REFERENCE _ _ eq_refl Hops).
  by rewrite Hoperations, Hin, Hout, Hrelaxed.
Qed.

Lemma createModel_ignores_variable_data_witness :
  createModel 64 zeroFilled vectorModel = createModel 64 zeroFilled otherVectorModel
  /\ (vectorModel = otherVectorModel -> False).
Proof.
  split; [|discriminate].
  apply createModel_ignores_variable_data; try reflexivity.
  repeat constructor; discriminate.
Defined.

(** ** Properties of [makeOutputDimensionsUnspecified] *)

Lemma unspecified_unspecified (op : Operand.t) : unspecified (unspecified op) = unspecified op.
Proof.
  unfold unspecified. simpl. f_equal. rewrite map_map. reflexivity.
Qed.

Lemma at_Undefined {A} (v : list A) (i : Z) :
  ~ 0 <= i < Z.of_nat (length v) -> at_ v i = Undefined.
Proof.
  intros Hout. unfold at_. case_decide; [|reflexivity].
  destruct (v !! Z.to_nat i) eqn:Hat; [|reflexivity].
  apply lookup_lt_Some in Hat. lia.
Qed.

Lemma at_not_aborted {A} (v : list A) (i : Z) : at_ v i <> Aborted.
Proof. unfold at_. case_decide; [|done]. by destruct (v !! Z.to_nat i). Qed.

Lemma blankDimensions_lookup indexes : forall operands operands',
  blankDimensions indexes operands = Ok operands' ->
  inRange (length operands) indexes
  /\ length operands' = length operands
  /\ forall k, operands' !! k = unspecifiedAt indexes k <$> operands !! k.
Proof.
  induction indexes as [|i rest IH]; intros operands operands'; simpl.
  - intros [= <-]. split; [constructor|]. split; [reflexivity|].
    intros k. destruct (operands !! k) as [op|]; [|reflexivity].
    change (Some op = Some (unspecifiedAt [] k op)). unfold unspecifiedAt.
    by rewrite decide_False by apply not_elem_of_nil.
  - destruct (at_ operands i) as [op| |] eqn:Hat; simpl; try discriminate.
    intros Hrest. apply IH in Hrest as (Hrange & Hlen & Hlookup).
    rewrite length_insert in Hrange, Hlen.
    apply at_Ok in Hat as [Hi Hat].
    pose proof (lookup_lt_Some _ _ _ Hat) as Hlt.
    split; [constructor; [lia|exact Hrange]|]. split; [exact Hlen|].
    intros k. rewrite Hlookup.
    destruct (decide (k = Z.to_nat i)) as [->|Hne].
    + rewrite list_lookup_insert_eq by exact Hlt. rewrite Hat.
      change (Some (unspecifiedAt rest (Z.to_nat i) (unspecified op))
              = Some (unspecifiedAt (i :: rest) (Z.to_nat i) op)).
      f_equal. unfold unspecifiedAt.
      rewrite (decide_True (P := Z.of_nat (Z.to_nat i) ∈ i :: rest))
        by (rewrite Z2Nat.id by lia; apply list_elem_of_here).
      case_decide; [apply unspecified_unspecified|reflexivity].
    + rewrite list_lookup_insert_ne by done.
      destruct (operands !! k) as [opk|]; [|reflexivity].
      change (Some (unspecifiedAt rest k opk) = Some (unspecifiedAt (i :: rest) k opk)).
      f_equal. unfold unspecifiedAt.
      destruct (decide (Z.of_nat k ∈ rest)) as [Hin|Hnin].
      * rewrite decide_True by (by apply list_elem_of_further). reflexivity.
      * rewrite decide_False; [reflexivity|].
        intros [Heq|Hin]%elem_of_cons; [lia|done].
Qed.

Lemma blankDimensions_defined indexes : forall operands,
  inRange (length operands) indexes ->
  exists operands', blankDimensions indexes operands = Ok operands'.
Proof.
  induction indexes as [|i rest IH]; intros operands Hrange; simpl; [by eexists|].
  apply Forall_cons in Hrange as [Hi Hrest].
  destruct (at_defined _ _ Hi) as [op ->]. simpl.
  apply IH. unfold inRange. by rewrite length_insert.
Qed.

Lemma blankDimensions_undefined indexes : forall operands,
  ~ inRange (length operands) indexes ->
  blankDimensions indexes operands = Undefined.
Proof.
  induction indexes as [|i rest IH]; intros operands Hrange; simpl.
  - exfalso. apply Hrange. constructor.
  - destruct (decide (0 <= i < Z.of_nat (length operands))) as [Hi|Hi].
    + destruct (at_defined _ _ Hi) as [op ->]. simpl.
      apply IH. unfold inRange in *. rewrite length_insert. intros Hrest. apply Hrange.
      by constructor.
    + by rewrite (at_Undefined _ _ Hi).
Qed.

Lemma blankDimensions_fixed indexes operands operands' :
  blankDimensions indexes operands = Ok operands' ->
  blankDimensions indexes operands' = Ok operands'.
Proof.
  intros Hrun.
  destruct (blankDimensions_lookup _ _ _ Hrun) as (Hrange & Hlen & Hlookup).
  destruct (blankDimensions_defined indexes operands') as [operands'' Hagain].
  { unfold inRange. by rewrite Hlen. }
  rewrite Hagain. f_equal.
  destruct (blankDimensions_lookup _ _ _ Hagain) as (_ & _ & Hlookup').
  apply list_eq. intros k. rewrite Hlookup', Hlookup.
  destruct (operands !! k) as [op|]; [|reflexivity].
  change (Some (unspecifiedAt indexes k (unspecifiedAt indexes k op))
          = Some (unspecifiedAt indexes k op)).
  f_equal. unfold unspecifiedAt. case_decide; [apply unspecified_unspecified|reflexivity].
Qed.

(** X8.  [makeOutputDimensionsUnspecified] is defined exactly when every
    output index designates an operand.  It then sets every dimension of
    every output operand to 0, keeping their number, and changes nothing else:
    the other operands, the operations, the indexes, [operandValues], the
    pools and the relaxed flag are as before.  With an output index out of
    range, the subscript of line 203 is undefined. *)
Theorem makeOutputDimensionsUnspecified_effect (model : Model.t) :
  (inRange (length (Model.operands model)) (Model.outputIndexes model) ->
   exists model',
     makeOutputDimensionsUnspecified model = Ok model'
     /\ length (Model.operands model') = length (Model.operands model)
     /\ (forall k op,
           Model.operands model !! k = Some op ->
           Model.operands model' !! k
           = Some (if decide (Z.of_nat k ∈ Model.outputIndexes model)
                   then unspecified op else op))
     /\ Model.operations model' = Model.operations model
     /\ Model.inputIndexes model' = Model.inputIndexes model
     /\ Model.outputIndexes model' = Model.outputIndexes model
     /\ Model.operandValues model' = Model.operandValues model
     /\ Model.pools model' = Model.pools model
     /\ Model.relaxComputationFloat32toFloat16 model'
        = Model.relaxComputationFloat32toFloat16 model)
  /\ (~ inRange (length (Model.operands model)) (Model.outputIndexes model) ->
      makeOutputDimensionsUnspecified model = Undefined).
Proof.
  unfold makeOutputDimensionsUnspecified. split.
  - intros Hrange.
    destruct (blankDimensions_defined _ _ Hrange) as [operands' Hrun].
    rewrite Hrun. simpl. eexists. split; [reflexivity|]. simpl.
    destruct (blankDimensions_lookup _ _ _ Hrun) as (_ & Hlen & Hlookup).
    split; [exact Hlen|]. split; [|done].
    intros k op Hop. by rewrite Hlookup, Hop.
  - intros Hrange. by rewrite (blankDimensions_undefined _ _ Hrange).
Qed.

(** X9.  [makeOutputDimensionsUnspecified] is idempotent: applied to its
    own result, it yields that result again. *)
Theorem makeOutputDimensionsUnspecified_idempotent (model model' : Model.t) :
  makeOutputDimensionsUnspecified model = Ok model' ->
  makeOutputDimensionsUnspecified model' = Ok model'.
Proof.
  unfold makeOutputDimensionsUnspecified.
  destruct (blankDimensions _ _) as [operands'| |] eqn:Hrun; simpl; try discriminate.
  intros [= <-]. simpl. rewrite (blankDimensions_fixed _ _ _ Hrun). reflexivity.
Qed.

Lemma makeOutputDimensionsUnspecified_idempotent_witness :
  makeOutputDimensionsUnspecified (wireModel [4; 5]) = Ok (wireModel [0; 0])
  /\ makeOutputDimensionsUnspecified (wireModel [0; 0]) = Ok (wireModel [0; 0]).
Proof.
  split; [reflexivity|].
  exact (makeOutputDimensionsUnspecified_idempotent (wireModel [4; 5]) (wireModel [0; 0])
           eq_refl).
Defined.

(** ** Further properties of the evaluator *)

(** *** The executors *)


(** *** The verdict of an evaluation *)

Lemma EvaluatePreparedModel_checked kAlignment conv preparedModel testModel testConfig
    skipped l0 skipped1 request execution :
  runRequest kAlignment conv preparedModel testModel testConfig skipped
  = Ok (l0, skipped1, Next (request, execution)) ->
  TestConfig.outputType testConfig = FULLY_SPECIFIED
  \/ Execution.status execution <> GENERAL_FAILURE ->
  EvaluatePreparedModel kAlignment conv preparedModel testModel testConfig skipped
  = match checkExecution testModel testConfig execution skipped1 with
    | Ok (l, s, r) => Ok (l0 ++ l, s, r)
    | Aborted => Aborted
    | Undefined => Undefined
    end.
Proof.
  intros Hrun Hpass. unfold EvaluatePreparedModel.
  rewrite (bind_Next _ _ _ _ _ _ Hrun). cbn [snd].
  rewrite (bind_Next _ _ _ _ _ _ (skipUnsupported_pass testConfig _ skipped1 Hpass)).
  destruct (checkExecution _ _ _ _) as [[[l s] r]| |]; reflexivity.
Qed.

Lemma EvaluatePreparedModel_skipped kAlignment conv preparedModel testModel testConfig
    skipped l0 skipped1 request execution :
  runRequest kAlignment conv preparedModel testModel testConfig skipped
  = Ok (l0, skipped1, Next (request, execution)) ->
  TestConfig.outputType testConfig <> FULLY_SPECIFIED ->
  Execution.status execution = GENERAL_FAILURE ->
  EvaluatePreparedModel kAlignment conv preparedModel testModel testConfig skipped
  = Ok (l0 ++ skipReport testConfig, (fun _ => true) <$> skipped1, Returned).
Proof.
  intros Hrun Hot Hst. unfold EvaluatePreparedModel.
  rewrite (bind_Next _ _ _ _ _ _ Hrun). cbn [snd]. rewrite Hst.
  by rewrite (bind_Returned _ _ _ _ _ (skipUnsupported_skip testConfig skipped1 Hot)).
Qed.

Lemma checkOutputType_specified {St} testModel testConfig execution (s : St) :
  TestConfig.outputType testConfig <> INSUFFICIENT ->
  checkOutputType testModel testConfig (Execution.status execution)
    (Execution.outputShapes execution) s
  = if decide (passesPolicy testModel testConfig execution)
    then Ok ([], s, Next tt)
    else Ok ([FatalFailure (policySite testConfig execution)], s, Returned).
Proof.
  intros Hot. unfold checkOutputType, passesPolicy, policySite.
  destruct (TestConfig.outputType testConfig) eqn:Hty; [| |done].
  - destruct (decide (Execution.status execution = NONE)) as [Hst|Hst].
    + rewrite Hst. rewrite (bind_Next _ _ _ _ _ _ (ASSERT_pass _ s)).
      destruct (Execution.outputShapes execution) as [|shape shapes] eqn:Hshapes.
      * rewrite decide_True by (split; [done|right; done]). reflexivity.
      * simpl. case_bool_decide as Hlen.
        -- rewrite decide_True by (split; [done|left; done]). reflexivity.
        -- rewrite decide_False; [reflexivity|]. intros [_ [Hl|[_ [=]]]]. done.
    + rewrite decide_False by tauto.
      unfold bind, ASSERT. rewrite bool_decide_eq_false_2 by congruence. reflexivity.
  - destruct (decide (Execution.status execution = NONE)) as [Hst|Hst].
    + rewrite Hst. rewrite (bind_Next _ _ _ _ _ _ (ASSERT_pass _ s)).
      case_bool_decide as Hlen.
      * rewrite decide_True by (split; [done|left; done]). reflexivity.
      * rewrite decide_False; [reflexivity|]. intros [_ [Hl|[[=] _]]]. done.
    + rewrite decide_False by tauto.
      unfold bind, ASSERT. rewrite bool_decide_eq_false_2 by congruence. reflexivity.
Qed.

Lemma checkOutputShapes_next {St} testModel shapes : forall i (s : St) l s' r,
  checkOutputShapes testModel i shapes s = Ok (l, s', r) -> s' = s /\ r = Next tt.
Proof.
  induction shapes as [|shape rest IH]; intros i s l s' r; simpl.
  - by intros [= <- <- <-].
  - rewrite (bind_Next _ _ _ _ _ _ (EXPECT_run _ _ s)).
    destruct (at_ (TestModel.outputIndexes testModel) (Z.of_nat i)) as [oi| |]; [|done..].
    rewrite (bind_Next _ _ _ _ _ _ (lift_Ok oi s)).
    destruct (at_ (TestModel.operands testModel) oi) as [op| |]; [|done..].
    rewrite (bind_Next _ _ _ _ _ _ (lift_Ok op s)).
    rewrite (bind_Next _ _ _ _ _ _ (EXPECT_run _ _ s)).
    destruct (checkOutputShapes testModel (S i) rest s) as [[[l1 s1] r1]| |] eqn:Hrest;
      [|done..].
    intros [= <- <- <-]. by eapply IH.
Qed.

(** What the checks on an execution log under the policies FULLY_SPECIFIED
    and UNSPECIFIED. *)
Lemma checkExecution_specified {St} testModel testConfig execution (s : St) l s' r :
  TestConfig.outputType testConfig <> INSUFFICIENT ->
  checkExecution testModel testConfig execution s = Ok (l, s', r) ->
  s' = s
  /\ (passesPolicy testModel testConfig execution ->
      r = Next tt
      /\ exists shapesLog,
           checkOutputShapes testModel 0 (Execution.outputShapes execution) s
           = Ok (shapesLog, s, Next tt)
           /\ l = timingFailures testConfig (Execution.timing execution) ++ shapesLog
                  ++ [Called getOutputBuffers_; Called checkResults_])
  /\ (~ passesPolicy testModel testConfig execution ->
      r = Returned
      /\ l = timingFailures testConfig (Execution.timing execution)
             ++ [FatalFailure (policySite testConfig execution)]).
Proof.
  intros Hot. unfold checkExecution.
  rewrite (bind_Next _ _ _ _ _ _ (checkTiming_run testConfig _ s)).
  case_eq (decide (passesPolicy testModel testConfig execution)); intros Hpass Hdec.
  - rewrite (bind_Next _ _ _ _ _ _
               (eq_trans (checkOutputType_specified testModel testConfig execution s Hot)
                         ltac:(by rewrite Hdec))).
    destruct (checkOutputShapes testModel 0 (Execution.outputShapes execution) s)
      as [[[l1 s1] r1]| |] eqn:Hshapes;
      [|unfold bind; rewrite Hshapes; simpl; done..].
    destruct (checkOutputShapes_next _ _ _ _ _ _ _ Hshapes) as [-> ->].
    rewrite (bind_Next _ _ _ _ _ _ Hshapes). simpl.
    intros [= <- <- <-]. split; [reflexivity|]. split; [|done].
    intros _. split; [reflexivity|]. by exists l1.
  - rewrite (bind_Returned _ _ _ _ _
               (eq_trans (checkOutputType_specified testModel testConfig execution s Hot)
                         ltac:(by rewrite Hdec))).
    intros [= <- <- <-]. split; [reflexivity|]. split; [done|].
    intros _. split; reflexivity.
Qed.

Lemma timingFailures_timing testConfig timing :
  Forall (fun e => timingEvent e = true) (timingFailures testConfig timing).
Proof.
  unfold timingFailures. destruct (TestConfig.measureTiming testConfig);
    repeat case_decide; simpl; by repeat constructor.
Qed.



(** *** When the results are compared *)

Lemma logs_checkOutputShapes_run {St} testModel shapes i (s : St) l s' r :
  checkOutputShapes testModel i shapes s = Ok (l, s', r) ->
  Forall (fun e => shapeEvent e = true) l.
Proof.
  apply (logs_checkOutputShapes (fun e => shapeEvent e = true)); reflexivity.
Qed.

Lemma results_policy_passed kAlignment conv preparedModel testModel testConfig
    skipped l0 skipped1 request execution l skipped2 r :
  TestConfig.outputType testConfig <> INSUFFICIENT ->
  runRequest kAlignment conv preparedModel testModel testConfig skipped
  = Ok (l0, skipped1, Next (request, execution)) ->
  EvaluatePreparedModel kAlignment conv preparedModel testModel testConfig skipped
  = Ok (l, skipped2, r) ->
  passesPolicy testModel testConfig execution ->
  r = Next tt
  /\ exists shapesLog,
       l = l0 ++ timingFailures testConfig (Execution.timing execution) ++ shapesLog
           ++ [Called getOutputBuffers_; Called checkResults_]
       /\ checkOutputShapes testModel 0 (Execution.outputShapes execution) skipped1
          = Ok (shapesLog, skipped1, Next tt).
Proof.
  intros Hot Hrun Heval Hp.
  assert (TestConfig.outputType testConfig = FULLY_SPECIFIED
          \/ Execution.status execution <> GENERAL_FAILURE) as Hpass.
  { right. destruct Hp as [-> _]. discriminate. }
  rewrite (EvaluatePreparedModel_checked _ _ _ _ _ _ _ _ _ _ Hrun Hpass) in Heval.
  destruct (checkExecution testModel testConfig execution skipped1)
    as [[[l3 s3] r3]| |] eqn:Hcheck; [|done..].
  injection Heval as <- <- <-.
  destruct (checkExecution_specified _ _ _ _ _ _ _ Hot Hcheck) as (_ & Hyes & _).
  destruct (Hyes Hp) as (-> & shapesLog & Hshapes & ->).
  split; [reflexivity|]. by exists shapesLog.
Qed.

Lemma results_policy_failed kAlignment conv preparedModel testModel testConfig
    skipped l0 skipped1 request execution l skipped2 r :
  TestConfig.outputType testConfig <> INSUFFICIENT ->
  runRequest kAlignment conv preparedModel testModel testConfig skipped
  = Ok (l0, skipped1, Next (request, execution)) ->
  EvaluatePreparedModel kAlignment conv preparedModel testModel testConfig skipped
  = Ok (l, skipped2, r) ->
  ~ passesPolicy testModel testConfig execution ->
  r = Returned
  /\ (l = l0 ++ timingFailures testConfig (Execution.timing execution)
          ++ [FatalFailure (policySite testConfig execution)]
      \/ (TestConfig.outputType testConfig = UNSPECIFIED
          /\ Execution.status execution = GENERAL_FAILURE
          /\ l = l0 ++ skipReport testConfig)).
Proof.
  intros Hot Hrun Heval Hp.
  destruct (decide (TestConfig.outputType testConfig = FULLY_SPECIFIED
                    \/ Execution.status execution <> GENERAL_FAILURE)) as [Hpass|Hskip].
  - rewrite (EvaluatePreparedModel_checked _ _ _ _ _ _ _ _ _ _ Hrun Hpass) in Heval.
    destruct (checkExecution testModel testConfig execution skipped1)
      as [[[l3 s3] r3]| |] eqn:Hcheck; [|done..].
    injection Heval as <- <- <-.
    destruct (checkExecution_specified _ _ _ _ _ _ _ Hot Hcheck) as (_ & _ & Hno).
    destruct (Hno Hp) as (-> & ->). split; [reflexivity|]. by left.
  - assert (Execution.status execution = GENERAL_FAILURE) as Hst.
    { destruct (decide (Execution.status execution = GENERAL_FAILURE)); tauto. }
    assert (TestConfig.outputType testConfig = UNSPECIFIED) as Hun.
    { destruct (TestConfig.outputType testConfig); tauto. }
    rewrite (EvaluatePreparedModel_skipped _ _ _ _ _ _ _ _ _ _ Hrun
               ltac:(rewrite Hun; done) Hst) in Heval.
    injection Heval as <- <- <-. split; [reflexivity|]. right. done.
Qed.

(** X12.  Under the policies FULLY_SPECIFIED and UNSPECIFIED, an evaluation
    whose execution came back retrieves the output buffers and calls the
    comparator exactly when the status is NONE and there are as many output
    shapes as outputs -- or, under FULLY_SPECIFIED only, no output shape at
    all.  It then runs to its end, the two calls coming last, after the
    failures of the timing and shape checks, which are not fatal and do not
    prevent the comparison.  Otherwise it returns after the fatal failure of
    the policy, or after a skip when the status is GENERAL_FAILURE under
    UNSPECIFIED. *)
Theorem results_compared_iff kAlignment conv preparedModel testModel testConfig
    skipped l0 skipped1 request execution l skipped2 r :
  TestConfig.outputType testConfig <> INSUFFICIENT ->
  runRequest kAlignment conv preparedModel testModel testConfig skipped
  = Ok (l0, skipped1, Next (request, execution)) ->
  EvaluatePreparedModel kAlignment conv preparedModel testModel testConfig skipped
  = Ok (l, skipped2, r) ->
  ((Called checkResults_ ∈ l) <-> passesPolicy testModel testConfig execution)
  /\ (passesPolicy testModel testConfig execution ->
      r = Next tt
      /\ exists shapesLog,
           l = l0 ++ timingFailures testConfig (Execution.timing execution) ++ shapesLog
               ++ [Called getOutputBuffers_; Called checkResults_]
           /\ Forall (fun e => shapeEvent e = true) shapesLog)
  /\ (~ passesPolicy testModel testConfig execution ->
      r = Returned
      /\ (l = l0 ++ timingFailures testConfig (Execution.timing execution)
              ++ [FatalFailure (policySite testConfig execution)]
          \/ (TestConfig.outputType testConfig = UNSPECIFIED
              /\ Execution.status execution = GENERAL_FAILURE
              /\ l = l0 ++ skipReport testConfig))).
Proof.
  intros Hot Hrun Heval.
  pose proof (results_policy_passed _ _ _ _ _ _ _ _ _ _ _ _ _ Hot Hrun Heval) as Hyes.
  pose proof (results_policy_failed _ _ _ _ _ _ _ _ _ _ _ _ _ Hot Hrun Heval) as Hno.
  split; [|split; [|exact Hno]].
  - destruct (decide (passesPolicy testModel testConfig execution)) as [Hp|Hp].
    + destruct (Hyes Hp) as (_ & shapesLog & -> & _).
      split; [done|]. intros _. rewrite !elem_of_app. do 3 right. elem_here.
    + split; [|done]. intros Hin. exfalso.
      destruct (runRequest_never_retrieves _ _ _ _ _ _ _ _ _ Hrun) as [_ Hl0].
      pose proof (timingFailures_timing testConfig (Execution.timing execution)) as Hall.
      rewrite Forall_forall in Hall.
      destruct (Hno Hp) as (_ & [->|(_ & _ & ->)]).
      * rewrite !elem_of_app in Hin. destruct Hin as [Hin|[Hin|Hin]]; [done| |].
        -- by apply Hall in Hin.
        -- elem_absurd Hin.
      * rewrite elem_of_app in Hin. destruct Hin as [Hin|Hin]; [done|].
        unfold skipReport in Hin. destruct (TestConfig.reportSkipping testConfig);
          elem_absurd Hin.
  - intros Hp. destruct (Hyes Hp) as (-> & shapesLog & -> & Hshapes).
    split; [reflexivity|]. exists shapesLog. split; [reflexivity|].
    by eapply logs_checkOutputShapes_run.
Qed.

Lemma results_compared_iff_witness :
  exists l,
    EvaluatePreparedModel 64 sampleConvert (answers succeeded) vectorModel
      (TestConfig.mk3 ASYNC NO UNSPECIFIED) None = Ok (l, None, Next tt)
    /\ Called checkResults_ ∈ l.
Proof.
  eexists. split; [reflexivity|].
  apply (results_compared_iff 64 sampleConvert (answers succeeded) vectorModel
           (TestConfig.mk3 ASYNC NO UNSPECIFIED) None _ _ _ succeeded _ None (Next tt)
           ltac:(discriminate) eq_refl eq_refl).
  split; [reflexivity|]. left. reflexivity.
Defined.

(** *** The checks on output shapes *)

Lemma checkOutputShapes_failures {St} testModel shapes : forall i (s : St) l s' r,
  checkOutputShapes testModel i shapes s = Ok (l, s', r) ->
  forall k,
    ((NonFatalFailure (OutputSufficient k) ∈ l) <->
     (i <= k)%nat
     /\ exists shape,
          shapes !! (k - i)%nat = Some shape /\ OutputShape.isSufficient shape = false)
    /\ ((NonFatalFailure (OutputDimensions k) ∈ l) <->
        (i <= k)%nat
        /\ exists shape operandIndex operand,
             shapes !! (k - i)%nat = Some shape
             /\ at_ (TestModel.outputIndexes testModel) (Z.of_nat k) = Ok operandIndex
             /\ at_ (TestModel.operands testModel) operandIndex = Ok operand
             /\ TestOperand.dimensions operand <> OutputShape.dimensions shape).
Proof.
  induction shapes as [|shape rest IH]; intros i s l s' r; simpl.
  - intros [= <- <- <-] k. split; (split; [by intros ?%elem_of_nil|]).
    + by intros (_ & shape & [=] & _).
    + by intros (_ & shape & oi & op & [=] & _).
  - rewrite (bind_Next _ _ _ _ _ _ (EXPECT_run _ _ s)).
    destruct (at_ (TestModel.outputIndexes testModel) (Z.of_nat i)) as [oi| |] eqn:Hoi;
      [|done..].
    rewrite (bind_Next _ _ _ _ _ _ (lift_Ok oi s)).
    destruct (at_ (TestModel.operands testModel) oi) as [op| |] eqn:Hop; [|done..].
    rewrite (bind_Next _ _ _ _ _ _ (lift_Ok op s)).
    rewrite (bind_Next _ _ _ _ _ _ (EXPECT_run _ _ s)).
    destruct (checkOutputShapes testModel (S i) rest s) as [[[l1 s1] r1]| |] eqn:Hrest;
      [|done..].
    intros [= <- <- <-] k. specialize (IH _ _ _ _ _ Hrest k) as [IHs IHd].
    rewrite !elem_of_app, IHs, IHd.
    destruct (decide (k = i)) as [->|Hne].
    + rewrite Nat.sub_diag. simpl. split.
      * split.
        -- intros [Hin|[Hin|[Hlt _]]]; [| |lia].
           ++ destruct (OutputShape.isSufficient shape) eqn:Hs; [elem_absurd Hin|].
              split; [lia|]. by exists shape.
           ++ case_bool_decide; elem_absurd Hin.
        -- intros (_ & shape' & [= <-] & ->). left. elem_here.
      * split.
        -- intros [Hin|[Hin|[Hlt _]]]; [| |lia].
           ++ destruct (OutputShape.isSufficient shape); elem_absurd Hin.
           ++ case_bool_decide as Hd; [elem_absurd Hin|].
              split; [lia|]. by exists shape, oi, op.
        -- intros (_ & shape' & oi' & op' & [= <-] & Hoi' & Hop' & Hd).
           rewrite Hoi in Hoi'. injection Hoi' as <-.
           rewrite Hop in Hop'. injection Hop' as <-.
           right. left. rewrite bool_decide_eq_false_2 by exact Hd. elem_here.
    + assert (forall e, (exists j, e = NonFatalFailure (OutputSufficient j)
                                   \/ e = NonFatalFailure (OutputDimensions j)) ->
                (forall j, e = NonFatalFailure (OutputSufficient j)
                           \/ e = NonFatalFailure (OutputDimensions j) -> j <> i) ->
                ~ (e ∈ (if OutputShape.isSufficient shape then []
                        else [NonFatalFailure (OutputSufficient i)])
                   \/ e ∈ (if bool_decide (TestOperand.dimensions op
                                           = OutputShape.dimensions shape) then []
                           else [NonFatalFailure (OutputDimensions i)]))) as Hhere.
      { intros e _ Hother [Hin|Hin].
        - destruct (OutputShape.isSufficient shape); [elem_absurd Hin|].
          apply list_elem_of_singleton in Hin. by apply (Hother i); [left|].
        - case_bool_decide; [elem_absurd Hin|].
          apply list_elem_of_singleton in Hin. by apply (Hother i); [right|]. }
      split.
      * split.
        -- intros [Hin|[Hin|(Hlt & shape' & Hat & Hs)]].
           ++ exfalso. eapply Hhere; [by eexists; left | | left; exact Hin].
              intros j [[= ->]|[=]]. exact Hne.
           ++ exfalso. eapply Hhere; [by eexists; left | | right; exact Hin].
              intros j [[= ->]|[=]]. exact Hne.
           ++ split; [lia|]. exists shape'. split; [|exact Hs].
              replace (k - i)%nat with (S (k - S i))%nat by lia. exact Hat.
        -- intros (Hlt & shape' & Hat & Hs). right. right. split; [lia|].
           exists shape'. split; [|exact Hs].
           replace (k - i)%nat with (S (k - S i))%nat in Hat by lia. exact Hat.
      * split.
        -- intros [Hin|[Hin|(Hlt & shape' & oi' & op' & Hat & Hrest')]].
           ++ exfalso. eapply Hhere; [by eexists; right | | left; exact Hin].
              intros j [[=]|[= ->]]. exact Hne.
           ++ exfalso. eapply Hhere; [by eexists; right | | right; exact Hin].
              intros j [[=]|[= ->]]. exact Hne.
           ++ split; [lia|]. exists shape', oi', op'. split; [|exact Hrest'].
              replace (k - i)%nat with (S (k - S i))%nat by lia. exact Hat.
        -- intros (Hlt & shape' & oi' & op' & Hat & Hrest'). right. right. split; [lia|].
           exists shape', oi', op'. split; [|exact Hrest'].
           replace (k - i)%nat with (S (k - S i))%nat in Hat by lia. exact Hat.
Qed.

(** X13.  In an evaluation that ran to its end, the failure of the
    sufficiency check of output [i] is logged exactly when the shape returned
    for output [i] is marked not sufficient, and the failure of its dimension
    check exactly when the dimensions of that shape differ from those
    declared for the operand of output [i]. *)
Theorem shape_check kAlignment conv preparedModel testModel testConfig
    skipped l0 skipped1 request execution l skipped2 :
  runRequest kAlignment conv preparedModel testModel testConfig skipped
  = Ok (l0, skipped1, Next (request, execution)) ->
  EvaluatePreparedModel kAlignment conv preparedModel testModel testConfig skipped
  = Ok (l, skipped2, Next tt) ->
  forall i : nat,
    ((NonFatalFailure (OutputSufficient i) ∈ l) <->
     exists shape,
       Execution.outputShapes execution !! i = Some shape
       /\ OutputShape.isSufficient shape = false)
    /\ ((NonFatalFailure (OutputDimensions i) ∈ l) <->
        exists shape operandIndex operand,
          Execution.outputShapes execution !! i = Some shape
          /\ at_ (TestModel.outputIndexes testModel) (Z.of_nat i) = Ok operandIndex
          /\ at_ (TestModel.operands testModel) operandIndex = Ok operand
          /\ TestOperand.dimensions operand <> OutputShape.dimensions shape).
Proof.
  intros Hrun Heval i.
  assert (TestConfig.outputType testConfig <> INSUFFICIENT) as Hot.
  { intros Hot.
    destruct (decide (Execution.status execution = GENERAL_FAILURE)) as [Hst|Hst].
    - rewrite (EvaluatePreparedModel_skipped _ _ _ _ _ _ _ _ _ _ Hrun
                 ltac:(rewrite Hot; done) Hst) in Heval. discriminate.
    - rewrite (EvaluatePreparedModel_checked _ _ _ _ _ _ _ _ _ _ Hrun (or_intror Hst))
        in Heval.
      destruct (checkExecution testModel testConfig execution skipped1)
        as [[[l3 s3] r3]| |] eqn:Hcheck; [|done..].
      injection Heval as <- <- ->.
      unfold checkExecution in Hcheck.
      rewrite (bind_Next _ _ _ _ _ _ (checkTiming_run testConfig _ skipped1)) in Hcheck.
      unfold checkOutputType in Hcheck. rewrite Hot in Hcheck.
      unfold bind, ASSERT, lift, ret, return_ in Hcheck.
      repeat (case_bool_decide; simpl in Hcheck; try discriminate).
      destruct (at_ (Execution.outputShapes execution) 0); simpl in Hcheck;
        try discriminate.
      destruct (negb _); simpl in Hcheck; discriminate. }
  destruct (decide (passesPolicy testModel testConfig execution)) as [Hp|Hp].
  2: { by destruct (results_policy_failed kAlignment conv preparedModel testModel testConfig
                      skipped l0 skipped1 request execution l skipped2 (Next tt)
                      Hot Hrun Heval Hp). }
  destruct (results_policy_passed kAlignment conv preparedModel testModel testConfig
              skipped l0 skipped1 request execution l skipped2 (Next tt)
              Hot Hrun Heval Hp) as (_ & shapesLog & -> & Hshapes).
  pose proof (runRequest_events _ _ _ _ _ _ _ _ _ Hrun) as Hl0.
  pose proof (timingFailures_timing testConfig (Execution.timing execution)) as Htiming.
  rewrite Forall_forall in Hl0, Htiming.
  pose proof (checkOutputShapes_failures _ _ _ _ _ _ _ Hshapes i) as [Hs Hd].
  rewrite Nat.sub_0_r in Hs, Hd.
  split.
  - split.
    + rewrite !elem_of_app.
      intros [Hin|[Hin|[Hin|Hin]]];
        [by apply Hl0 in Hin | by apply Htiming in Hin | | elem_absurd Hin].
      by apply Hs in Hin as [_ Hin].
    + intros Hshape. rewrite !elem_of_app. right. right. left.
      apply Hs. split; [lia|exact Hshape].
  - split.
    + rewrite !elem_of_app.
      intros [Hin|[Hin|[Hin|Hin]]];
        [by apply Hl0 in Hin | by apply Htiming in Hin | | elem_absurd Hin].
      by apply Hd in Hin as [_ Hin].
    + intros Hshape. rewrite !elem_of_app. right. right. left.
      apply Hd. split; [lia|exact Hshape].
Qed.

Lemma shape_check_witness :
  EvaluatePreparedModel 64 sampleConvert (answers misshapen) vectorModel
    (TestConfig.mk3 SYNC NO FULLY_SPECIFIED) None
  = Ok ([Called createRequest_; Called executeSynchronously_1_3_;
         NonFatalFailure (OutputSufficient 0); NonFatalFailure (OutputDimensions 0);
         Called getOutputBuffers_; Called checkResults_], None, Next tt)
  /\ (NonFatalFailure (OutputDimensions 0)
      ∈ [Called createRequest_; Called executeSynchronously_1_3_;
         NonFatalFailure (OutputSufficient 0); NonFatalFailure (OutputDimensions 0);
         Called getOutputBuffers_; Called checkResults_]).
Proof.
  split; [reflexivity|].
  apply (shape_check 64 sampleConvert (answers misshapen) vectorModel
           (TestConfig.mk3 SYNC NO FULLY_SPECIFIED) None _ _ _ misshapen _ None
           eq_refl eq_refl 0%nat).
  exists (OutputShape.mk [2; 2] false), 1,
    (sampleOperand SUBGRAPH_OUTPUT [4] (replicate 16 x02)).
  repeat split; discriminate.
Defined.

(** *** Nothing follows an ending event *)

Section StopsRules.

Context {S A B : Type}.
Implicit Types (m : Body S A) (f : A -> Body S B).

Lemma stops_silent m :
  logs (fun e => ending e = false) m -> stops m.
Proof.
  intros Hm s l s' r Hrun l1 e l2 -> He.
  apply Hm in Hrun. rewrite Forall_forall in Hrun.
  specialize (Hrun e ltac:(rewrite elem_of_app; right; elem_here)). congruence.
Qed.

Lemma stops_bind m f : stops m -> (forall a, stops (f a)) -> stops (bind m f).
Proof.
  intros Hm Hf s l s' r Hrun l1 e l2 Hl He.
  apply bind_inv in Hrun as [[Hrun ->]|(k1 & s1 & a & k2 & H1 & H2 & ->)].
  - destruct (Hm _ _ _ _ Hrun _ _ _ Hl He) as [-> _]. done.
  - symmetry in Hl. apply app_eq_inv in Hl as [(k & -> & Hk2)|(k & Hk1 & Hl2)].
    + by eapply (Hf a _ _ _ _ H2 k e l2).
    + destruct k as [|e' k].
      * simpl in Hl2. by eapply (Hf a _ _ _ _ H2 [] e l2).
      * injection Hl2 as <- ->.
        by destruct (Hm _ _ _ _ H1 l1 e k Hk1 He) as [_ [=]].
Qed.

Lemma stops_ASSERT site b : stops (ASSERT (S:=S) site b).
Proof.
  intros s l s' r. destruct b; simpl.
  - intros [= <- <- <-] l1 e l2 Hl. by destruct l1.
  - intros [= <- <- <-] l1 e l2 Hl He.
    destruct l1 as [|e1 l1]; [by injection Hl as <- <-|].
    injection Hl as _ Hl. by destruct l1.
Qed.

Lemma stops_GTEST_SKIP : stops (GTEST_SKIP (S:=S) (A:=A)).
Proof.
  intros s l s' r [= <- <- <-] l1 e l2 Hl He.
  destruct l1 as [|e1 l1]; [by injection Hl as <- <-|].
  injection Hl as _ Hl. by destruct l1.
Qed.

End StopsRules.

Ltac stops_step :=
  match goal with
  | |- stops (bind _ _) => apply stops_bind; [|intros ?]
  | |- stops (ASSERT _ _) => apply stops_ASSERT
  | |- stops GTEST_SKIP => apply stops_GTEST_SKIP
  | |- stops (if ?b then _ else _) => destruct b
  | |- stops (match ?x with _ => _ end) => destruct x
  | |- stops _ => apply stops_silent; solve [body_auto]
  end.

Lemma stops_checkOutputShapes {St} testModel shapes : forall i,
  stops (checkOutputShapes (St:=St) testModel i shapes).
Proof.
  intros i. apply stops_silent.
  apply (logs_checkOutputShapes (fun e => ending e = false)); reflexivity.
Qed.

(** X14.  In an evaluation nothing is logged after a skip or after a fatal
    failure of one of the evaluator's own assertions, and the evaluator has
    then returned: no driver call, check or comparison follows.  (The
    assertion inside [makeOutputInsufficientSize] is no such event: it returns
    from the helper only.) *)
Theorem nothing_follows_a_fatal_failure kAlignment conv preparedModel testModel testConfig
    skipped l skipped' r l1 e l2 :
  EvaluatePreparedModel kAlignment conv preparedModel testModel testConfig skipped
  = Ok (l, skipped', r) ->
  l = l1 ++ e :: l2 ->
  ending e = true ->
  l2 = [] /\ r = Returned.
Proof.
  assert (stops (EvaluatePreparedModel kAlignment conv preparedModel testModel testConfig))
    as Hstops.
  { unfold EvaluatePreparedModel, runRequest.
    apply stops_bind.
    { apply stops_bind.
      { apply stops_silent. intros s0 l0 s0' r0. rewrite setSkipped_run.
        intros [= <- <- <-]. constructor. }
      intros _. apply stops_bind.
      { apply stops_silent. by apply logs_buildRequest. }
      intros request. apply stops_bind; [|intros ?; apply stops_silent; body_auto].
      unfold runExecutor, ExecutePreparedModel. repeat stops_step. }
    intros [request execution]. cbn [snd]. apply stops_bind.
    { unfold skipUnsupported. destruct (_ && _); [|apply stops_silent; body_auto].
      apply stops_bind.
      { apply stops_silent. intros s0 l0 s0' r0. rewrite setSkipped_run.
        intros [= <- <- <-]. constructor. }
      intros _. repeat stops_step. }
    intros _. unfold checkExecution, checkTiming, checkOutputType.
    pose proof (@stops_checkOutputShapes (option bool) testModel
                  (Execution.outputShapes execution) 0%nat).
    repeat (assumption || stops_step). }
  intros Hrun. by eapply Hstops.
Qed.

Lemma nothing_follows_a_fatal_failure_witness :
  EvaluatePreparedModel 64 sampleConvert (answers unavailable) vectorModel
    (TestConfig.mk3 BURST NO FULLY_SPECIFIED) None
  = Ok ([Called createRequest_; Called CreateBurst_; Called compute_]
        ++ FatalFailure StatusNone :: [], None, Returned)
  /\ ([] : list Event) = [] /\ (Returned : Flow unit) = Returned.
Proof.
  split; [reflexivity|].
  exact (nothing_follows_a_fatal_failure 64 sampleConvert (answers unavailable) vectorModel
           (TestConfig.mk3 BURST NO FULLY_SPECIFIED) None _ None Returned
           [Called createRequest_; Called CreateBurst_; Called compute_]
           (FatalFailure StatusNone) [] eq_refl eq_refl eq_refl).
Defined.

(** *** A model without output 0 *)

(** X15.  Under the INSUFFICIENT policy the evaluator reads output 0 before
    anything else (line 191): on a model without an output 0, or whose output
    0 designates no operand, the evaluation is undefined. *)
Theorem insufficient_needs_output0 kAlignment conv preparedModel testModel testConfig
    skipped :
  TestConfig.outputType testConfig = INSUFFICIENT ->
  ~ (exists operandIndex operand,
       at_ (TestModel.outputIndexes testModel) 0 = Ok operandIndex
       /\ at_ (TestModel.operands testModel) operandIndex = Ok operand) ->
  EvaluatePreparedModel kAlignment conv preparedModel testModel testConfig skipped
  = Undefined.
Proof.
  intros Hot Hnone.
  assert (isOutputSizeGreaterThanOne testModel 0 = Undefined) as Hgt.
  { unfold isOutputSizeGreaterThanOne.
    pose proof (at_not_aborted (TestModel.outputIndexes testModel) 0).
    destruct (at_ (TestModel.outputIndexes testModel) 0) as [oi| |] eqn:Hoi; [|done..].
    simpl. pose proof (at_not_aborted (TestModel.operands testModel) oi).
    destruct (at_ (TestModel.operands testModel) oi) as [op| |] eqn:Hop; [|done..].
    exfalso. apply Hnone. by exists oi, op. }
  unfold EvaluatePreparedModel, runRequest.
  unfold bind at 1. unfold bind at 1.
  rewrite setSkipped_run. unfold bind at 1.
  unfold buildRequest. rewrite Hot, Hgt. rewrite decide_True by reflexivity.
  reflexivity.
Qed.

Lemma insufficient_needs_output0_witness :
  EvaluatePreparedModel 64 sampleConvert (answers tooSmall) noOutputModel
    (TestConfig.mk3 ASYNC NO INSUFFICIENT) None = Undefined.
Proof.
  apply insufficient_needs_output0; [reflexivity|].
  intros (oi & op & [=] & _).
Defined.

(** *** The skipped pointer is write-only *)

Section ObliviousRules.

Context {S A B : Type}.
Implicit Types (m : Body S A) (f : A -> Body S B).

Lemma oblivious_bind m f : oblivious m -> (forall a, oblivious (f a)) -> oblivious (bind m f).
Proof.
  intros Hm Hf s s'. specialize (Hm s s'). unfold bind, sameButState in *.
  destruct (m s) as [[[l1 s1] [a|]]| |], (m s') as [[[l1' s1'] [a'|]]| |]; try done;
    destruct Hm as [-> Ha]; try discriminate; [|done].
  injection Ha as <-. specialize (Hf a s1 s1'). unfold sameButState in Hf.
  destruct (f a s1) as [[[l2 s2] r2]| |], (f a s1') as [[[l2' s2'] r2']| |]; try done.
  by destruct Hf as [-> ->].
Qed.

Lemma oblivious_ret (a : A) : oblivious (ret (S:=S) a).
Proof. by intros s s'. Qed.

Lemma oblivious_return : oblivious (return_ (S:=S) (A:=A)).
Proof. by intros s s'. Qed.

Lemma oblivious_lift (o : Outcome A) : oblivious (lift (S:=S) o).
Proof. intros s s'. by destruct o. Qed.

Lemma oblivious_emit e : oblivious (emit (S:=S) e).
Proof. by intros s s'. Qed.

Lemma oblivious_ASSERT site b : oblivious (ASSERT (S:=S) site b).
Proof. intros s s'. by destruct b. Qed.

Lemma oblivious_EXPECT site b : oblivious (EXPECT (S:=S) site b).
Proof. intros s s'. by destruct b. Qed.

Lemma oblivious_GTEST_SKIP : oblivious (GTEST_SKIP (S:=S) (A:=A)).
Proof. by intros s s'. Qed.

Lemma oblivious_call {S'} (callee : Body S' unit) (s0 : S') :
  oblivious (call (S:=S) callee s0).
Proof. intros s s'. unfold call. by destruct (callee s0) as [[[l s1] r]| |]. Qed.

End ObliviousRules.

Lemma oblivious_setSkipped (b : bool) : oblivious (setSkipped b).
Proof. intros s s'. by rewrite !setSkipped_run. Qed.

Ltac oblivious_step :=
  match goal with
  | |- oblivious (bind _ _) => apply oblivious_bind; [|intros ?]
  | |- oblivious (ret _) => apply oblivious_ret
  | |- oblivious return_ => apply oblivious_return
  | |- oblivious (lift _) => apply oblivious_lift
  | |- oblivious (emit _) => apply oblivious_emit
  | |- oblivious (ASSERT _ _) => apply oblivious_ASSERT
  | |- oblivious (EXPECT _ _) => apply oblivious_EXPECT
  | |- oblivious GTEST_SKIP => apply oblivious_GTEST_SKIP
  | |- oblivious (call _ _) => apply oblivious_call
  | |- oblivious (setSkipped _) => apply oblivious_setSkipped
  | |- oblivious (if ?b then _ else _) => destruct b
  | |- oblivious (match ?x with _ => _ end) => destruct x
  end.

Lemma oblivious_checkOutputShapes {St} testModel shapes : forall i,
  oblivious (checkOutputShapes (St:=St) testModel i shapes).
Proof.
  induction shapes as [|shape rest IH]; intros i; simpl; repeat (apply IH || oblivious_step).
Qed.

Lemma oblivious_EvaluatePreparedModel kAlignment conv preparedModel testModel testConfig :
  oblivious (EvaluatePreparedModel kAlignment conv preparedModel testModel testConfig).
Proof.
  unfold EvaluatePreparedModel, runRequest, buildRequest, runExecutor, ExecutePreparedModel,
    skipUnsupported, checkExecution, checkTiming, checkOutputType.
  pose proof (@oblivious_checkOutputShapes (option bool) testModel) as Hshapes.
  repeat (apply Hshapes || oblivious_step).
Qed.

(** X16.  The skipped pointer is write-only: what an evaluation logs and
    how it ends depend neither on whether a pointer to a flag is passed nor
    on the value the flag had; the flag is only ever written. *)
Theorem skipped_pointer_is_write_only kAlignment conv preparedModel testModel testConfig
    (skipped skipped' : option bool) l flag r :
  EvaluatePreparedModel kAlignment conv preparedModel testModel testConfig skipped
  = Ok (l, flag, r) ->
  exists flag',
    EvaluatePreparedModel kAlignment conv preparedModel testModel testConfig skipped'
    = Ok (l, flag', r).
Proof.
  intros Hrun.
  pose proof (oblivious_EvaluatePreparedModel kAlignment conv preparedModel testModel
                testConfig skipped skipped') as Hsame.
  rewrite Hrun in Hsame. unfold sameButState in Hsame.
  destruct (EvaluatePreparedModel _ _ _ _ _ skipped') as [[[l' flag'] r']| |]; try done.
  destruct Hsame as [-> ->]. by exists flag'.
Qed.

Lemma skipped_pointer_is_write_only_witness :
  exists flag,
    EvaluatePreparedModel 64 sampleConvert (answers unsupported) vectorModel
      (TestConfig.mk3 SYNC NO INSUFFICIENT) None
    = Ok ([Called createRequest_; Called executeSynchronously_1_3_;
           LogInfo CannotExecute; Cout CannotExecute; Skip], flag, Returned).
Proof.
  exact (skipped_pointer_is_write_only 64 sampleConvert (answers unsupported) vectorModel
           (TestConfig.mk3 SYNC NO INSUFFICIENT) (Some false) None _ (Some true) Returned
           eq_refl).
Defined.

(** ** Properties of the scenario matrix and of the runs *)

(** *** The scenario matrix *)

Lemma for_each_calls {S S' A} (cs : list A) (callee : A -> Body S' unit) (s0 : S') (s : S) :
  (forall c, c ∈ cs -> exists lg s' r, callee c s0 = Ok (lg, s', r)) ->
  exists logs,
    Forall2 (fun c lg => exists s' r, callee c s0 = Ok (lg, s', r)) cs logs
    /\ for_each cs (fun c => call (callee c) s0 ;; ret tt) s = Ok (concat logs, s, Next tt).
Proof.
  induction cs as [|c cs IH]; intros Hdef.
  - exists []. split; [constructor|reflexivity].
  - destruct (Hdef c ltac:(elem_here)) as (lg & s' & r & Hc).
    destruct IH as (logs & Hall & Hrun).
    { intros c' Hin. apply Hdef. by right. }
    exists (lg :: logs). split; [constructor; [by eexists _, _|exact Hall]|].
    assert ((call (callee c) s0 ;; ret tt) s = Ok (lg, s, Next tt)) as Hb.
    { unfold bind, call, ret. rewrite Hc. by rewrite app_nil_r. }
    cbn [for_each]. rewrite (bind_Next _ _ _ _ _ _ Hb), Hrun. reflexivity.
Qed.

Lemma for_each_ext {S A} (l : list A) (f g : A -> Body S unit) s :
  (forall x s', f x s' = g x s') -> for_each l f s = for_each l g s.
Proof.
  intros Hfg. revert s. induction l as [|x l IH]; intros s; simpl; [reflexivity|].
  unfold bind. rewrite Hfg. destruct (g x s) as [[[l1 s1] [[]|]]| |]; try reflexivity.
  by rewrite IH.
Qed.

Lemma for_each_nested {S A C} (l : list A) (cs : A -> list C) (body : C -> Body S unit) s :
  for_each l (fun a => for_each (cs a) body) s = for_each (l ≫= cs) body s.
Proof.
  revert s. induction l as [|a l IH]; intros s; [reflexivity|].
  cbn [for_each mbind list_bind]. rewrite for_each_app.
  apply bind_ext. intros _ s'. apply IH.
Qed.

Lemma for_each_singleton {S A} (x : A) (body : A -> Body S unit) s :
  for_each [x] body s = body x s.
Proof. simpl. apply bind_ret_r. Qed.

Lemma for_each_matrix {S} (outputTypesList : list OutputType)
    (measureTimingList : list MeasureTiming) (executorList : list Executor)
    (make : Executor -> MeasureTiming -> OutputType -> TestConfig.t)
    (body : TestConfig.t -> Body S unit) s :
  for_each outputTypesList (fun outputType =>
    for_each measureTimingList (fun measureTiming =>
      for_each executorList (fun executor =>
        body (make executor measureTiming outputType)))) s
  = for_each (outputType ← outputTypesList;
              measureTiming ← measureTimingList;
              executor ← executorList;
              [make executor measureTiming outputType]) body s.
Proof.
  rewrite <- for_each_nested. apply for_each_ext. intros outputType s1.
  rewrite <- for_each_nested. apply for_each_ext. intros measureTiming s2.
  rewrite <- for_each_nested. apply for_each_ext. intros executor s3.
  by rewrite for_each_singleton.
Qed.

Lemma EvaluatePreparedModel_TestKind_flat kAlignment conv preparedModel testModel
    testKind s :
  testKind <> QUANTIZATION_COUPLING ->
  EvaluatePreparedModel_TestKind kAlignment conv preparedModel testModel testKind s
  = for_each (matrixConfigs testKind)
      (fun testConfig =>
         call (EvaluatePreparedModel kAlignment conv preparedModel testModel testConfig)
           None ;; ret tt) s.
Proof.
  intros Hkind. unfold EvaluatePreparedModel_TestKind, matrixConfigs.
  destruct testKind; [| |done].
  - rewrite (bind_Next _ _ _ _ _ _ (lift_Ok _ s)).
    rewrite <- (for_each_matrix _ _ _ TestConfig.mk3).
    destruct (for_each _ _ s) as [[[l s'] r]| |]; reflexivity.
  - rewrite (bind_Next _ _ _ _ _ _ (lift_Ok _ s)).
    rewrite <- (for_each_matrix _ _ _ TestConfig.mk3).
    destruct (for_each _ _ s) as [[[l s'] r]| |]; reflexivity.
Qed.

(** X17.  The scenario matrix.  For GENERAL (6 configurations) and
    DYNAMIC_SHAPE (12), on a model with valid indexes,
    [EvaluatePreparedModel(..., TestKind)] evaluates every configuration of
    the matrix, in loop order, each with a null skipped pointer, and its log
    is the concatenation of the logs of these evaluations: a fatal failure or
    a skip in one configuration does not keep the later ones from running.
    For QUANTIZATION_COUPLING it aborts (LOG(FATAL)). *)
Theorem scenario_matrix kAlignment conv preparedModel testModel :
  (forall s,
     EvaluatePreparedModel_TestKind kAlignment conv preparedModel testModel
       QUANTIZATION_COUPLING s = Aborted)
  /\ (forall testKind,
        testKind <> QUANTIZATION_COUPLING ->
        validIndexes testModel ->
        exists logs,
          Forall2 (fun testConfig log => exists skipped r,
                     EvaluatePreparedModel kAlignment conv preparedModel testModel
                       testConfig None = Ok (log, skipped, r))
                  (matrixConfigs testKind) logs
          /\ EvaluatePreparedModel_TestKind kAlignment conv preparedModel testModel
               testKind tt = Ok (concat logs, tt, Next tt)).
Proof.
  split; [reflexivity|].
  intros testKind Hkind Hvalid.
  rewrite (EvaluatePreparedModel_TestKind_flat _ _ _ _ _ _ Hkind).
  apply for_each_calls. intros testConfig _.
  apply (defined_EvaluatePreparedModel _ _ _ _ _ Hvalid).
Qed.

(** *** Runs of [Execute] *)

Lemma makeOutputDimensionsUnspecified_outputs model model' :
  makeOutputDimensionsUnspecified model = Ok model' -> outputsUnspecified model'.
Proof.
  unfold makeOutputDimensionsUnspecified, outputsUnspecified.
  destruct (blankDimensions _ _) as [operands'| |] eqn:Hrun; simpl; try discriminate.
  intros [= <-]. simpl.
  destruct (blankDimensions_lookup _ _ _ Hrun) as (Hrange & Hlen & Hlookup).
  apply Forall_forall. intros i Hin op [Hi Hop]%at_Ok.
  rewrite Hlookup in Hop.
  destruct (Model.operands model !! Z.to_nat i) as [op0|]; [|done].
  injection Hop as <-. unfold unspecifiedAt.
  rewrite decide_True by (by rewrite Z2Nat.id by lia).
  simpl. apply Forall_forall. intros d Hd.
  apply list_elem_of_fmap in Hd as (d0 & -> & _). reflexivity.
Qed.

Section Runs.

Variable kAlignment : Z.
Variable allocateSharedMemory : Z -> hidl_memory.
Variable convertResultCodeToErrorStatus : Z -> ErrorStatus.
Variable hasQuant8CoupledOperands : TestModel.t -> bool.
Variable convertQuant8AsymmOperandsToSigned : TestModel.t -> TestModel.t.
Variable IDevice : Type.

Lemma Execute_run
    (createPreparedModel : IDevice -> Model.t -> bool -> list Event * option IPreparedModel.t)
    device testModel testKind model :
  testKind <> QUANTIZATION_COUPLING ->
  deviceModel kAlignment allocateSharedMemory testModel testKind = Ok model ->
  Execute kAlignment allocateSharedMemory convertResultCodeToErrorStatus
    hasQuant8CoupledOperands convertQuant8AsymmOperandsToSigned IDevice
    createPreparedModel device testModel testKind tt
  = match (createPreparedModel device model true).2 with
    | None =>
        Ok (Called createPreparedModel_ :: (createPreparedModel device model true).1,
            tt, Returned)
    | Some preparedModel =>
        match EvaluatePreparedModel_TestKind kAlignment convertResultCodeToErrorStatus
                preparedModel testModel testKind tt with
        | Ok (l, _, _) =>
            Ok ((Called createPreparedModel_ :: (createPreparedModel device model true).1)
                ++ l, tt, Next tt)
        | Aborted => Aborted
        | Undefined => Undefined
        end
    end.
Proof.
  intros Hkind. unfold deviceModel, Execute.
  destruct (createModel kAlignment allocateSharedMemory testModel) as [model0| |];
    [|done..].
  simpl. rewrite (bind_Next _ _ _ _ _ _ (lift_Ok model0 tt)).
  destruct testKind; [| |done].
  - rewrite decide_False by done. intros [= ->].
    rewrite (bind_Next _ _ _ _ _ _ (eq_refl : ret model tt = Ok ([], tt, Next model))).
    rewrite (bind_Next _ _ _ _ _ _ (prepare_run createPreparedModel device model true tt)).
    destruct (createPreparedModel device model true) as [logged [preparedModel|]];
      cbn [fst snd]; [|simpl; by rewrite app_nil_r].
    unfold call.
    destruct (EvaluatePreparedModel_TestKind _ _ _ _ _ tt) as [[[l []] r]| |];
      reflexivity.
  - rewrite decide_True by done. intros Hblank. rewrite Hblank.
    rewrite (bind_Next _ _ _ _ _ _ (lift_Ok model tt)).
    rewrite (bind_Next _ _ _ _ _ _ (prepare_run createPreparedModel device model true tt)).
    destruct (createPreparedModel device model true) as [logged [preparedModel|]];
      cbn [fst snd]; [|simpl; by rewrite app_nil_r].
    unfold call.
    destruct (EvaluatePreparedModel_TestKind _ _ _ _ _ tt) as [[[l []] r]| |];
      reflexivity.
Qed.

Variable createPreparedModel :
  IDevice -> Model.t -> bool -> list Event * option IPreparedModel.t.

(** X18.  A GENERAL or DYNAMIC_SHAPE run of [Execute].  When the device
    prepares no model, the run ends at once with the log of the preparation
    alone, neither failure nor skip added; when it prepares one, the whole
    matrix is evaluated on it against the test model, and the run logs the
    preparation followed by the logs of all the configurations. *)
Theorem Execute_evaluates_the_matrix device testModel testKind model :
  testKind <> QUANTIZATION_COUPLING ->
  deviceModel kAlignment allocateSharedMemory testModel testKind = Ok model ->
  ((createPreparedModel device model true).2 = None ->
   Execute kAlignment allocateSharedMemory convertResultCodeToErrorStatus
     hasQuant8CoupledOperands convertQuant8AsymmOperandsToSigned IDevice
     createPreparedModel device testModel testKind tt
   = Ok (Called createPreparedModel_ :: (createPreparedModel device model true).1,
         tt, Returned))
  /\ (forall preparedModel,
        (createPreparedModel device model true).2 = Some preparedModel ->
        validIndexes testModel ->
        exists logs,
          Forall2 (fun testConfig log => exists skipped r,
                     EvaluatePreparedModel kAlignment convertResultCodeToErrorStatus
                       preparedModel testModel testConfig None = Ok (log, skipped, r))
                  (matrixConfigs testKind) logs
          /\ Execute kAlignment allocateSharedMemory convertResultCodeToErrorStatus
               hasQuant8CoupledOperands convertQuant8AsymmOperandsToSigned IDevice
               createPreparedModel device testModel testKind tt
             = Ok ((Called createPreparedModel_
                    :: (createPreparedModel device model true).1) ++ concat logs,
                   tt, Next tt)).
Proof.
  intros Hkind Hmodel.
  rewrite (Execute_run createPreparedModel device testModel testKind model Hkind Hmodel).
  split; [by intros ->|].
  intros preparedModel -> Hvalid.
  rewrite (EvaluatePreparedModel_TestKind_flat _ _ _ _ _ _ Hkind).
  destruct (for_each_calls (S:=unit) (matrixConfigs testKind)
              (EvaluatePreparedModel kAlignment convertResultCodeToErrorStatus
                 preparedModel testModel) None tt) as (logs & Hall & Hrun).
  { intros testConfig _. apply (defined_EvaluatePreparedModel _ _ _ _ _ Hvalid). }
  exists logs. split; [exact Hall|]. by rewrite Hrun.
Qed.

(** X19.  A DYNAMIC_SHAPE run never shows the device a specified output
    dimension: two preparation back ends that agree on every model whose
    output operands have all their dimensions 0 yield the same run. *)
Theorem dynamic_shape_hides_output_dimensions
    (createPreparedModel' :
       IDevice -> Model.t -> bool -> list Event * option IPreparedModel.t)
    device testModel :
  (forall model reportSkipping,
     outputsUnspecified model ->
     createPreparedModel device model reportSkipping
     = createPreparedModel' device model reportSkipping) ->
  Execute kAlignment allocateSharedMemory convertResultCodeToErrorStatus
    hasQuant8CoupledOperands convertQuant8AsymmOperandsToSigned IDevice
    createPreparedModel device testModel DYNAMIC_SHAPE tt
  = Execute kAlignment allocateSharedMemory convertResultCodeToErrorStatus
      hasQuant8CoupledOperands convertQuant8AsymmOperandsToSigned IDevice
      createPreparedModel' device testModel DYNAMIC_SHAPE tt.
Proof.
  intros Hsame.
  destruct (deviceModel kAlignment allocateSharedMemory testModel DYNAMIC_SHAPE)
    as [model| |] eqn:Hmodel.
  - rewrite !(Execute_run _ device testModel DYNAMIC_SHAPE model ltac:(done) Hmodel).
    rewrite Hsame; [reflexivity|].
    unfold deviceModel in Hmodel.
    destruct (createModel kAlignment allocateSharedMemory testModel) as [model0| |];
      [|done..].
    cbn [obind] in Hmodel. rewrite decide_True in Hmodel by done.
    by eapply makeOutputDimensionsUnspecified_outputs.
  - unfold deviceModel in Hmodel. unfold Execute.
    destruct (createModel kAlignment allocateSharedMemory testModel) as [model0| |];
      [|done..].
    cbn [obind] in Hmodel. rewrite decide_True in Hmodel by done.
    rewrite !(bind_Next _ _ _ _ _ _ (lift_Ok model0 tt)).
    rewrite !decide_True by done. unfold bind at 1 3. by rewrite Hmodel.
  - unfold deviceModel in Hmodel. unfold Execute.
    destruct (createModel kAlignment allocateSharedMemory testModel) as [model0| |];
      [|done..].
    cbn [obind] in Hmodel. rewrite decide_True in Hmodel by done.
    rewrite !(bind_Next _ _ _ _ _ _ (lift_Ok model0 tt)).
    rewrite !decide_True by done. unfold bind at 1 3. by rewrite Hmodel.
Qed.

End Runs.

Lemma validIndexes_vectorModel : validIndexes vectorModel.
Proof.
  split; [|split]; [| |discriminate];
    (apply Forall_cons; split; [simpl; lia|by apply Forall_nil]).
Qed.

Lemma Execute_evaluates_the_matrix_witness :
  exists logs,
    length logs = 6%nat
    /\ Execute 64 zeroFilled sampleConvert hasQuant8 toSigned unit preparesAll tt
         vectorModel GENERAL tt
       = Ok ([Called createPreparedModel_] ++ concat logs, tt, Next tt).
Proof.
  destruct (proj2 (Execute_evaluates_the_matrix 64 zeroFilled sampleConvert hasQuant8
                     toSigned unit preparesAll tt vectorModel GENERAL
                     (Model.mk (translatedOperands 64 vectorModel)
                        [Operation.mk 0 [0] [1]] [0] [1] [] [] false)
                     ltac:(discriminate) eq_refl)
              (answers succeeded) eq_refl validIndexes_vectorModel)
    as (logs & Hall & Hrun).
  exists logs. split; [|exact Hrun].
  apply Forall2_length in Hall. by rewrite <- Hall.
Defined.

Lemma outputsUnspecified_hasSpecifiedOutput (model : Model.t) :
  outputsUnspecified model -> hasSpecifiedOutput model = false.
Proof.
  unfold outputsUnspecified, hasSpecifiedOutput.
  induction (Model.outputIndexes model) as [|i rest IH]; [reflexivity|].
  intros [Hi Hrest]%Forall_cons. simpl. rewrite (IH Hrest), orb_false_r.
  destruct (at_ (Model.operands model) i) as [op| |]; [|reflexivity..].
  specialize (Hi op eq_refl).
  induction Hi as [|d dims Hd _ IHd]; [reflexivity|].
  simpl. rewrite IHd, orb_false_r. subst d. reflexivity.
Qed.

Lemma dynamic_shape_hides_output_dimensions_witness :
  Execute 64 zeroFilled sampleConvert hasQuant8 toSigned unit preparesNothing tt
    vectorModel DYNAMIC_SHAPE tt
  = Execute 64 zeroFilled sampleConvert hasQuant8 toSigned unit preparesSpecifiedOnly tt
      vectorModel DYNAMIC_SHAPE tt
  /\ (preparesNothing tt (Model.mk (translatedOperands 64 vectorModel)
                            [Operation.mk 0 [0] [1]] [0] [1] [] [] false) true).2 = None
  /\ is_Some (preparesSpecifiedOnly tt (Model.mk (translatedOperands 64 vectorModel)
                                          [Operation.mk 0 [0] [1]] [0] [1] [] [] false)
                true).2.
Proof.
  split; [|split; [reflexivity|by eexists]].
  apply dynamic_shape_hides_output_dimensions.
  intros model reportSkipping Hmodel. unfold preparesNothing, preparesSpecifiedOnly.
  by rewrite (outputsUnspecified_hasSpecifiedOutput model Hmodel).
Defined.

(** *** A GENERAL run registers no skip of its own *)

Lemma logs_matrix_general kAlignment conv preparedModel testModel :
  logs (S:=unit) (fun e => requestEvent e || checkEvent e = true)
    (for_each (matrixConfigs GENERAL)
       (fun testConfig =>
          call (EvaluatePreparedModel kAlignment conv preparedModel testModel testConfig)
            None ;; ret tt)).
Proof.
  assert (forall testConfig, testConfig ∈ matrixConfigs GENERAL ->
            TestConfig.outputType testConfig = FULLY_SPECIFIED) as Hfs.
  { intros testConfig Hin. simpl in Hin.
    repeat (apply elem_of_cons in Hin as [->|Hin]; [reflexivity|]).
    by apply elem_of_nil in Hin. }
  induction (matrixConfigs GENERAL) as [|testConfig rest IH]; simpl.
  - apply logs_ret.
  - apply logs_bind; [|intros _; apply IH; intros c Hc; apply Hfs; by right].
    apply logs_bind; [|intros ?; apply logs_ret].
    apply logs_call. intros sk l2 sk2 r2 Heval.
    by destruct (EvaluatePreparedModel_fully_specified _ _ _ _ _ _ _ _ _
                   (Hfs testConfig ltac:(elem_here)) Heval).
Qed.

Section GeneralRuns.

Variable kAlignment : Z.
Variable allocateSharedMemory : Z -> hidl_memory.
Variable convertResultCodeToErrorStatus : Z -> ErrorStatus.
Variable hasQuant8CoupledOperands : TestModel.t -> bool.
Variable convertQuant8AsymmOperandsToSigned : TestModel.t -> TestModel.t.
Variable IDevice : Type.
Variable createPreparedModel :
  IDevice -> Model.t -> bool -> list Event * option IPreparedModel.t.

(** X20.  In a GENERAL run, whatever is logged after the preparation comes
    from the executions and their checks and contains no skip: a GENERAL test
    is skipped by the preparation or not at all. *)
Theorem general_run_skips_in_preparation_only device testModel model l s r :
  createModel kAlignment allocateSharedMemory testModel = Ok model ->
  Execute kAlignment allocateSharedMemory convertResultCodeToErrorStatus
    hasQuant8CoupledOperands convertQuant8AsymmOperandsToSigned IDevice
    createPreparedModel device testModel GENERAL tt = Ok (l, s, r) ->
  exists evaluation,
    l = (Called createPreparedModel_ :: (createPreparedModel device model true).1)
        ++ evaluation
    /\ Forall (fun e => requestEvent e || checkEvent e = true) evaluation
    /\ (Skip ∉ evaluation)
    /\ ((createPreparedModel device model true).2 = None -> evaluation = []).
Proof.
  intros Hmodel.
  rewrite (Execute_run kAlignment allocateSharedMemory convertResultCodeToErrorStatus
             hasQuant8CoupledOperands convertQuant8AsymmOperandsToSigned IDevice
             createPreparedModel device testModel GENERAL model ltac:(done)
             ltac:(unfold deviceModel; by rewrite Hmodel)).
  assert (forall evaluation,
    Forall (fun e => requestEvent e || checkEvent e = true) evaluation ->
    Skip ∉ evaluation) as Hnoskip.
  { intros evaluation Hall Hin. rewrite Forall_forall in Hall. by apply Hall in Hin. }
  destruct (createPreparedModel device model true) as [logged [preparedModel|]];
    cbn [fst snd].
  2: { intros [= <- <- <-]. exists []. rewrite app_nil_r.
       split; [reflexivity|]. split; [constructor|]. split; [|done].
       by intros ?%elem_of_nil. }
  destruct (EvaluatePreparedModel_TestKind _ _ _ _ _ tt) as [[[l1 s1] r1]| |] eqn:Hrun;
    [|done..].
  intros [= <- <- <-]. exists l1. split; [reflexivity|].
  assert (Forall (fun e => requestEvent e || checkEvent e = true) l1) as Hall.
  { rewrite EvaluatePreparedModel_TestKind_flat in Hrun by done.
    exact (logs_matrix_general _ _ _ _ _ _ _ _ Hrun). }
  split; [exact Hall|]. split; [by apply Hnoskip|done].
Qed.

End GeneralRuns.

Lemma general_run_skips_in_preparation_only_witness :
  exists evaluation,
    Execute 64 zeroFilled sampleConvert hasQuant8 toSigned unit preparesAll tt
      vectorModel GENERAL tt
    = Ok ([Called createPreparedModel_] ++ evaluation, tt, Next tt)
    /\ (Skip ∉ evaluation).
Proof.
  destruct (Execute 64 zeroFilled sampleConvert hasQuant8 toSigned unit preparesAll tt
              vectorModel GENERAL tt) as [[[l []] r]| |] eqn:Hrun;
    [|vm_compute in Hrun; discriminate Hrun..].
  destruct (general_run_skips_in_preparation_only 64 zeroFilled sampleConvert hasQuant8
              toSigned unit preparesAll tt vectorModel _ l tt r eq_refl Hrun)
    as (evaluation & -> & _ & Hskip & _).
  exists evaluation. split; [|exact Hskip].
  f_equal. f_equal.
  vm_compute in Hrun. by injection Hrun as _ <-.
Defined.

(** *** The coupled evaluation, configuration by configuration *)

Lemma evaluateCoupledPair_run kAlignment conv preparedModel testModel preparedCoupledModel
    coupledModel testConfig s lb sb rb lc sc rc :
  TestConfig.outputType testConfig = FULLY_SPECIFIED ->
  EvaluatePreparedModel kAlignment conv preparedModel testModel testConfig (Some false)
  = Ok (lb, sb, rb) ->
  EvaluatePreparedModel kAlignment conv preparedCoupledModel coupledModel testConfig
    (Some false) = Ok (lc, sc, rc) ->
  evaluateCoupledPair kAlignment conv preparedModel testModel preparedCoupledModel
    coupledModel testConfig s = Ok (lb ++ lc, s, Next tt).
Proof.
  intros Hfs Hb Hc.
  destruct (EvaluatePreparedModel_fully_specified _ _ _ _ _ _ _ _ _ Hfs Hb) as [-> _].
  destruct (EvaluatePreparedModel_fully_specified _ _ _ _ _ _ _ _ _ Hfs Hc) as [-> _].
  unfold evaluateCoupledPair, bind, call. rewrite Hb, Hc. simpl.
  by rewrite !app_nil_r.
Qed.

(** X21.  The coupled evaluation, on models with valid indexes, evaluates
    for each of its six configurations the base model and then the coupled
    model, both leaving the skipped flag down, and logs the two logs one after
    the other: a fatal failure in the evaluation of one model keeps neither
    the other model nor the later configurations from being evaluated. *)
Theorem coupled_evaluation_in_lockstep kAlignment conv preparedModel testModel
    preparedCoupledModel coupledModel :
  validIndexes testModel ->
  validIndexes coupledModel ->
  exists logs,
    Forall2 (fun testConfig log => exists base rb coupled rc,
               EvaluatePreparedModel kAlignment conv preparedModel testModel testConfig
                 (Some false) = Ok (base, Some false, rb)
               /\ EvaluatePreparedModel kAlignment conv preparedCoupledModel coupledModel
                    testConfig (Some false) = Ok (coupled, Some false, rc)
               /\ log = base ++ coupled)
            coupledConfigs logs
    /\ EvaluatePreparedCoupledModels kAlignment conv preparedModel testModel
         preparedCoupledModel coupledModel tt = Ok (concat logs, tt, Next tt).
Proof.
  intros Hbase Hcoupled. rewrite EvaluatePreparedCoupledModels_flat.
  pose proof coupledConfigs_fully_specified as Hfs.
  induction coupledConfigs as [|testConfig rest IH].
  - exists []. split; [constructor|reflexivity].
  - destruct IH as (logs & Hall & Hrun); [intros c Hc; apply Hfs; by right|].
    destruct (Hfs testConfig ltac:(elem_here)) as [Hot _].
    destruct (defined_EvaluatePreparedModel kAlignment conv preparedModel testModel
                testConfig Hbase (Some false)) as (lb & sb & rb & Hb).
    destruct (defined_EvaluatePreparedModel kAlignment conv preparedCoupledModel
                coupledModel testConfig Hcoupled (Some false)) as (lc & sc & rc & Hc).
    pose proof (evaluateCoupledPair_run _ _ _ _ _ _ _ tt _ _ _ _ _ _ Hot Hb Hc) as Hpair.
    destruct (EvaluatePreparedModel_fully_specified _ _ _ _ _ _ _ _ _ Hot Hb) as [-> _].
    destruct (EvaluatePreparedModel_fully_specified _ _ _ _ _ _ _ _ _ Hot Hc) as [-> _].
    exists ((lb ++ lc) :: logs). split.
    + constructor; [|exact Hall]. by exists lb, rb, lc, rc.
    + cbn [for_each]. rewrite (bind_Next _ _ _ _ _ _ Hpair), Hrun. reflexivity.
Qed.

Lemma validIndexes_quantModel : validIndexes quantModel /\ validIndexes (toSigned quantModel).
Proof.
  split; (split; [|split]; [| |discriminate]);
    (apply Forall_cons; split; [simpl; lia|by apply Forall_nil]).
Qed.

Lemma coupled_evaluation_in_lockstep_witness :
  exists logs,
    length logs = 6%nat
    /\ EvaluatePreparedCoupledModels 64 sampleConvert (answers succeeded) quantModel
         (answers unavailable) (toSigned quantModel) tt
       = Ok (concat logs, tt, Next tt).
Proof.
  destruct (coupled_evaluation_in_lockstep 64 sampleConvert (answers succeeded) quantModel
              (answers unavailable) (toSigned quantModel)
              (proj1 validIndexes_quantModel) (proj2 validIndexes_quantModel))
    as (logs & Hall & Hrun).
  exists logs. split; [|exact Hrun].
  apply Forall2_length in Hall. by rewrite <- Hall.
Defined.
